(** * Beat alignment and duration normalisation of [preprocess.py]

    A shallow embedding of the beat-alignment pipeline of the loop
    pre-processing script ([src/preprocess.py]) and the properties its
    specification states about it.

    Conventions of the embedding.
    - Python [int]s are [Z]; lengths are [nat] and are injected into [Z]
      where the source mixes them with signed values.
    - An audio tensor of shape [(1, n)] (the script mixes every file down
      to mono before it measures or cuts it) is the [list] of its [n]
      samples; the sample type is left generic.
    - A Python exception is the [Raise] outcome of [result]; a loop that
      does not finish is the [Diverge] outcome, which no handler catches.
    - Tempo values (BPM, speed ratios) are rationals [Q]; signal-domain
      floating-point numbers (beat times, strengths, confidence) are real
      numbers [R].  Rounding of the floating-point operations is not
      modelled. *)

From Stdlib Require Import String Ascii.
From Stdlib Require Import QArith Qabs Qminmax.
From Stdlib Require Import Lqa.
From Stdlib Require Import Reals Lra.
From Stdlib Require Import ZArith List Bool Arith Lia.
Import ListNotations.

Local Open Scope Z_scope.

(** ** Outcomes of Python code *)

Inductive exn : Type :=
| ZeroDivisionError
| TypeError
| IndexError
| ValueError
| OverflowError
| RuntimeError        (* a failure inside torch, librosa, scipy or essentia *)
| CalledProcessError  (* subprocess.run(check=True): non-zero exit status *)
| OSError.            (* subprocess.run: the program could not be started *)

Inductive result (A : Type) : Type :=
| Ok (a : A)
| Raise (e : exn)
| Diverge.

Arguments Ok {A} a.
Arguments Raise {A} e.
Arguments Diverge {A}.

Definition bind {A B : Type} (m : result A) (k : A -> result B) : result B :=
  match m with
  | Ok a => k a
  | Raise e => Raise e
  | Diverge => Diverge
  end.

Declare Scope py_scope.
Delimit Scope py_scope with py.
Notation "x <- m ;; k" := (bind m (fun x => k))
  (at level 61, m at next level, right associativity) : py_scope.
Notation "' p <- m ;; k" := (bind m (fun x => match x with p => k end))
  (at level 61, p pattern, m at next level, right associativity) : py_scope.

(** [try: body  except Exception: handler]. *)
Definition try_except {A : Type} (body : result A) (handler : exn -> result A)
  : result A :=
  match body with
  | Raise e => handler e
  | other => other
  end.

(** ** Python and torch sequence primitives *)

(** A slice bound as Python normalises it against a length [n]. *)
Definition slice_index (n i : Z) : Z :=
  if i <? 0 then Z.max (i + n) 0 else Z.min i n.

(** [l[start:stop]]; [None] is an omitted bound. *)
Definition py_slice {A : Type} (l : list A) (start stop : option Z) : list A :=
  let n := Z.of_nat (length l) in
  let s := match start with Some i => slice_index n i | None => 0 end in
  let e := match stop with Some j => slice_index n j | None => n end in
  firstn (Z.to_nat (e - s)) (skipn (Z.to_nat s) l).

Fixpoint tile {A : Type} (k : nat) (l : list A) : list A :=
  match k with
  | O => []
  | S k' => l ++ tile k' l
  end.

(** [wav.repeat(1, loops)]: torch refuses a negative repeat count. *)
Definition tensor_repeat {A : Type} (wav : list A) (loops : Z) : result (list A) :=
  if loops <? 0 then Raise RuntimeError else Ok (tile (Z.to_nat loops) wav).

(** [int(np.ceil(a / b))] on two Python ints.  The true division raises on
    a zero divisor; for operands below 2^53 the rounded quotient has the
    ceiling of the exact one. *)
Definition ceil_div (a b : Z) : result Z :=
  if b =? 0 then Raise ZeroDivisionError else Ok (- ((- a) / b)).

(** ** Length Normalizer: [ensure_exact_length] *)

Definition ensure_exact_length {A : Type} (wav : list A) (target_samples : Z)
  : result (list A) :=
  let current_samples := Z.of_nat (length wav) in
  if current_samples =? target_samples then Ok wav
  else if current_samples <? target_samples then
    (loops_needed <- ceil_div target_samples current_samples ;;
     extended_wav <- tensor_repeat wav loops_needed ;;
     Ok (py_slice extended_wav None (Some target_samples)))%py
  else Ok (py_slice wav None (Some target_samples)).

(** ** Floating-point helpers *)

(** A float division whose divisor is zero.  A Python float raises
    [ZeroDivisionError]; numpy would give [inf] or [nan] with a warning.
    Both are the [Raise] outcome here, so that a function proved to return
    [Ok] is proved never to divide by zero. *)
Definition float_div (x y : R) : result R :=
  if Req_dec_T y 0%R then Raise ZeroDivisionError else Ok (x / y)%R.

(** [float.astype(int)] and [int(float)]: truncation toward zero. *)
Definition R_to_int (x : R) : Z :=
  if Rle_dec 0%R x then Int_part x else - Int_part (- x)%R.

Definition Q_to_int (q : Q) : Z := Z.quot (Qnum q) (Zpos (Qden q)).

Fixpoint np_diff (l : list R) : list R :=
  match l with
  | a :: (b :: _) as tl => (b - a)%R :: np_diff tl
  | _ => []
  end.

Definition np_sum (l : list R) : R := fold_right Rplus 0%R l.

(** [np.mean]: the mean of an empty array is a division by zero. *)
Definition np_mean (l : list R) : result R :=
  float_div (np_sum l) (INR (length l)).

(** [np.std]: the population standard deviation (ddof = 0). *)
Definition np_std (l : list R) : result R :=
  (m <- np_mean l ;;
   v <- np_mean (map (fun x => ((x - m) * (x - m))%R) l) ;;
   Ok (sqrt v))%py.

(** ** Beat confidence: [calculate_beat_confidence] *)

Definition calculate_beat_confidence (beat_times : list R) : result R :=
  if (length beat_times <? 3)%nat then Ok 0%R
  else
    let intervals := np_diff beat_times in
    if (length intervals =? 0)%nat then Ok 0%R
    else
      (mean_interval <- np_mean intervals ;;
       std_interval <- np_std intervals ;;
       if Req_dec_T mean_interval 0%R then Ok 0%R
       else
         coefficient_of_variation <- float_div std_interval mean_interval ;;
         let confidence := Rmax 0 (1 - coefficient_of_variation * 2) in
         Ok (Rmin 1 confidence))%py.

(** ** Tempo Converter: the atempo filter chain *)

(** [while remaining > 1.0: factor = min(2.0, remaining); ...]. *)
Fixpoint atempo_chain_up (fuel : nat) (remaining : Q) : result (list Q) :=
  if Qlt_le_dec 1 remaining then
    match fuel with
    | O => Diverge
    | S fuel' =>
        let factor := Qmin 2 remaining in
        (rest <- atempo_chain_up fuel' (remaining / factor)%Q ;;
         Ok (factor :: rest))%py
    end
  else Ok [].

(** [while remaining < 1.0: factor = max(0.5, remaining); ...]. *)
Fixpoint atempo_chain_down (fuel : nat) (remaining : Q) : result (list Q) :=
  if Qlt_le_dec remaining 1 then
    match fuel with
    | O => Diverge
    | S fuel' =>
        let factor := Qmax (1 # 2) remaining in
        (rest <- atempo_chain_down fuel' (remaining / factor)%Q ;;
         Ok (factor :: rest))%py
    end
  else Ok [].

(** The factors of the [atempo=...] filters, in the order they are chained. *)
Definition build_atempo_chain (fuel : nat) (speed_ratio : Q) : result (list Q) :=
  if Qlt_le_dec 2 speed_ratio then atempo_chain_up fuel speed_ratio
  else if Qlt_le_dec speed_ratio (1 # 2) then atempo_chain_down fuel speed_ratio
  else Ok [speed_ratio].

Definition chain_product (chain : list Q) : Q := fold_right Qmult 1%Q chain.

Definition atempo_in_bounds (factor : Q) : Prop :=
  ((1 # 2) <= factor /\ factor <= 2)%Q.

(** ** ffmpeg command lines *)

Inductive ffmpeg_filter : Type :=
| atempo (factor : Q)
| asetrate (rate : Z)
| aresample (rate : Z).

(** [["ffmpeg", "-y", "-i", input, "-filter:a", filters, ("-ar", rate)?, output]]. *)
Record ffmpeg_cmd : Type := {
  cmd_input : string;
  cmd_filters : list ffmpeg_filter;
  cmd_ar : option Z;
  cmd_output : string
}.

(** ** numpy helpers on index arrays *)

Fixpoint np_diff_int (l : list nat) : list Z :=
  match l with
  | a :: (b :: _) as tl => (Z.of_nat b - Z.of_nat a) :: np_diff_int tl
  | _ => []
  end.

Definition count_if {A : Type} (p : A -> bool) (l : list A) : nat :=
  length (filter p l).

(** [np.histogram(xs, bins=np.arange(1, 9))[0]]: seven bins [k, k+1) for
    k = 1..6 and the closed last bin [7, 8]. *)
Definition np_histogram_1_8 (xs : list Z) : list nat :=
  map (fun k => count_if (fun v => (v =? k) || ((k =? 7) && (v =? 8))) xs)
      [1; 2; 3; 4; 5; 6; 7].

Fixpoint np_argmax_from (l : list nat) (i best_i best : nat) : nat :=
  match l with
  | [] => best_i
  | x :: tl =>
      if (best <? x)%nat then np_argmax_from tl (S i) i x
      else np_argmax_from tl (S i) best_i best
  end.

(** [np.argmax]: the first index of the largest entry. *)
Definition np_argmax (l : list nat) : nat :=
  match l with
  | [] => O
  | x :: tl => np_argmax_from tl 1%nat O x
  end.

(** [a[i]] on a numpy array: a negative index counts from the end. *)
Definition np_index (a : list Z) (i : Z) : result Z :=
  let n := Z.of_nat (length a) in
  if (i <? - n) || (n <=? i) then Raise IndexError
  else Ok (nth (Z.to_nat (if i <? 0 then i + n else i)) a 0).

(** [a[idx]] with an index array. *)
Fixpoint np_take (a : list Z) (idx : list Z) : result (list Z) :=
  match idx with
  | [] => Ok []
  | i :: rest =>
      (x <- np_index a i ;;
       xs <- np_take a rest ;;
       Ok (x :: xs))%py
  end.

Fixpoint zip_with {A B C : Type} (f : A -> B -> C) (l1 : list A) (l2 : list B)
  : list C :=
  match l1, l2 with
  | a :: t1, b :: t2 => f a b :: zip_with f t1 t2
  | _, _ => []
  end.

(** [np.sum(m, axis=0)] of a matrix given by its rows. *)
Definition np_sum_axis0 (rows : list (list R)) : list R :=
  match rows with
  | [] => []
  | r :: rs => fold_left (zip_with Rplus) rs r
  end.

(** ** File names *)

Definition basename (path : string) : string :=
  string_of_list_ascii
    (fold_left (fun acc c => if Ascii.eqb c "/"%char then [] else acc ++ [c])
               (list_ascii_of_string path) []).

(** [s.split('_')[0]]. *)
Fixpoint before_underscore (s : string) : string :=
  match s with
  | EmptyString => EmptyString
  | String c rest =>
      if Ascii.eqb c "_"%char then EmptyString
      else String c (before_underscore rest)
  end.

Definition get_file_id_from_filename (filename : string) : string :=
  before_underscore (basename filename).

(** [f"temp_atempo_{os.path.basename(input_file)}"] and its asetrate twin. *)
Definition output_atempo_of (input_file : string) : string :=
  ("temp_atempo_" ++ basename input_file)%string.

Definition output_asetrate_of (input_file : string) : string :=
  ("temp_asetrate_" ++ basename input_file)%string.

(** [cmd_atempo]: the chained atempo filters, then [-ar target_sample_rate]. *)
Definition atempo_command (input_file : string) (atempo_chain : list Q)
    (target_sample_rate : Z) : ffmpeg_cmd :=
  {| cmd_input := input_file;
     cmd_filters := map atempo atempo_chain;
     cmd_ar := Some target_sample_rate;
     cmd_output := output_atempo_of input_file |}.

(** [cmd_asetrate], with [asetrate = int(original_sr * speed_ratio)]. *)
Definition asetrate_command (input_file : string) (original_sr : Z)
    (speed_ratio : Q) (target_sample_rate : Z) : ffmpeg_cmd :=
  {| cmd_input := input_file;
     cmd_filters :=
       [asetrate (Q_to_int (inject_Z original_sr * speed_ratio)%Q);
        aresample target_sample_rate];
     cmd_ar := None;
     cmd_output := output_asetrate_of input_file |}.

Definition TARGET_SAMPLE_RATE : Z := 44100.
Definition TARGET_DURATION : Z := 16.
Definition TARGET_BPM : Z := 120.

Section Pipeline.

Context {sample : Type}.

Definition audio : Type := list sample.

(** A tensor of shape (channels, samples), as the list of its channels. *)
Definition tensor : Type := list audio.

(** The libraries and the operating system the script calls.  Each field
    stands for one external call; [Raise] is an exception of that call. *)
Record World : Type := {
  os_path_exists : string -> bool;
  (* torchaudio *)
  torchaudio_load : string -> result (tensor * Z);
  torchaudio_info_sample_rate : string -> result Z;
  torchaudio_save_outcome : string -> tensor -> result unit;
  mean_dim0 : tensor -> audio;
  resample : Z -> Z -> audio -> audio;
  (* librosa *)
  librosa_load : string -> option Z -> result (list R * Z);
  onset_strength : list R -> Z -> result (list R);
  beat_track_onset : list R -> Z -> result (R * list nat);
  beat_track : list R -> Z -> result (R * list nat);
  frames_to_time : list nat -> Z -> list R;
  chroma_stft : list R -> Z -> result (list (list R));
  util_sync : list (list R) -> list nat -> result (list (list R));
  (* scipy.signal.find_peaks, with height= and with distance= *)
  find_peaks_height : list R -> R -> result (list nat);
  find_peaks_distance : list R -> Z -> result (list nat);
  (* essentia: MonoLoader followed by RhythmExtractor2013 *)
  rhythm_extractor : string -> result Q;
  (* subprocess.run(cmd, check=True, ...) *)
  subprocess_run : ffmpeg_cmd -> result unit
}.

Variable w : World.

(** ** Time-Signature Estimator: [estimate_time_signature] *)

(** [onset_env[np.clip(beat_frames, 0, len(onset_env) - 1)]]. *)
Definition clip_index (onset_env : list R) (beat_frames : list nat)
  : result (list R) :=
  match onset_env, beat_frames with
  | [], _ :: _ => Raise IndexError
  | _, _ =>
      Ok (map (fun f => nth (Nat.min f (length onset_env - 1)) onset_env 0%R)
              beat_frames)
  end.

Definition estimate_time_signature (audio_path : string) : result Z :=
  try_except
    ('(y, sr) <- librosa_load w audio_path None ;;
     onset_env <- onset_strength w y sr ;;
     '(tempo, beat_frames) <- beat_track_onset w onset_env sr ;;
     if (length beat_frames <? 8)%nat then Ok 4
     else
       beat_strengths <- clip_index onset_env beat_frames ;;
       mean_strength <- np_mean beat_strengths ;;
       peaks <- find_peaks_height w beat_strengths mean_strength ;;
       if (2 <? length peaks)%nat then
         let intervals := np_diff_int peaks in
         if (0 <? length intervals)%nat then
           let hist := np_histogram_1_8 intervals in
           let est := Z.of_nat (np_argmax hist) + 1 in
           if existsb (Z.eqb est) [3; 4; 6] then Ok est else Ok 4
         else Ok 4
       else Ok 4)%py
    (fun _ => Ok 0).

(** ** Downbeat estimation: [estimate_downbeats_librosa] *)

(** [while pos < n: downbeat_indices.append(pos); pos += time_signature]. *)
Fixpoint downbeat_loop (fuel : nat) (pos time_signature n : Z) : result (list Z) :=
  if pos <? n then
    match fuel with
    | O => Diverge
    | S fuel' =>
        (rest <- downbeat_loop fuel' (pos + time_signature) time_signature n ;;
         Ok (pos :: rest))%py
    end
  else Ok [].

(** Both strength arrays cut to the shorter one, then
    [beat_strengths * 0.7 + chroma_strength * 0.3]. *)
Definition combine_strengths (beat_strengths chroma_strength : list R) : list R :=
  let min_length := Nat.min (length beat_strengths) (length chroma_strength) in
  let beat_strengths := firstn min_length beat_strengths in
  let chroma_strength := firstn min_length chroma_strength in
  zip_with (fun b c => (b * 0.7 + c * 0.3)%R) beat_strengths chroma_strength.

(** The result is [None] where the Python function returns [None]. *)
Definition estimate_downbeats_librosa (y : list R) (sr : Z)
    (beat_frames : list nat) (time_signature : Z) : result (option (list Z)) :=
  try_except
    (if Z.of_nat (length beat_frames) <? time_signature then
       Ok (Some (if (0 <? length beat_frames)%nat then [0] else []))
     else
       onset_env <- onset_strength w y sr ;;
       let valid_beat_frames :=
         filter (fun f => (f <? length onset_env)%nat) beat_frames in
       if (length valid_beat_frames =? 0)%nat then Ok (Some [])
       else
         let beat_strengths := map (fun f => nth f onset_env 0%R) valid_beat_frames in
         chroma <- chroma_stft w y sr ;;
         chroma_beats <- util_sync w chroma valid_beat_frames ;;
         let chroma_strength := np_sum_axis0 chroma_beats in
         let combined_strength := combine_strengths beat_strengths chroma_strength in
         peaks <- find_peaks_distance w combined_strength time_signature ;;
         match peaks with
         | p0 :: _ =>
             let first_strong_beat :=
               if Z.of_nat p0 <? time_signature then Z.of_nat p0 else 0 in
             let n := Z.of_nat (length valid_beat_frames) in
             downbeat_indices <-
               downbeat_loop (Z.to_nat (n - first_strong_beat))
                             first_strong_beat time_signature n ;;
             Ok (Some downbeat_indices)
         | [] => Ok None
         end)%py
    (fun _ => Ok (Some [])).

(** ** Beat and downbeat tracker: [detect_beats_and_downbeats] *)

Record Detection : Type := {
  det_beat_times : option (list R);
  det_downbeat_indices : option (list Z);
  det_tempo : option R;
  det_confidence : R
}.

(** [return None, None, None, 0.0]. *)
Definition no_detection : Detection :=
  {| det_beat_times := None; det_downbeat_indices := None;
     det_tempo := None; det_confidence := 0%R |}.

Definition detect_beats_and_downbeats (audio_path : string)
    (target_sample_rate required_time_sig : Z) : result Detection :=
  try_except
    (detected_time_sig <- estimate_time_signature audio_path ;;
     if negb (detected_time_sig =? required_time_sig) then Ok no_detection
     else
       '(y, sr) <- librosa_load w audio_path (Some target_sample_rate) ;;
       '(tempo, beat_frames) <- beat_track w y sr ;;
       let beat_times := frames_to_time w beat_frames sr in
       downbeat_indices <-
         estimate_downbeats_librosa y sr beat_frames detected_time_sig ;;
       confidence <- calculate_beat_confidence beat_times ;;
       Ok {| det_beat_times := Some beat_times;
             det_downbeat_indices := downbeat_indices;
             det_tempo := Some tempo;
             det_confidence := confidence |})%py
    (fun _ => Ok no_detection).

(** ** External commands and BPM detection *)

(** [run_ffmpeg_command]: the success flag of the pair it returns; only
    [CalledProcessError] is handled. *)
Definition run_ffmpeg_command (cmd : ffmpeg_cmd) : result bool :=
  match subprocess_run w cmd with
  | Ok _ => Ok true
  | Raise CalledProcessError => Ok false
  | Raise e => Raise e
  | Diverge => Diverge
  end.

Definition detect_bpm (file_path : string) : result Q :=
  try_except
    (bpm <- rhythm_extractor w file_path ;;
     if Qle_bool 30 bpm && Qle_bool bpm 300 then Ok bpm else Ok 120%Q)%py
    (fun _ => Ok 120%Q).

(** What one entry of the metadata holds for the BPM: a number; nothing
    (the [annotations] or the [bpm] key is missing); or something that
    [float(...)] or the key lookups refuse, with the exception they raise
    ([TypeError] for a JSON null or a list, [ValueError] for a string that
    is not a number). *)
Inductive bpm_entry : Type :=
| bpm_number (bpm : Q)
| bpm_missing
| bpm_malformed (e : exn).

(** The metadata mapping, from file id to its entry. *)
Definition metadata_t : Type := list (string * bpm_entry).

Definition get_bpm_from_metadata (file_path : string) (metadata : metadata_t)
  : result (option Q) :=
  let file_id := get_file_id_from_filename file_path in
  match find (fun entry => String.eqb (fst entry) file_id) metadata with
  | Some (_, bpm_number bpm) => Ok (Some bpm)
  | Some (_, bpm_malformed e) => Raise e
  | Some (_, bpm_missing) => Ok None
  | None => Ok None
  end.

(** The metadata lookup comes before the [try]: what it raises is raised
    by [get_file_bpm]. *)
Definition get_file_bpm (file_path : string) (metadata : option metadata_t)
  : result (option Q) :=
  (from_metadata <-
     match metadata with
     | Some ((_ :: _) as m) => get_bpm_from_metadata file_path m
     | _ => Ok None
     end ;;
   match from_metadata with
   | Some bpm => Ok (Some bpm)
   | None =>
       try_except (tempo <- detect_bpm file_path ;; Ok (Some tempo))
                  (fun _ => Ok None)
   end)%py.

(** ** Tempo Converter: [tempo_convert_ffmpeg] *)

(** [error < best_error], where [best_error] starts as [float('inf')]. *)
Definition improves (error : Q) (best : option (string * string * Q)) : bool :=
  match best with
  | None => true
  | Some (_, _, best_error) => negb (Qle_bool best_error error)
  end.

Definition tempo_convert_ffmpeg (fuel : nat) (input_file : string)
    (target_bpm original_bpm : Q) (target_sample_rate : Z) : result string :=
  (speed_ratio <-
     (if Qeq_bool original_bpm 0 then Raise ZeroDivisionError
      else Ok (target_bpm / original_bpm)%Q) ;;
   let output_atempo := output_atempo_of input_file in
   let output_asetrate := output_asetrate_of input_file in
   atempo_chain <- build_atempo_chain fuel speed_ratio ;;
   let cmd_atempo := atempo_command input_file atempo_chain target_sample_rate in
   success_atempo <- run_ffmpeg_command cmd_atempo ;;
   original_sr <- torchaudio_info_sample_rate w input_file ;;
   let cmd_asetrate :=
     asetrate_command input_file original_sr speed_ratio target_sample_rate in
   success_asetrate <- run_ffmpeg_command cmd_asetrate ;;
   let best := None in
   best <-
     (if success_atempo && os_path_exists w output_atempo then
        bpm_atempo <- detect_bpm output_atempo ;;
        let error_atempo := Qabs (bpm_atempo - target_bpm) in
        Ok (if improves error_atempo best
            then Some ("atempo"%string, output_atempo, error_atempo) else best)
      else Ok best) ;;
   best <-
     (if success_asetrate && os_path_exists w output_asetrate then
        bpm_asetrate <- detect_bpm output_asetrate ;;
        let error_asetrate := Qabs (bpm_asetrate - target_bpm) in
        Ok (if improves error_asetrate best
            then Some ("asetrate"%string, output_asetrate, error_asetrate) else best)
      else Ok best) ;;
   match best with
   | Some (_, best_file, _) => Ok best_file
   | None => Ok input_file
   end)%py.

(** ** Files written by the script *)

Definition disk : Type := string -> option tensor.

Definition disk_write (d : disk) (path : string) (t : tensor) : disk :=
  fun p => if String.eqb p path then Some t else d p.

Definition disk_remove (d : disk) (path : string) : disk :=
  fun p => if String.eqb p path then None else d p.

(** Code that writes files: the files written so far are threaded through,
    and survive an exception. *)
Definition io (A : Type) : Type := disk -> result A * disk.

Definition io_ret {A : Type} (a : A) : io A := fun d => (Ok a, d).

Definition io_lift {A : Type} (r : result A) : io A := fun d => (r, d).

Definition io_bind {A B : Type} (m : io A) (k : A -> io B) : io B :=
  fun d =>
    match m d with
    | (Ok a, d') => k a d'
    | (Raise e, d') => (Raise e, d')
    | (Diverge, d') => (Diverge, d')
    end.

(** [torchaudio.save(path, wav, sample_rate)]: the file is written, or the
    call fails and nothing is written. *)
Definition torchaudio_save (path : string) (t : tensor) : io unit :=
  fun d =>
    match torchaudio_save_outcome w path t with
    | Ok _ => (Ok tt, disk_write d path t)
    | Raise e => (Raise e, d)
    | Diverge => (Diverge, d)
    end.

(** ** Beat-Aligned Windower: [align_to_downbeat_and_normalize_beats] *)

(** The [beat_info] dictionary; a key the code path does not set is [None]. *)
Record BeatInfo : Type := {
  bi_detected_bpm : option R;
  bi_confidence : R;
  bi_num_beats : option nat;
  bi_num_downbeats : option nat;
  bi_aligned : bool;
  bi_start_sample : option Z;
  bi_target_samples : option Z;
  bi_actual_samples : option Z
}.

(** The triple [(success, processed_wav, beat_info)] the windower returns. *)
Record AlignResult : Type := {
  ar_success : bool;
  ar_processed_wav : option audio;
  ar_beat_info : option BeatInfo
}.

(** [int(target_beats * (60.0 / TARGET_BPM) * target_sample_rate)]:
    60.0 / 120 is exactly one half, so the float product is exact. *)
Definition target_samples_of (target_beats target_sample_rate : Z) : Z :=
  Z.quot (target_beats * 60 * target_sample_rate) TARGET_BPM.

(** Load, mix down to mono, resample: the buffer the windower works on is
    the only channel left. *)
Definition load_mono (audio_path : string) (target_sample_rate : Z)
  : result audio :=
  ('(wav, sr) <- torchaudio_load w audio_path ;;
   let wav := if (1 <? length wav)%nat then [mean_dim0 w wav] else wav in
   let wav :=
     if negb (sr =? target_sample_rate)
     then map (resample w sr target_sample_rate) wav else wav in
   Ok (hd [] wav))%py.

(** [beat_times is None or confidence < confidence_threshold or
     len(beat_times) < 4 or len(downbeat_indices) == 0], evaluated left to
    right; [len(None)] raises. *)
Definition fallback_condition (det : Detection) (confidence_threshold : R)
  : result bool :=
  match det_beat_times det with
  | None => Ok true
  | Some beat_times =>
      if Rlt_dec (det_confidence det) confidence_threshold then Ok true
      else if (length beat_times <? 4)%nat then Ok true
      else
        match det_downbeat_indices det with
        | None => Raise TypeError
        | Some downbeat_indices => Ok (length downbeat_indices =? 0)%nat
        end
  end.

(** The [for downbeat_idx in downbeat_indices] scan; [None] when it ends
    without a [break]. *)
Fixpoint find_start (beat_samples : list Z) (num_beats target_beats : Z)
    (downbeat_indices : list Z) : result (option Z) :=
  match downbeat_indices with
  | [] => Ok None
  | downbeat_idx :: rest =>
      (potential_start <- np_index beat_samples downbeat_idx ;;
       let remaining_beats := num_beats - downbeat_idx in
       if target_beats <=? remaining_beats then Ok (Some potential_start)
       else find_start beat_samples num_beats target_beats rest)%py
  end.

(** [int(np.ceil(target_samples / available_samples))] where the divisor is
    a numpy integer: a zero divisor gives [inf], which [int] refuses. *)
Definition np_ceil_div (a b : Z) : result Z :=
  if b =? 0 then Raise OverflowError else Ok (- ((- a) / b)).

(** Cut the window that starts at [start_sample]; the flag is
    [beat_info['aligned']]. *)
Definition extract_segment (wav : audio) (start_sample target_samples : Z)
  : result (audio * bool) :=
  let end_sample := start_sample + target_samples in
  let n := Z.of_nat (length wav) in
  if n <=? start_sample then Ok (wav, false)
  else if end_sample <=? n then
    Ok (py_slice wav (Some start_sample) (Some end_sample), true)
  else
    let available_samples := n - start_sample in
    let aligned_wav := py_slice wav (Some start_sample) None in
    (processed_wav <-
       (if available_samples <? target_samples then
          loops_needed <- np_ceil_div target_samples available_samples ;;
          tensor_repeat aligned_wav loops_needed
        else Ok aligned_wav) ;;
     Ok (processed_wav, true))%py.

(** The body of the [try] block: the clip to save and its [beat_info]. *)
Definition align_try (audio_path : string) (target_beats target_sample_rate : Z)
    (confidence_threshold : R) : result (audio * BeatInfo) :=
  (wav <- load_mono audio_path target_sample_rate ;;
   det <- detect_beats_and_downbeats audio_path target_sample_rate 4 ;;
   let beat_info (aligned : bool) (start : option Z) (target actual : Z) :=
     {| bi_detected_bpm := det_tempo det;
        bi_confidence := det_confidence det;
        bi_num_beats :=
          Some (match det_beat_times det with Some b => length b | None => O end);
        bi_num_downbeats :=
          Some (match det_downbeat_indices det with Some i => length i | None => O end);
        bi_aligned := aligned;
        bi_start_sample := start;
        bi_target_samples := Some target;
        bi_actual_samples := Some actual |} in
   let target_samples := target_samples_of target_beats target_sample_rate in
   use_fallback <- fallback_condition det confidence_threshold ;;
   if use_fallback then
     processed_wav <- ensure_exact_length wav target_samples ;;
     Ok (processed_wav,
         beat_info false None target_samples (Z.of_nat (length processed_wav)))
   else
     match det_beat_times det, det_downbeat_indices det with
     | Some beat_times, Some downbeat_indices =>
         let beat_samples :=
           map (fun t => R_to_int (t * IZR target_sample_rate)%R) beat_times in
         downbeat_samples <- np_take beat_samples downbeat_indices ;;
         found <- find_start beat_samples (Z.of_nat (length beat_times))
                             target_beats downbeat_indices ;;
         let start_sample :=
           match found, downbeat_samples with
           | Some s, _ => s
           | None, s :: _ => s
           | None, [] => 0
           end in
         '(processed_wav, aligned) <- extract_segment wav start_sample target_samples ;;
         processed_wav <- ensure_exact_length processed_wav target_samples ;;
         Ok (processed_wav,
             beat_info aligned (Some start_sample) target_samples
                       (Z.of_nat (length processed_wav)))
     | _, _ => Raise TypeError
     end)%py.

(** The body of the [except] block: duration-based processing. *)
Definition align_except (audio_path : string) (target_beats target_sample_rate : Z)
  : result (audio * BeatInfo) :=
  (wav <- load_mono audio_path target_sample_rate ;;
   let target_samples := target_samples_of target_beats target_sample_rate in
   processed_wav <- ensure_exact_length wav target_samples ;;
   Ok (processed_wav,
       {| bi_detected_bpm := Some (IZR TARGET_BPM);
          bi_confidence := 0%R;
          bi_num_beats := None;
          bi_num_downbeats := None;
          bi_aligned := false;
          bi_start_sample := None;
          bi_target_samples := Some target_samples;
          bi_actual_samples := Some (Z.of_nat (length processed_wav)) |}))%py.

(** [return False, None, None]. *)
Definition align_failed : AlignResult :=
  {| ar_success := false; ar_processed_wav := None; ar_beat_info := None |}.

Definition align_ok (saved : audio * BeatInfo) : AlignResult :=
  {| ar_success := true; ar_processed_wav := Some (fst saved);
     ar_beat_info := Some (snd saved) |}.

(** Each block saves its clip to [output_path] as its last fallible step,
    inside its [try]: an exception of [torchaudio.save] goes to [on_error]. *)
Definition save_clip (output_path : string) (saved : audio * BeatInfo)
    (on_error : io AlignResult) : io AlignResult :=
  fun d =>
    match torchaudio_save output_path [fst saved] d with
    | (Ok _, d') => (Ok (align_ok saved), d')
    | (Raise _, d') => on_error d'
    | (Diverge, d') => (Diverge, d')
    end.

(** The [except] block as a whole: its own failures give
    [(False, None, None)]. *)
Definition align_handler (audio_path output_path : string)
    (target_beats target_sample_rate : Z) : io AlignResult :=
  fun d =>
    match align_except audio_path target_beats target_sample_rate with
    | Ok saved => save_clip output_path saved (io_ret align_failed) d
    | Diverge => (Diverge, d)
    | Raise _ => (Ok align_failed, d)
    end.

Definition align_to_downbeat_and_normalize_beats (audio_path output_path : string)
    (target_beats target_sample_rate : Z) (confidence_threshold : R)
  : io AlignResult :=
  fun d =>
    match align_try audio_path target_beats target_sample_rate confidence_threshold with
    | Ok saved =>
        save_clip output_path saved
          (align_handler audio_path output_path target_beats target_sample_rate) d
    | Diverge => (Diverge, d)
    | Raise _ =>
        align_handler audio_path output_path target_beats target_sample_rate d
    end.

(** ** Per-file driver: [process_wav_with_beat_alignment], [align_beats=True] *)

Inductive Status : Type := success | skipped_time_sig | failed.

Inductive FileInfo : Type :=
| beat_alignment (info : BeatInfo)
| time_signature_mismatch (detected_time_sig required_time_sig : Z).

(** The 4-tuple [(path, final_bpm, info, status)]. *)
Record Outcome : Type := {
  out_path : option string;
  out_final_bpm : option Q;
  out_info : option FileInfo;
  out_status : Status
}.

Definition outcome_failed : Outcome :=
  {| out_path := None; out_final_bpm := None; out_info := None;
     out_status := failed |}.

(** [not preserve_bpm and original_bpm and abs(original_bpm - target_bpm) > 1.0]:
    the BPM to convert from when the test holds ([None] and [0.0] are false). *)
Definition needs_conversion (preserve_bpm : bool) (original_bpm : option Q)
    (target_bpm : Q) : option Q :=
  match original_bpm with
  | Some bpm =>
      if negb preserve_bpm && negb (Qeq_bool bpm 0)
         && negb (Qle_bool (Qabs (bpm - target_bpm)) 1)
      then Some bpm else None
  | None => None
  end.

(** [original_bpm if original_bpm else target_bpm]. *)
Definition bpm_or (original_bpm : option Q) (target_bpm : Q) : Q :=
  match original_bpm with
  | Some bpm => if Qeq_bool bpm 0 then target_bpm else bpm
  | None => target_bpm
  end.

(** [if os.path.exists(tf) and tf != processed_save_path: os.remove(tf)]. *)
Definition remove_temp (processed_save_path tf : string) : io unit :=
  fun d =>
    let present :=
      os_path_exists w tf || match d tf with Some _ => true | None => false end in
    if present && negb (String.eqb tf processed_save_path)
    then (Ok tt, disk_remove d tf) else (Ok tt, d).

Declare Scope io_scope.
Delimit Scope io_scope with io.
Notation "x <- m ;; k" := (io_bind m (fun x => k))
  (at level 61, m at next level, right associativity) : io_scope.
Notation "' p <- m ;; k" := (io_bind m (fun x => match x with p => k end))
  (at level 61, p pattern, m at next level, right associativity) : io_scope.

Definition process_wav_with_beat_alignment (fuel : nat)
    (file_path processed_save_path : string) (metadata : option metadata_t)
    (target_sample_rate : Z) (target_bpm : Q) (preserve_bpm : bool)
    (target_beats : Z) (confidence_threshold : R) (required_time_sig : Z)
  : io Outcome :=
  if negb (os_path_exists w file_path) then io_ret outcome_failed
  else
    (detected_time_sig <-
       io_lift (try_except (r <- estimate_time_signature file_path ;; Ok (Some r))%py
                           (fun _ => Ok None)) ;;
     match detected_time_sig with
     | None => io_ret outcome_failed
     | Some detected_time_sig =>
     if negb (detected_time_sig =? required_time_sig) then
       io_ret {| out_path := None; out_final_bpm := None;
                 out_info := Some (time_signature_mismatch detected_time_sig
                                                          required_time_sig);
                 out_status := skipped_time_sig |}
     else
       original_bpm <- io_lift (get_file_bpm file_path metadata) ;;
       let temp_file := ("temp_before_alignment_" ++ basename file_path)%string in
       '(working_file, final_bpm) <-
         match needs_conversion preserve_bpm original_bpm target_bpm with
         | Some bpm =>
             tempo_adjusted_file <-
               io_lift (tempo_convert_ffmpeg fuel file_path target_bpm bpm
                                             target_sample_rate) ;;
             io_ret (tempo_adjusted_file, target_bpm)
         | None =>
             let final_bpm := bpm_or original_bpm target_bpm in
             info_sample_rate <- io_lift (torchaudio_info_sample_rate w file_path) ;;
             if negb (info_sample_rate =? target_sample_rate) then
               '(wav, sr) <- io_lift (torchaudio_load w file_path) ;;
               let wav := map (resample w sr target_sample_rate) wav in
               _ <- torchaudio_save temp_file wav ;;
               io_ret (temp_file, final_bpm)
             else io_ret (file_path, final_bpm)
         end ;;
       aligned <- align_to_downbeat_and_normalize_beats working_file
                    processed_save_path target_beats target_sample_rate
                    confidence_threshold ;;
       _ <- remove_temp processed_save_path (output_atempo_of file_path) ;;
       _ <- remove_temp processed_save_path (output_asetrate_of file_path) ;;
       _ <- remove_temp processed_save_path temp_file ;;
       if ar_success aligned then
         let target_samples_16sec := TARGET_DURATION * target_sample_rate in
         aligned_wav <-
           io_lift (match ar_processed_wav aligned with
                    | Some wav => ensure_exact_length wav target_samples_16sec
                    | None => Raise TypeError
                    end) ;;
         _ <- torchaudio_save processed_save_path [aligned_wav] ;;
         _ <- io_lift
                (match ar_beat_info aligned with
                 | Some info =>
                     match bi_actual_samples info with
                     | Some _ =>
                         if Qeq_bool final_bpm 0 then Raise ZeroDivisionError
                         else Ok tt
                     | None => Ok tt
                     end
                 | None => Ok tt
                 end) ;;
         io_ret {| out_path := Some processed_save_path;
                   out_final_bpm := Some final_bpm;
                   out_info := option_map beat_alignment (ar_beat_info aligned);
                   out_status := success |}
       else io_ret outcome_failed
     end)%io.

End Pipeline.

Arguments World : clear implicits.


(** ** Vocabulary of the statements *)

(** A conversion strategy "fails to produce an output file": its command
    returns without success, or its output file is not there. *)
Definition strategy_failed {sample : Type} (w : World sample) (cmd : ffmpeg_cmd)
  : Prop :=
  exists flag,
    run_ffmpeg_command w cmd = Ok flag /\
    flag && os_path_exists w (cmd_output cmd) = false.

(** Fuel bound of the two loops: the ratio, or its inverse, is below [2^n]. *)
Definition pow2 (n : nat) : Q := inject_Z (2 ^ Z.of_nat n).

(** The four ways into the fallback branch. *)
Definition fallback_case (det : Detection) (confidence_threshold : R) : Prop :=
  det_beat_times det = None \/
  (det_confidence det < confidence_threshold)%R \/
  (exists beat_times,
      det_beat_times det = Some beat_times /\ (length beat_times < 4)%nat) \/
  det_downbeat_indices det = Some [].

(** The [beat_info] of the fallback branch. *)
Definition fallback_info (det : Detection) (target_samples : Z)
    (actual_samples : Z) : BeatInfo :=
  {| bi_detected_bpm := det_tempo det;
     bi_confidence := det_confidence det;
     bi_num_beats :=
       Some (match det_beat_times det with Some b => length b | None => O end);
     bi_num_downbeats :=
       Some (match det_downbeat_indices det with Some i => length i | None => O end);
     bi_aligned := false;
     bi_start_sample := None;
     bi_target_samples := Some target_samples;
     bi_actual_samples := Some actual_samples |}.

(** ** Scenarios *)

(** A file that exists and that no decoder can read: every library call
    fails and ffmpeg exits with a non-zero status. *)
Definition unreadable_world : World Z :=
  {| os_path_exists := fun p => String.eqb p "loop.wav";
     torchaudio_load := fun _ => Raise RuntimeError;
     torchaudio_info_sample_rate := fun _ => Raise RuntimeError;
     torchaudio_save_outcome := fun _ _ => Ok tt;
     mean_dim0 := fun _ => [];
     resample := fun _ _ a => a;
     librosa_load := fun _ _ => Raise RuntimeError;
     onset_strength := fun _ _ => Raise RuntimeError;
     beat_track_onset := fun _ _ => Raise RuntimeError;
     beat_track := fun _ _ => Raise RuntimeError;
     frames_to_time := fun _ _ => [];
     chroma_stft := fun _ _ => Raise RuntimeError;
     util_sync := fun _ _ => Raise RuntimeError;
     find_peaks_height := fun _ _ => Raise RuntimeError;
     find_peaks_distance := fun _ _ => Raise RuntimeError;
     rhythm_extractor := fun _ => Raise RuntimeError;
     subprocess_run := fun _ => Raise CalledProcessError |}.

(** A three-sample mono clip at the target rate in which the beat tracker
    finds no beat and the peak finder no peak; its tempo is measured as
    120 BPM and ffmpeg exits with a non-zero status. *)
Definition short_clip_world : World Z :=
  {| os_path_exists := fun p => String.eqb p "loop.wav";
     torchaudio_load := fun _ => Ok ([[1; 2; 3]], TARGET_SAMPLE_RATE);
     torchaudio_info_sample_rate := fun _ => Ok TARGET_SAMPLE_RATE;
     torchaudio_save_outcome := fun _ _ => Ok tt;
     mean_dim0 := fun _ => [];
     resample := fun _ _ a => a;
     librosa_load := fun _ _ => Ok ([0; 0; 0]%R, 22050);
     onset_strength := fun _ _ => Ok [1; 2; 3; 4; 5]%R;
     beat_track_onset := fun _ _ => Ok (120%R, []);
     beat_track := fun _ _ => Ok (120%R, []);
     frames_to_time := fun _ _ => [];
     chroma_stft := fun _ _ => Ok [[1; 1; 1; 1]; [0; 0; 0; 0]]%R;
     util_sync := fun c _ => Ok c;
     find_peaks_height := fun _ _ => Ok [];
     find_peaks_distance := fun _ _ => Ok [];
     rhythm_extractor := fun _ => Ok 120%Q;
     subprocess_run := fun _ => Raise CalledProcessError |}.

(** A clip with four beats at 0, 1, 2 and 10 seconds and one downbeat,
    on the first beat: the beats are valid and very irregular. *)
Definition irregular_beats_world : World Z :=
  {| os_path_exists := fun p => String.eqb p "loop.wav";
     torchaudio_load := fun _ => Ok ([[1; 2; 3]], TARGET_SAMPLE_RATE);
     torchaudio_info_sample_rate := fun _ => Ok TARGET_SAMPLE_RATE;
     torchaudio_save_outcome := fun _ _ => Ok tt;
     mean_dim0 := fun _ => [];
     resample := fun _ _ a => a;
     librosa_load := fun _ _ => Ok ([0; 0; 0]%R, 22050);
     onset_strength := fun _ _ => Ok [1; 2; 3; 4; 5]%R;
     beat_track_onset := fun _ _ => Ok (120%R, [0; 1; 2; 3]%nat);
     beat_track := fun _ _ => Ok (120%R, [0; 1; 2; 3]%nat);
     frames_to_time := fun _ _ => [0; 1; 2; 10]%R;
     chroma_stft := fun _ _ => Ok [[1; 1; 1; 1]; [0; 0; 0; 0]]%R;
     util_sync := fun c _ => Ok c;
     find_peaks_height := fun _ _ => Ok [];
     find_peaks_distance := fun _ _ => Ok [0%nat];
     rhythm_extractor := fun _ => Ok 120%Q;
     subprocess_run := fun _ => Raise CalledProcessError |}.

(** Four evenly spaced beats, one second apart, in which the peak finder
    finds no peak. *)
Definition regular_beats_world : World Z :=
  {| os_path_exists := fun p => String.eqb p "loop.wav";
     torchaudio_load := fun _ => Ok ([[1; 2; 3]], TARGET_SAMPLE_RATE);
     torchaudio_info_sample_rate := fun _ => Ok TARGET_SAMPLE_RATE;
     torchaudio_save_outcome := fun _ _ => Ok tt;
     mean_dim0 := fun _ => [];
     resample := fun _ _ a => a;
     librosa_load := fun _ _ => Ok ([0; 0; 0]%R, 22050);
     onset_strength := fun _ _ => Ok [1; 2; 3; 4; 5]%R;
     beat_track_onset := fun _ _ => Ok (120%R, [0; 1; 2; 3]%nat);
     beat_track := fun _ _ => Ok (120%R, [0; 1; 2; 3]%nat);
     frames_to_time := fun _ _ => [0; 1; 2; 3]%R;
     chroma_stft := fun _ _ => Ok [[1; 1; 1; 1]; [0; 0; 0; 0]]%R;
     util_sync := fun c _ => Ok c;
     find_peaks_height := fun _ _ => Ok [];
     find_peaks_distance := fun _ _ => Ok [];
     rhythm_extractor := fun _ => Ok 120%Q;
     subprocess_run := fun _ => Raise CalledProcessError |}.

(** The short clip again, with an output location that cannot be written:
    every [torchaudio.save] raises. *)
Definition read_only_world : World Z :=
  {| os_path_exists := fun p => String.eqb p "loop.wav";
     torchaudio_load := fun _ => Ok ([[1; 2; 3]], TARGET_SAMPLE_RATE);
     torchaudio_info_sample_rate := fun _ => Ok TARGET_SAMPLE_RATE;
     torchaudio_save_outcome := fun _ _ => Raise OSError;
     mean_dim0 := fun _ => [];
     resample := fun _ _ a => a;
     librosa_load := fun _ _ => Ok ([0; 0; 0]%R, 22050);
     onset_strength := fun _ _ => Ok [1; 2; 3; 4; 5]%R;
     beat_track_onset := fun _ _ => Ok (120%R, []);
     beat_track := fun _ _ => Ok (120%R, []);
     frames_to_time := fun _ _ => [];
     chroma_stft := fun _ _ => Ok [[1; 1; 1; 1]; [0; 0; 0; 0]]%R;
     util_sync := fun c _ => Ok c;
     find_peaks_height := fun _ _ => Ok [];
     find_peaks_distance := fun _ _ => Ok [];
     rhythm_extractor := fun _ => Ok 120%Q;
     subprocess_run := fun _ => Raise CalledProcessError |}.

Definition empty_disk : @disk Z := fun _ => None.

(** ** Emergency downbeat estimator: [estimate_downbeats_simple] *)

Fixpoint arange_from (count : nat) (start step : Z) : list Z :=
  match count with
  | O => []
  | S k => start :: arange_from k (start + step) step
  end.

(** [np.arange(0, stop, step)] on ints: [ceil(stop / step)] entries, none
    when that is not positive; a zero step is a division by zero. *)
Definition np_arange0 (stop step : Z) : result (list Z) :=
  if step =? 0 then Raise ZeroDivisionError
  else Ok (arange_from (Z.to_nat (- ((- stop) / step))) 0 step).

Definition estimate_downbeats_simple {A : Type} (beat_times_or_frames : list A)
    (time_signature : Z) : result (list Z) :=
  if Z.of_nat (length beat_times_or_frames) <? time_signature then
    Ok (if (0 <? length beat_times_or_frames)%nat then [0] else [])
  else np_arange0 (Z.of_nat (length beat_times_or_frames)) time_signature.

(** ** File listings *)

Definition ascii_lower (c : ascii) : ascii :=
  let n := nat_of_ascii c in
  if ((65 <=? n) && (n <=? 90))%nat then ascii_of_nat (n + 32) else c.

(** [s.lower()], on ASCII letters. *)
Fixpoint str_lower (s : string) : string :=
  match s with
  | EmptyString => EmptyString
  | String c rest => String (ascii_lower c) (str_lower rest)
  end.

(** [s.endswith(suffix)]. *)
Definition str_endswith (s suffix : string) : bool :=
  let n := String.length s in
  let k := String.length suffix in
  ((k <=? n)%nat && String.eqb (substring (n - k) k s) suffix)%bool.

(** [f.lower().endswith(('.wav', '.WAV'))]. *)
Definition is_wav_name (f : string) : bool :=
  str_endswith (str_lower f) ".wav" || str_endswith (str_lower f) ".WAV".

(** [os.path.join(a, b)] on POSIX paths. *)
Definition os_path_join (a b : string) : string :=
  match b with
  | String "/"%char _ => b
  | _ =>
      if String.eqb a "" || str_endswith a "/" then (a ++ b)%string
      else (a ++ "/" ++ b)%string
  end.

Section Coverage.

Context {sample : Type}.
Variable w : World sample.

Declare Scope io_scope.
Delimit Scope io_scope with io.
Notation "x <- m ;; k" := (io_bind m (fun x => k))
  (at level 61, m at next level, right associativity) : io_scope.
Notation "' p <- m ;; k" := (io_bind m (fun x => match x with p => k end))
  (at level 61, p pattern, m at next level, right associativity) : io_scope.

(** ** Duration-only processing: [process_wav] *)

(** Step 3 of [process_wav]: loop the clip when it is short, trim it
    otherwise ([torch.tile] repeats along the sample axis like
    [Tensor.repeat]). *)
Definition adjust_duration (wav : list sample) (target_samples : Z)
  : result (list sample) :=
  if Z.of_nat (length wav) <? target_samples then
    (repeats_needed <- ceil_div target_samples (Z.of_nat (length wav)) ;;
     repeated_audio <- tensor_repeat wav repeats_needed ;;
     Ok (py_slice repeated_audio None (Some target_samples)))%py
  else Ok (py_slice wav None (Some target_samples)).

(** [abs(original_bpm - target_bpm) > 1.0]; [None - number] raises. *)
Definition bpm_differs (original_bpm : option Q) (target_bpm : Q) : result bool :=
  match original_bpm with
  | Some bpm => Ok (negb (Qle_bool (Qabs (bpm - target_bpm)) 1))
  | None => Raise TypeError
  end.

Definition process_wav (fuel : nat) (file_path processed_save_path : string)
    (metadata : option metadata_t) (target_duration target_sample_rate : Z)
    (target_bpm : Q) (preserve_bpm : bool)
  : io (option string * option Q) :=
  if negb (os_path_exists w file_path) then io_ret (None, None)
  else
    (original_bpm <- io_lift (get_file_bpm w file_path metadata) ;;
     let temp_file := ("temp_" ++ basename file_path)%string in
     convert <-
       io_lift (if preserve_bpm then Ok false
                else bpm_differs original_bpm target_bpm) ;;
     '(working_file, final_bpm) <-
       (if convert : bool then
          tempo_adjusted_file <-
            io_lift (match original_bpm with
                     | Some bpm =>
                         tempo_convert_ffmpeg w fuel file_path target_bpm bpm
                                              target_sample_rate
                     | None => Raise TypeError
                     end) ;;
          io_ret (tempo_adjusted_file, Some target_bpm)
        else
          info_sample_rate <- io_lift (torchaudio_info_sample_rate w file_path) ;;
          if negb (info_sample_rate =? target_sample_rate) then
            '(wav, sr) <- io_lift (torchaudio_load w file_path) ;;
            let wav := map (resample w sr target_sample_rate) wav in
            _ <- torchaudio_save w temp_file wav ;;
            io_ret (temp_file, original_bpm)
          else io_ret (file_path, original_bpm)) ;;
     '(wav, sr) <- io_lift (torchaudio_load w working_file) ;;
     let target_samples := target_duration * target_sample_rate in
     let wav := if (1 <? length wav)%nat then [mean_dim0 w wav] else wav in
     wav <- io_lift (adjust_duration (hd [] wav) target_samples) ;;
     _ <- torchaudio_save w processed_save_path [wav] ;;
     _ <- remove_temp w processed_save_path (output_atempo_of file_path) ;;
     _ <- remove_temp w processed_save_path (output_asetrate_of file_path) ;;
     _ <- remove_temp w processed_save_path temp_file ;;
     io_ret (Some processed_save_path, final_bpm))%io.

(** [process_wav_with_beat_alignment] with [align_beats=False]: the
    2-tuple of [process_wav] is non-empty and has length 2. *)
Definition process_wav_without_alignment (fuel : nat)
    (file_path processed_save_path : string) (metadata : option metadata_t)
    (target_duration target_sample_rate : Z) (target_bpm : Q)
    (preserve_bpm : bool) : io Outcome :=
  if negb (os_path_exists w file_path) then io_ret outcome_failed
  else
    ('(path, bpm) <- process_wav fuel file_path processed_save_path metadata
                       target_duration target_sample_rate target_bpm preserve_bpm ;;
     io_ret {| out_path := path; out_final_bpm := bpm; out_info := None;
               out_status := success |})%io.

(** ** BPM filter: [filter_files_by_bpm] *)

(** [max_files is not None and len(filtered_files) >= max_files]. *)
Definition reached_max (max_files : option Z) (filtered_files : list string) : bool :=
  match max_files with
  | Some m => m <=? Z.of_nat (length filtered_files)
  | None => false
  end.

(** The [for wav_file in all_wav_files] loop, with its [break]. *)
Fixpoint filter_loop (input_dir : string) (metadata : option metadata_t)
    (min_bpm max_bpm : Q) (max_files : option Z)
    (all_wav_files filtered_files : list string) : result (list string) :=
  match all_wav_files with
  | [] => Ok filtered_files
  | wav_file :: rest =>
      let file_path := os_path_join input_dir wav_file in
      (bpm <- get_file_bpm w file_path metadata ;;
       match bpm with
       | Some b =>
           if Qle_bool min_bpm b && Qle_bool b max_bpm then
             let filtered_files := filtered_files ++ [wav_file] in
             if reached_max max_files filtered_files then Ok filtered_files
             else filter_loop input_dir metadata min_bpm max_bpm max_files
                              rest filtered_files
           else filter_loop input_dir metadata min_bpm max_bpm max_files
                            rest filtered_files
       | None => filter_loop input_dir metadata min_bpm max_bpm max_files
                             rest filtered_files
       end)%py
  end.

(** [listing] is what [os.listdir(input_dir)] returns. *)
Definition filter_files_by_bpm (listing : list string) (input_dir : string)
    (metadata : option metadata_t) (min_bpm max_bpm : Q) (max_files : option Z)
  : result (list string) :=
  let all_wav_files := filter is_wav_name listing in
  filter_loop input_dir metadata min_bpm max_bpm max_files all_wav_files [].

End Coverage.

(** ** A scenario in which ffmpeg works *)

(** A stereo clip measured at 100 BPM.  Both ffmpeg commands succeed and
    leave their output files; the atempo output is measured at 119 BPM and
    the asetrate output at 125 BPM. *)
Definition converted_world : World Z :=
  {| os_path_exists := fun _ => true;
     torchaudio_load := fun _ => Ok ([[1; 2; 3]; [3; 2; 1]], 22050);
     torchaudio_info_sample_rate := fun _ => Ok 22050;
     torchaudio_save_outcome := fun _ _ => Ok tt;
     mean_dim0 := fun _ => [2; 2; 2];
     resample := fun _ _ a => a;
     librosa_load := fun _ _ => Ok ([0; 0; 0]%R, 22050);
     onset_strength := fun _ _ => Ok [1; 2; 3; 4; 5]%R;
     beat_track_onset := fun _ _ => Ok (120%R, []);
     beat_track := fun _ _ => Ok (120%R, []);
     frames_to_time := fun _ _ => [];
     chroma_stft := fun _ _ => Ok [[1; 1; 1; 1]; [0; 0; 0; 0]]%R;
     util_sync := fun c _ => Ok c;
     find_peaks_height := fun _ _ => Ok [];
     find_peaks_distance := fun _ _ => Ok [];
     rhythm_extractor := fun p =>
       if String.eqb p "temp_atempo_loop.wav" then Ok 119%Q
       else if String.eqb p "temp_asetrate_loop.wav" then Ok 125%Q
       else if String.eqb p "dir/fast.wav" then Ok 170%Q
       else Ok 100%Q;
     subprocess_run := fun _ => Ok tt |}.

(** ** Files a computation touches *)

(** Whatever the outcome, the files outside [touched] are left as they
    were. *)
Definition only_touches {sample A : Type} (touched : list string)
    (m : @io sample A) : Prop :=
  forall d p, ~ In p touched -> snd (m d) p = d p.

(** ** What a [beat_info] must say

    Its sample counts are the target and the length of the clip, its
    confidence is a ratio, and it claims alignment only for a confident
    detection of at least four beats with a downbeat. *)
Definition info_sound (info : BeatInfo) (clip_length target : Z)
    (confidence_threshold : R) : Prop :=
  bi_target_samples info = Some target /\
  bi_actual_samples info = Some clip_length /\
  (0 <= bi_confidence info <= 1)%R /\
  (bi_aligned info = true ->
     ~ (bi_confidence info < confidence_threshold)%R /\
     (exists n, bi_num_beats info = Some n /\ (4 <= n)%nat) /\
     (exists k, bi_num_downbeats info = Some k /\ (1 <= k)%nat) /\
     (exists s, bi_start_sample info = Some s)).

(** ** The test of the BPM filter *)

(** [bpm is not None and min_bpm <= bpm <= max_bpm] for one listed file. *)
Definition bpm_in_range {sample : Type} (w : World sample) (input_dir : string)
    (metadata : option metadata_t) (min_bpm max_bpm : Q) (wav_file : string)
  : bool :=
  match get_file_bpm w (os_path_join input_dir wav_file) metadata with
  | Ok (Some bpm) => Qle_bool min_bpm bpm && Qle_bool bpm max_bpm
  | _ => false
  end.

(** The number of files after which the loop stops: the [break] follows an
    [append], so one file is taken even for [max_files <= 0]. *)
Definition files_limit (max_files : option Z) : option nat :=
  option_map (fun m => Z.to_nat (Z.max 1 m)) max_files.

(** ** A scenario in three-four time *)

(** Nine beats whose strong beats come every third beat: the estimated time
    signature is 3.  The clip itself loads as three mono samples. *)
Definition waltz_world : World Z :=
  {| os_path_exists := fun p => String.eqb p "loop.wav";
     torchaudio_load := fun _ => Ok ([[1; 2; 3]], 4);
     torchaudio_info_sample_rate := fun _ => Ok 4;
     torchaudio_save_outcome := fun _ _ => Ok tt;
     mean_dim0 := fun _ => [];
     resample := fun _ _ a => a;
     librosa_load := fun _ _ => Ok ([0; 0; 0]%R, 22050);
     onset_strength := fun _ _ => Ok [1; 2; 3; 4; 5]%R;
     beat_track_onset := fun _ _ => Ok (120%R, [0; 1; 2; 3; 4; 5; 6; 7; 8]%nat);
     beat_track := fun _ _ => Ok (120%R, [0; 1; 2; 3; 4; 5; 6; 7; 8]%nat);
     frames_to_time := fun _ _ => [0; 1; 2; 3; 4; 5; 6; 7; 8]%R;
     chroma_stft := fun _ _ => Ok [[1; 1; 1; 1]; [0; 0; 0; 0]]%R;
     util_sync := fun c _ => Ok c;
     find_peaks_height := fun _ _ => Ok [0; 3; 6]%nat;
     find_peaks_distance := fun _ _ => Ok [0%nat];
     rhythm_extractor := fun _ => Ok 120%Q;
     subprocess_run := fun _ => Raise CalledProcessError |}.

(** * Properties *)

(** ** Sequence primitives *)

Lemma tile_length {A : Type} (k : nat) (l : list A) :
  length (tile k l) = (k * length l)%nat.
Proof.
  induction k as [|k IH]; simpl; [reflexivity|].
  rewrite length_app, IH. reflexivity.
Qed.

Lemma tile_nth_error {A : Type} (l : list A) :
  l <> [] ->
  forall (k i : nat), (i < k * length l)%nat ->
    nth_error (tile k l) i = nth_error l (i mod length l).
Proof.
  intros Hne. assert (Hlen : (0 < length l)%nat) by (destruct l; simpl; [congruence|lia]).
  induction k as [|k IH]; intros i Hi; [simpl in Hi; lia|].
  simpl tile. destruct (Nat.lt_ge_cases i (length l)) as [Hlt|Hge].
  - rewrite nth_error_app1 by exact Hlt. now rewrite Nat.mod_small.
  - rewrite nth_error_app2 by exact Hge.
    rewrite IH by (simpl in Hi; lia).
    f_equal.
    replace i with ((i - length l) + 1 * length l)%nat at 2 by lia.
    now rewrite Nat.Div0.mod_add.
Qed.

Lemma py_slice_prefix {A : Type} (l : list A) (t : Z) :
  0 <= t -> py_slice l None (Some t) = firstn (Z.to_nat t) l.
Proof.
  intros Ht. unfold py_slice, slice_index.
  destruct (t <? 0) eqn:E; [apply Z.ltb_lt in E; lia|].
  simpl skipn. rewrite Z.sub_0_r.
  destruct (Z.le_gt_cases t (Z.of_nat (length l))) as [Hle|Hgt].
  - now rewrite Z.min_l.
  - rewrite Z.min_r by lia. rewrite Nat2Z.id.
    rewrite !firstn_all2; [reflexivity|lia|lia].
Qed.

Lemma ceil_div_covers (a b : Z) :
  0 < b -> a <= (- ((- a) / b)) * b.
Proof.
  intros Hb.
  pose proof (Z.mul_div_le (- a) b Hb). nia.
Qed.

Lemma ceil_div_lower (a b : Z) :
  0 < b -> 0 < a -> 0 < - ((- a) / b).
Proof.
  intros Hb Ha.
  assert ((- a) / b < 0) by (apply Z.div_lt_upper_bound; lia).
  lia.
Qed.

Example py_slice_negative_start : py_slice [1; 2; 3; 4; 5] (Some (-2)) None = [4; 5].
Proof. reflexivity. Qed.

Example py_slice_past_the_end : py_slice [1; 2; 3] (Some 1) (Some 10) = [2; 3].
Proof. reflexivity. Qed.

Example py_slice_empty_range : py_slice [1; 2; 3] (Some 2) (Some 1) = [].
Proof. reflexivity. Qed.

(** ** Length Normalizer *)

(** The three branches of [ensure_exact_length], as equations. *)
Lemma ensure_exact_length_same {A : Type} (wav : list A) (t : Z) :
  Z.of_nat (length wav) = t -> ensure_exact_length wav t = Ok wav.
Proof.
  intros H. unfold ensure_exact_length. now rewrite (proj2 (Z.eqb_eq _ _) H).
Qed.

Lemma ensure_exact_length_longer {A : Type} (wav : list A) (t : Z) :
  0 <= t < Z.of_nat (length wav) ->
  ensure_exact_length wav t = Ok (firstn (Z.to_nat t) wav).
Proof.
  intros [H0 H]. unfold ensure_exact_length.
  rewrite (proj2 (Z.eqb_neq _ _)) by lia.
  rewrite (proj2 (Z.ltb_ge _ _)) by lia.
  now rewrite py_slice_prefix.
Qed.

Lemma ensure_exact_length_shorter {A : Type} (wav : list A) (t : Z) :
  0 < Z.of_nat (length wav) < t ->
  ensure_exact_length wav t =
  Ok (firstn (Z.to_nat t)
        (tile (Z.to_nat (- ((- t) / Z.of_nat (length wav)))) wav)).
Proof.
  intros [H0 H]. unfold ensure_exact_length.
  rewrite (proj2 (Z.eqb_neq _ _)) by lia.
  rewrite (proj2 (Z.ltb_lt _ _)) by lia.
  unfold ceil_div. rewrite (proj2 (Z.eqb_neq _ _)) by lia.
  cbn [bind]. unfold tensor_repeat.
  pose proof (ceil_div_lower t (Z.of_nat (length wav)) H0 ltac:(lia)).
  rewrite (proj2 (Z.ltb_ge _ _)) by lia.
  cbn [bind]. now rewrite py_slice_prefix by lia.
Qed.

Lemma firstn_nth_error_lt {A : Type} (l : list A) (n i : nat) :
  (i < n)%nat -> nth_error (firstn n l) i = nth_error l i.
Proof.
  revert l i. induction n as [|n IH]; intros l i Hi; [lia|].
  destruct l as [|a l]; [reflexivity|].
  destruct i as [|i]; [reflexivity|]. simpl. apply IH. lia.
Qed.

(** Whenever the division in the looping branch is defined, the result has
    the requested length. *)
Lemma ensure_exact_length_returns {A : Type} (wav : list A) (t : Z) :
  0 <= t -> (0 < t -> wav <> []) ->
  exists out, ensure_exact_length wav t = Ok out /\ Z.of_nat (length out) = t.
Proof.
  intros Ht Hne.
  destruct (Z.lt_trichotomy (Z.of_nat (length wav)) t) as [Hlt|[Heq|Hgt]].
  - assert (Hpos : 0 < Z.of_nat (length wav)).
    { destruct wav; simpl length; [exfalso; apply Hne; [lia|reflexivity]|lia]. }
    eexists. split; [apply ensure_exact_length_shorter; lia|].
    rewrite length_firstn, tile_length.
    pose proof (ceil_div_covers t (Z.of_nat (length wav)) Hpos).
    pose proof (ceil_div_lower t (Z.of_nat (length wav)) Hpos ltac:(lia)).
    nia.
  - exists wav. split; [now apply ensure_exact_length_same|exact Heq].
  - eexists. split; [apply ensure_exact_length_longer; lia|].
    rewrite length_firstn. lia.
Qed.

(** C2. For a buffer of at least one sample and a positive target,
    [ensure_exact_length] returns a buffer of exactly [target_samples]
    samples: the input itself when its length is the target, the input
    tiled [ceil(target/length)] times and cut after [target_samples]
    samples when it is shorter, its first [target_samples] samples when it
    is longer.  In each case sample [i] of the output is sample
    [i mod length] of the input. *)
Theorem ensure_exact_length_exact {A : Type} (wav : list A) (target_samples : Z) :
  (1 <= length wav)%nat ->
  0 < target_samples ->
  exists out,
    ensure_exact_length wav target_samples = Ok out /\
    Z.of_nat (length out) = target_samples /\
    (Z.of_nat (length wav) = target_samples -> out = wav) /\
    (Z.of_nat (length wav) < target_samples ->
       out = firstn (Z.to_nat target_samples)
               (tile (Z.to_nat (- ((- target_samples) / Z.of_nat (length wav)))) wav)) /\
    (target_samples < Z.of_nat (length wav) ->
       out = firstn (Z.to_nat target_samples) wav) /\
    (forall i, (i < length out)%nat ->
       nth_error out i = nth_error wav (i mod length wav)).
Proof.
  intros Hlen Ht.
  destruct (Z.lt_trichotomy (Z.of_nat (length wav)) target_samples) as [Hlt|[Heq|Hgt]].
  - (* shorter: tile, then truncate *)
    set (loops := Z.to_nat (- ((- target_samples) / Z.of_nat (length wav)))).
    exists (firstn (Z.to_nat target_samples) (tile loops wav)).
    assert (Hcover : (Z.to_nat target_samples <= loops * length wav)%nat).
    { pose proof (ceil_div_covers target_samples (Z.of_nat (length wav)) ltac:(lia)).
      pose proof (ceil_div_lower target_samples (Z.of_nat (length wav))
                                 ltac:(lia) ltac:(lia)).
      unfold loops. nia. }
    assert (Hout : length (firstn (Z.to_nat target_samples) (tile loops wav))
                   = Z.to_nat target_samples).
    { rewrite length_firstn, tile_length. lia. }
    split; [apply ensure_exact_length_shorter; lia|].
    split; [rewrite Hout; lia|].
    split; [lia|]. split; [reflexivity|]. split; [lia|].
    intros i Hi. rewrite Hout in Hi.
    rewrite firstn_nth_error_lt by exact Hi.
    apply tile_nth_error; [destruct wav; simpl in *; [lia|congruence]|lia].
  - (* already exact *)
    exists wav.
    split; [now apply ensure_exact_length_same|].
    split; [exact Heq|]. split; [reflexivity|]. split; [lia|]. split; [lia|].
    intros i Hi. now rewrite Nat.mod_small.
  - (* longer: truncate *)
    exists (firstn (Z.to_nat target_samples) wav).
    assert (Hout : length (firstn (Z.to_nat target_samples) wav)
                   = Z.to_nat target_samples).
    { rewrite length_firstn. lia. }
    split; [apply ensure_exact_length_longer; lia|].
    split; [rewrite Hout; lia|].
    split; [lia|]. split; [lia|]. split; [reflexivity|].
    intros i Hi. rewrite Hout in Hi.
    rewrite firstn_nth_error_lt by exact Hi.
    rewrite Nat.mod_small by lia. reflexivity.
Qed.

Example ensure_exact_length_loops :
  ensure_exact_length [1; 2; 3] 7 = Ok [1; 2; 3; 1; 2; 3; 1].
Proof. reflexivity. Qed.

Example ensure_exact_length_trims :
  ensure_exact_length [1; 2; 3] 2 = Ok [1; 2].
Proof. reflexivity. Qed.

Example ensure_exact_length_empty_raises :
  ensure_exact_length (@nil Z) 2 = Raise ZeroDivisionError.
Proof. reflexivity. Qed.

Lemma ensure_exact_length_exact_witness :
  (1 <= length [1; 2; 3])%nat /\ 0 < 7 /\
  exists out,
    ensure_exact_length [1; 2; 3] 7 = Ok out /\
    Z.of_nat (length out) = 7 /\
    (forall i, (i < length out)%nat ->
       nth_error out i = nth_error [1; 2; 3] (i mod 3)).
Proof.
  split; [simpl; lia|]. split; [lia|].
  destruct (ensure_exact_length_exact [1; 2; 3] 7)
    as (out & Hrun & Hlen & _ & _ & _ & Hnth);
    [simpl; lia|lia|].
  exists out. split; [exact Hrun|]. split; [exact Hlen|exact Hnth].
Defined.

(** C3. The Length Normalizer is idempotent: a buffer whose length is the
    target is returned unchanged, and for a buffer of at least one sample
    and a positive target a second application to the output of the first
    returns that output again. *)
Theorem ensure_exact_length_idempotent {A : Type} (wav : list A) (target_samples : Z) :
  (Z.of_nat (length wav) = target_samples ->
     ensure_exact_length wav target_samples = Ok wav) /\
  ((1 <= length wav)%nat -> 0 < target_samples ->
     exists out,
       ensure_exact_length wav target_samples = Ok out /\
       ensure_exact_length out target_samples = Ok out /\
       (out <- ensure_exact_length wav target_samples ;;
        ensure_exact_length out target_samples)%py
       = ensure_exact_length wav target_samples).
Proof.
  split; [apply ensure_exact_length_same|].
  intros Hlen Ht.
  destruct (ensure_exact_length_returns wav target_samples) as (out & Hrun & Hout);
    [lia|intros _; destruct wav; simpl in Hlen; [lia|congruence]|].
  exists out. split; [exact Hrun|].
  assert (Hagain : ensure_exact_length out target_samples = Ok out)
    by now apply ensure_exact_length_same.
  split; [exact Hagain|].
  rewrite Hrun. exact Hagain.
Qed.

Lemma ensure_exact_length_idempotent_witness :
  ensure_exact_length [1; 2; 3; 1] 4 = Ok [1; 2; 3; 1] /\
  exists out,
    ensure_exact_length [1; 2; 3] 4 = Ok out /\
    ensure_exact_length out 4 = Ok out.
Proof.
  destruct (ensure_exact_length_idempotent [1; 2; 3] 4) as [_ Htwice].
  destruct (ensure_exact_length_idempotent [1; 2; 3; 1] 4) as [Hsame _].
  split; [apply Hsame; reflexivity|].
  destruct Htwice as (out & H1 & H2 & _); [simpl; lia|lia|].
  exists out. split; assumption.
Defined.

(** ** Beat confidence *)

Lemma np_diff_length (l : list R) : length (np_diff l) = (length l - 1)%nat.
Proof.
  induction l as [|a [|b tl] IH]; try reflexivity.
  change (np_diff (a :: b :: tl)) with ((b - a)%R :: np_diff (b :: tl)).
  simpl length in *. rewrite IH. lia.
Qed.

Lemma np_mean_nonempty (l : list R) :
  l <> [] -> np_mean l = Ok (np_sum l / INR (length l))%R.
Proof.
  intros Hne. unfold np_mean, float_div.
  destruct (Req_dec_T (INR (length l)) 0) as [E|_]; [|reflexivity].
  exfalso. revert E. apply not_0_INR. destruct l; [congruence|discriminate].
Qed.

Lemma np_std_nonempty (l : list R) :
  l <> [] -> exists s, np_std l = Ok s /\ (0 <= s)%R.
Proof.
  intros Hne. unfold np_std.
  rewrite (np_mean_nonempty l Hne). cbn [bind].
  rewrite np_mean_nonempty by (destruct l; [congruence|discriminate]).
  cbn [bind]. eexists. split; [reflexivity|apply sqrt_pos].
Qed.

Lemma clamp_range (x : R) : (0 <= Rmin 1 (Rmax 0 x) <= 1)%R.
Proof.
  unfold Rmin, Rmax.
  destruct (Rle_dec 0 x); destruct (Rle_dec 1 _); lra.
Qed.

(** With three beats or more the function reaches the clamped formula, or
    the guard on a zero mean. *)
Lemma calculate_beat_confidence_unfold (beat_times : list R) :
  (3 <= length beat_times)%nat ->
  exists mean std,
    np_mean (np_diff beat_times) = Ok mean /\
    np_std (np_diff beat_times) = Ok std /\
    calculate_beat_confidence beat_times =
      Ok (if Req_dec_T mean 0 then 0 else Rmin 1 (Rmax 0 (1 - std / mean * 2)))%R.
Proof.
  intros Hlen.
  assert (Hne : np_diff beat_times <> []).
  { intros E. pose proof (np_diff_length beat_times) as Hd.
    rewrite E in Hd. simpl in Hd. lia. }
  destruct (np_std_nonempty _ Hne) as (std & Hstd & _).
  exists (np_sum (np_diff beat_times) / INR (length (np_diff beat_times)))%R, std.
  split; [now apply np_mean_nonempty|]. split; [exact Hstd|].
  unfold calculate_beat_confidence.
  rewrite (proj2 (Nat.ltb_ge _ _)) by lia.
  rewrite (proj2 (Nat.eqb_neq _ _))
    by (rewrite np_diff_length; lia).
  rewrite (np_mean_nonempty _ Hne), Hstd. cbn [bind].
  destruct (Req_dec_T _ 0) as [E|NE]; [reflexivity|].
  unfold float_div. destruct (Req_dec_T _ 0); [contradiction|reflexivity].
Qed.

Lemma calculate_beat_confidence_few (beat_times : list R) :
  (length beat_times < 3)%nat -> calculate_beat_confidence beat_times = Ok 0%R.
Proof.
  intros H. unfold calculate_beat_confidence.
  now rewrite (proj2 (Nat.ltb_lt _ _)) by lia.
Qed.

(** C4. [calculate_beat_confidence] returns a value in [0,1]; the value is
    0 for fewer than 3 beats; for 3 beats or more whose mean inter-beat gap
    is not zero (in particular positive) it is [1 - 2 * std / mean] of the
    inter-beat gaps, clamped to [0,1]. *)
Theorem calculate_beat_confidence_spec (beat_times : list R) :
  exists c,
    calculate_beat_confidence beat_times = Ok c /\
    (0 <= c <= 1)%R /\
    ((length beat_times < 3)%nat -> c = 0%R) /\
    ((3 <= length beat_times)%nat ->
       exists mean std,
         np_mean (np_diff beat_times) = Ok mean /\
         np_std (np_diff beat_times) = Ok std /\
         (mean <> 0%R -> c = Rmin 1 (Rmax 0 (1 - 2 * (std / mean)))%R)).
Proof.
  destruct (Nat.lt_ge_cases (length beat_times) 3) as [Hfew|Hmany].
  - exists 0%R. split; [now apply calculate_beat_confidence_few|].
    split; [lra|]. split; [reflexivity|]. intros H. lia.
  - destruct (calculate_beat_confidence_unfold beat_times Hmany)
      as (mean & std & Hmean & Hstd & Hrun).
    eexists. split; [exact Hrun|].
    split.
    { destruct (Req_dec_T mean 0); [lra|apply clamp_range]. }
    split; [intros H; lia|].
    intros _. exists mean, std. split; [exact Hmean|]. split; [exact Hstd|].
    intros NE. destruct (Req_dec_T mean 0); [contradiction|].
    f_equal. f_equal. lra.
Qed.

Lemma regular_beats_mean : np_mean (np_diff [0; 1; 2]%R) = Ok 1%R.
Proof.
  change (np_diff [0; 1; 2]%R) with [1 - 0; 2 - 1]%R.
  rewrite np_mean_nonempty by discriminate. f_equal. simpl. lra.
Qed.

Lemma regular_beats_std : np_std (np_diff [0; 1; 2]%R) = Ok 0%R.
Proof.
  unfold np_std. rewrite regular_beats_mean. cbn [bind].
  change (np_diff [0; 1; 2]%R) with [1 - 0; 2 - 1]%R.
  rewrite np_mean_nonempty by discriminate. cbn [bind]. f_equal.
  replace (np_sum _ / INR _)%R with 0%R; [apply sqrt_0|].
  simpl. lra.
Qed.

(** Three evenly spaced beats: the gaps have no spread and the confidence is 1. *)
Lemma calculate_beat_confidence_spec_witness :
  calculate_beat_confidence [0; 1; 2]%R = Ok 1%R.
Proof.
  destruct (calculate_beat_confidence_spec [0; 1; 2]%R)
    as (c & Hrun & _ & _ & Hmany).
  rewrite Hrun. f_equal.
  destruct Hmany as (mean & std & Hmean & Hstd & Hc); [simpl; lia|].
  rewrite regular_beats_mean in Hmean. injection Hmean as Em.
  rewrite regular_beats_std in Hstd. injection Hstd as Es.
  rewrite Hc by lra. rewrite <- Em, <- Es.
  unfold Rmin, Rmax. destruct (Rle_dec 0 _); destruct (Rle_dec 1 _); lra.
Defined.

Lemma np_diff_repeat (t : R) (n : nat) :
  np_diff (repeat t (S n)) = repeat 0%R n.
Proof.
  induction n as [|n IH]; [reflexivity|].
  change (repeat t (S (S n))) with (t :: repeat t (S n)).
  change (np_diff (t :: repeat t (S n)))
    with ((t - t)%R :: np_diff (repeat t (S n))).
  rewrite IH. simpl. f_equal. lra.
Qed.

Lemma np_sum_zeros (n : nat) : np_sum (repeat 0%R n) = 0%R.
Proof.
  induction n as [|n IH]; simpl; [reflexivity|].
  fold (np_sum (repeat 0%R n)). rewrite IH. lra.
Qed.

(** C10. [calculate_beat_confidence] returns a value for every list of
    beat times: neither division is reached with a zero divisor.  On three
    or more identical timestamps the mean gap is 0 and the guard returns
    0.0. *)
Theorem calculate_beat_confidence_total :
  (forall beat_times : list R,
     exists c, calculate_beat_confidence beat_times = Ok c) /\
  (forall (t : R) (n : nat), (3 <= n)%nat ->
     np_mean (np_diff (repeat t n)) = Ok 0%R /\
     calculate_beat_confidence (repeat t n) = Ok 0%R).
Proof.
  split.
  - intros beat_times.
    destruct (Nat.lt_ge_cases (length beat_times) 3) as [Hfew|Hmany].
    + exists 0%R. now apply calculate_beat_confidence_few.
    + destruct (calculate_beat_confidence_unfold beat_times Hmany)
        as (mean & std & _ & _ & Hrun).
      eexists. exact Hrun.
  - intros t n Hn.
    destruct n as [|n]; [lia|].
    assert (Hmean : np_mean (np_diff (repeat t (S n))) = Ok 0%R).
    { rewrite np_diff_repeat, np_mean_nonempty
        by (destruct n; [lia|discriminate]).
      rewrite np_sum_zeros. f_equal. unfold Rdiv. apply Rmult_0_l. }
    split; [exact Hmean|].
    destruct (calculate_beat_confidence_unfold (repeat t (S n)))
      as (mean & std & Hm & _ & Hrun); [rewrite repeat_length; lia|].
    rewrite Hmean in Hm. injection Hm as <-.
    rewrite Hrun. destruct (Req_dec_T 0 0); [reflexivity|contradiction].
Qed.

Lemma calculate_beat_confidence_total_witness :
  calculate_beat_confidence [2; 2; 2; 2]%R = Ok 0%R.
Proof.
  exact (proj2 (proj2 calculate_beat_confidence_total 2%R 4%nat ltac:(lia))).
Defined.

(** ** The atempo filter chain *)

Local Open Scope Q_scope.

Lemma pow2_0 : pow2 0 == 1.
Proof. reflexivity. Qed.

Lemma pow2_succ (n : nat) : pow2 (S n) == 2 * pow2 n.
Proof.
  unfold pow2. rewrite Nat2Z.inj_succ, Z.pow_succ_r by lia.
  now rewrite inject_Z_mult.
Qed.

Lemma pow2_ge_1 (n : nat) : 1 <= pow2 n.
Proof.
  induction n as [|n IH]; [rewrite pow2_0; Lqa.lra|].
  rewrite pow2_succ. Lqa.lra.
Qed.

Lemma Qdiv_self (r : Q) : ~ r == 0 -> r / r == 1.
Proof. intros H. unfold Qdiv. now apply Qmult_inv_r. Qed.

Lemma Qdiv_2 (r : Q) : r / 2 == r * (1 # 2).
Proof. reflexivity. Qed.

Lemma Qdiv_half (r : Q) : r / (1 # 2) == r * 2.
Proof. reflexivity. Qed.

Lemma atempo_chain_up_spec (fuel : nat) :
  forall remaining, 1 <= remaining -> remaining <= pow2 fuel ->
  exists chain,
    atempo_chain_up fuel remaining = Ok chain /\
    Forall atempo_in_bounds chain /\
    chain_product chain == remaining.
Proof.
  induction fuel as [|fuel IH]; intros r Hlo Hhi.
  - rewrite pow2_0 in Hhi. simpl.
    destruct (Qlt_le_dec 1 r) as [Hgt|_]; [Lqa.lra|].
    exists []. repeat split; [constructor|simpl; Lqa.lra].
  - rewrite pow2_succ in Hhi. simpl.
    destruct (Qlt_le_dec 1 r) as [Hgt|Hle].
    + assert (Hfactor : 1 < Qmin 2 r /\ Qmin 2 r <= 2).
      { destruct (Q.min_spec 2 r) as [[? E]|[? E]]; rewrite E; split; Lqa.lra. }
      destruct (IH (r / Qmin 2 r)) as (chain & Hrun & Hbounds & Hprod).
      * destruct (Q.min_spec 2 r) as [[H E]|[H E]]; rewrite E.
        -- rewrite Qdiv_2. Lqa.lra.
        -- rewrite Qdiv_self by Lqa.lra. Lqa.lra.
      * destruct (Q.min_spec 2 r) as [[H E]|[H E]]; rewrite E.
        -- rewrite Qdiv_2. Lqa.lra.
        -- rewrite Qdiv_self by Lqa.lra. apply pow2_ge_1.
      * rewrite Hrun. cbn [bind].
        exists (Qmin 2 r :: chain). split; [reflexivity|]. split.
        -- constructor; [|exact Hbounds]. unfold atempo_in_bounds. Lqa.lra.
        -- simpl. fold (chain_product chain). rewrite Hprod.
           apply Qmult_div_r. Lqa.lra.
    + exists []. repeat split; [constructor|simpl; Lqa.lra].
Qed.

Lemma atempo_chain_down_spec (fuel : nat) :
  forall remaining, 0 < remaining -> remaining <= 1 -> 1 <= remaining * pow2 fuel ->
  exists chain,
    atempo_chain_down fuel remaining = Ok chain /\
    Forall atempo_in_bounds chain /\
    chain_product chain == remaining.
Proof.
  induction fuel as [|fuel IH]; intros r Hpos Hhi Hlo.
  - rewrite pow2_0 in Hlo. simpl.
    destruct (Qlt_le_dec r 1) as [Hlt|_]; [Lqa.lra|].
    exists []. repeat split; [constructor|simpl; Lqa.lra].
  - rewrite pow2_succ in Hlo. simpl.
    destruct (Qlt_le_dec r 1) as [Hlt|Hge].
    + assert (Hfactor : (1 # 2) <= Qmax (1 # 2) r /\ Qmax (1 # 2) r < 1).
      { destruct (Q.max_spec (1 # 2) r) as [[? E]|[? E]]; rewrite E; split; Lqa.lra. }
      destruct (IH (r / Qmax (1 # 2) r)) as (chain & Hrun & Hbounds & Hprod).
      * destruct (Q.max_spec (1 # 2) r) as [[H E]|[H E]]; rewrite E.
        -- rewrite Qdiv_self by Lqa.lra. Lqa.lra.
        -- rewrite Qdiv_half. Lqa.lra.
      * destruct (Q.max_spec (1 # 2) r) as [[H E]|[H E]]; rewrite E.
        -- rewrite Qdiv_self by Lqa.lra. Lqa.lra.
        -- rewrite Qdiv_half. Lqa.lra.
      * destruct (Q.max_spec (1 # 2) r) as [[H E]|[H E]]; rewrite E.
        -- rewrite Qdiv_self by Lqa.lra. pose proof (pow2_ge_1 fuel). Lqa.lra.
        -- rewrite Qdiv_half. Lqa.lra.
      * rewrite Hrun. cbn [bind].
        exists (Qmax (1 # 2) r :: chain). split; [reflexivity|]. split.
        -- constructor; [|exact Hbounds]. unfold atempo_in_bounds. Lqa.lra.
        -- simpl. fold (chain_product chain). rewrite Hprod.
           apply Qmult_div_r. Lqa.lra.
    + exists []. repeat split; [constructor|simpl; Lqa.lra].
Qed.

(** More fuel does not change a finished loop. *)
Lemma atempo_chain_up_fuel (fuel : nat) :
  forall remaining chain,
    atempo_chain_up fuel remaining = Ok chain ->
    atempo_chain_up (S fuel) remaining = Ok chain.
Proof.
  induction fuel as [|fuel IH]; intros r chain H.
  - simpl in *. destruct (Qlt_le_dec 1 r); [discriminate|exact H].
  - change (atempo_chain_up (S (S fuel)) r)
      with (if Qlt_le_dec 1 r
            then (rest <- atempo_chain_up (S fuel) (r / Qmin 2 r) ;;
                  Ok (Qmin 2 r :: rest))%py
            else Ok []).
    simpl in H. destruct (Qlt_le_dec 1 r); [|exact H].
    destruct (atempo_chain_up fuel (r / Qmin 2 r)) as [rest| |] eqn:E;
      try discriminate.
    rewrite (IH _ _ E). exact H.
Qed.

Lemma atempo_chain_down_fuel (fuel : nat) :
  forall remaining chain,
    atempo_chain_down fuel remaining = Ok chain ->
    atempo_chain_down (S fuel) remaining = Ok chain.
Proof.
  induction fuel as [|fuel IH]; intros r chain H.
  - simpl in *. destruct (Qlt_le_dec r 1); [discriminate|exact H].
  - change (atempo_chain_down (S (S fuel)) r)
      with (if Qlt_le_dec r 1
            then (rest <- atempo_chain_down (S fuel) (r / Qmax (1 # 2) r) ;;
                  Ok (Qmax (1 # 2) r :: rest))%py
            else Ok []).
    simpl in H. destruct (Qlt_le_dec r 1); [|exact H].
    destruct (atempo_chain_down fuel (r / Qmax (1 # 2) r)) as [rest| |] eqn:E;
      try discriminate.
    rewrite (IH _ _ E). exact H.
Qed.

Lemma build_atempo_chain_fuel (speed_ratio : Q) (chain : list Q) (n fuel : nat) :
  (n <= fuel)%nat ->
  build_atempo_chain n speed_ratio = Ok chain ->
  build_atempo_chain fuel speed_ratio = Ok chain.
Proof.
  intros Hle H. induction Hle as [|fuel Hle IH]; [exact H|].
  unfold build_atempo_chain in *.
  destruct (Qlt_le_dec 2 speed_ratio); [now apply atempo_chain_up_fuel|].
  destruct (Qlt_le_dec speed_ratio (1 # 2)); [now apply atempo_chain_down_fuel|].
  exact H.
Qed.

(** A positive rational lies between [2^-n] and [2^n] for some [n]. *)
Lemma pow2_bounds (r : Q) :
  0 < r -> exists n, r <= pow2 n /\ 1 <= r * pow2 n.
Proof.
  destruct r as [a b]. unfold Qlt. simpl. intros Ha.
  exists (Z.to_nat (a + Zpos b)). unfold pow2.
  rewrite Z2Nat.id by lia.
  pose proof (Z.pow_gt_lin_r 2 (a + Zpos b) ltac:(lia) ltac:(lia)) as Hpow.
  unfold Qle, Qmult, inject_Z. simpl. split; nia.
Qed.

(** C7. For every positive speed ratio the loops that build the atempo
    chain finish, every factor of the chain lies in [0.5, 2.0], and the
    product of the factors is the speed ratio (as rationals). *)
Theorem build_atempo_chain_spec (speed_ratio : Q) :
  0 < speed_ratio ->
  exists chain n,
    (forall fuel, (n <= fuel)%nat ->
       build_atempo_chain fuel speed_ratio = Ok chain) /\
    Forall atempo_in_bounds chain /\
    chain_product chain == speed_ratio.
Proof.
  intros Hpos.
  destruct (pow2_bounds speed_ratio Hpos) as (n & Hup & Hdown).
  assert (Hrun : exists chain,
             build_atempo_chain n speed_ratio = Ok chain /\
             Forall atempo_in_bounds chain /\
             chain_product chain == speed_ratio).
  { unfold build_atempo_chain.
    destruct (Qlt_le_dec 2 speed_ratio) as [Hbig|Hle2].
    - apply atempo_chain_up_spec; [Lqa.lra|exact Hup].
    - destruct (Qlt_le_dec speed_ratio (1 # 2)) as [Hsmall|Hge].
      + apply atempo_chain_down_spec; [exact Hpos|Lqa.lra|exact Hdown].
      + exists [speed_ratio]. split; [reflexivity|]. split.
        * constructor; [split; Lqa.lra|constructor].
        * simpl. Lqa.lra. }
  destruct Hrun as (chain & Hrun & Hbounds & Hprod).
  exists chain, n. split; [|split; assumption].
  intros fuel Hfuel. now apply (build_atempo_chain_fuel speed_ratio chain n fuel).
Qed.

Example build_atempo_chain_speed_up :
  build_atempo_chain 3 5 = Ok [2; 2; 5 # 4].
Proof. reflexivity. Qed.

Example build_atempo_chain_slow_down :
  build_atempo_chain 3 (1 # 5) = Ok [1 # 2; 1 # 2; 4 # 5].
Proof. reflexivity. Qed.

Example build_atempo_chain_negative_ratio_loops :
  build_atempo_chain 1000 (- (1)) = Diverge.
Proof. vm_compute. reflexivity. Qed.

Lemma build_atempo_chain_spec_witness :
  0 < 5 /\
  exists chain n,
    (forall fuel, (n <= fuel)%nat -> build_atempo_chain fuel 5 = Ok chain) /\
    Forall atempo_in_bounds chain /\
    chain_product chain == 5.
Proof.
  split; [reflexivity|].
  apply (build_atempo_chain_spec 5). reflexivity.
Defined.

Local Close Scope Q_scope.

(** ** Time-signature estimator *)

(** C5. When the audio loads, the onset envelope is computed and beat
    tracking succeeds with fewer than 8 beat frames, the estimator returns
    4, whatever the signal, the envelope and the peak finder are. *)
Theorem estimate_time_signature_few_beats {sample : Type} (w : World sample)
    (audio_path : string) (y : list R) (sr : Z) (onset_env : list R)
    (tempo : R) (beat_frames : list nat) :
  librosa_load w audio_path None = Ok (y, sr) ->
  onset_strength w y sr = Ok onset_env ->
  beat_track_onset w onset_env sr = Ok (tempo, beat_frames) ->
  (length beat_frames < 8)%nat ->
  estimate_time_signature w audio_path = Ok 4.
Proof.
  intros Hload Honset Hbeats Hfew.
  unfold estimate_time_signature.
  rewrite Hload. cbn [bind]. rewrite Honset. cbn [bind].
  rewrite Hbeats. cbn [bind].
  apply Nat.ltb_lt in Hfew. rewrite Hfew. reflexivity.
Qed.

Lemma estimate_time_signature_few_beats_witness :
  estimate_time_signature short_clip_world "loop.wav" = Ok 4.
Proof.
  apply (estimate_time_signature_few_beats short_clip_world "loop.wav"
           [0; 0; 0]%R 22050 [1; 2; 3; 4; 5]%R 120%R []);
    [reflexivity|reflexivity|reflexivity|simpl; lia].
Defined.

(** A [try] whose handler returns a value never raises. *)
Lemma try_except_no_raise {A : Type} (body : result A) (a : A) (e : exn) :
  try_except body (fun _ => Ok a) <> Raise e.
Proof. destruct body; discriminate. Qed.

Lemma estimate_time_signature_no_raise {sample : Type} (w : World sample)
    (audio_path : string) (e : exn) :
  estimate_time_signature w audio_path <> Raise e.
Proof. apply try_except_no_raise. Qed.

(** The estimator answers 3, 4 or 6 beats per bar, or the sentinel 0. *)
Lemma estimate_time_signature_values {sample : Type} (w : World sample)
    (audio_path : string) (v : Z) :
  estimate_time_signature w audio_path = Ok v -> In v [0; 3; 4; 6].
Proof.
  unfold estimate_time_signature.
  destruct (librosa_load w audio_path None) as [[y sr]| |]; cbn [bind try_except];
    [|intros H; injection H as <-; simpl; tauto|discriminate].
  destruct (onset_strength w y sr) as [onset_env| |]; cbn [bind try_except];
    [|intros H; injection H as <-; simpl; tauto|discriminate].
  destruct (beat_track_onset w onset_env sr) as [[tempo beat_frames]| |];
    cbn [bind try_except];
    [|intros H; injection H as <-; simpl; tauto|discriminate].
  destruct (length beat_frames <? 8)%nat;
    [cbn [try_except]; intros H; injection H as <-; simpl; tauto|].
  destruct (clip_index onset_env beat_frames) as [beat_strengths| |];
    cbn [bind try_except];
    [|intros H; injection H as <-; simpl; tauto|discriminate].
  destruct (np_mean beat_strengths) as [mean_strength| |]; cbn [bind try_except];
    [|intros H; injection H as <-; simpl; tauto|discriminate].
  destruct (find_peaks_height w beat_strengths mean_strength) as [peaks| |];
    cbn [bind try_except];
    [|intros H; injection H as <-; simpl; tauto|discriminate].
  destruct (2 <? length peaks)%nat;
    [|cbn [try_except]; intros H; injection H as <-; simpl; tauto].
  destruct (0 <? length (np_diff_int peaks))%nat;
    [|cbn [try_except]; intros H; injection H as <-; simpl; tauto].
  destruct (existsb _ _) eqn:E;
    [|cbn [try_except]; intros H; injection H as <-; simpl; tauto].
  cbn [try_except]. intros H. injection H as Hv.
  apply existsb_exists in E. destruct E as (x & Hx & Heq).
  apply Z.eqb_eq in Heq.
  assert (Hx' : v = x) by (rewrite <- Hv; exact Heq).
  rewrite Hx'. simpl in Hx. simpl. tauto.
Qed.

(** A failure of any library call makes the estimator return the sentinel 0. *)
Lemma estimate_time_signature_load_fails {sample : Type} (w : World sample)
    (audio_path : string) (e : exn) :
  librosa_load w audio_path None = Raise e ->
  estimate_time_signature w audio_path = Ok 0.
Proof.
  intros H. unfold estimate_time_signature. rewrite H. reflexivity.
Qed.

(** ** Downbeat estimator *)

(** Failures of the onset or chroma computation are caught: the result
    is the empty index array. *)
Lemma estimate_downbeats_librosa_onset_fails {sample : Type} (w : World sample)
    (y : list R) (sr : Z) (beat_frames : list nat) (time_signature : Z) (e : exn) :
  time_signature <= Z.of_nat (length beat_frames) ->
  onset_strength w y sr = Raise e ->
  estimate_downbeats_librosa w y sr beat_frames time_signature = Ok (Some []).
Proof.
  intros Hlen H. unfold estimate_downbeats_librosa.
  rewrite (proj2 (Z.ltb_ge _ _)) by lia. rewrite H. reflexivity.
Qed.

(** The stride loop finishes within the fuel it is given whenever the time
    signature is positive, and every index it returns lies in the array. *)
Lemma downbeat_loop_returns (time_signature n : Z) :
  1 <= time_signature ->
  forall (fuel : nat) (pos : Z),
    n - pos <= Z.of_nat fuel ->
    exists indices,
      downbeat_loop fuel pos time_signature n = Ok indices /\
      Forall (fun i => pos <= i < n) indices.
Proof.
  intros Hts. induction fuel as [|fuel IH]; intros pos Hfuel.
  - simpl. rewrite (proj2 (Z.ltb_ge _ _)) by lia. now exists [].
  - simpl. destruct (pos <? n) eqn:E; [|now exists []].
    apply Z.ltb_lt in E.
    destruct (IH (pos + time_signature)) as (rest & Hrest & Hbound); [lia|].
    rewrite Hrest. cbn [bind]. exists (pos :: rest). split; [reflexivity|].
    constructor; [lia|].
    eapply Forall_impl; [|exact Hbound]. simpl. intros i Hi. lia.
Qed.

(** Every index array the estimator returns points into [beat_frames]. *)
Lemma estimate_downbeats_librosa_in_range {sample : Type} (w : World sample)
    (y : list R) (sr : Z) (beat_frames : list nat) (time_signature : Z)
    (indices : list Z) :
  1 <= time_signature ->
  estimate_downbeats_librosa w y sr beat_frames time_signature = Ok (Some indices) ->
  Forall (fun i => 0 <= i < Z.of_nat (length beat_frames)) indices.
Proof.
  intros Hts. unfold estimate_downbeats_librosa.
  destruct (Z.of_nat (length beat_frames) <? time_signature) eqn:Efew.
  { cbn [try_except]. intros H. injection H as <-.
    destruct (0 <? length beat_frames)%nat eqn:E; [|constructor].
    apply Nat.ltb_lt in E. repeat constructor; lia. }
  destruct (onset_strength w y sr) as [onset_env| |]; cbn [bind try_except];
    [|intros H; injection H as <-; constructor|discriminate].
  set (valid := filter (fun f => (f <? length onset_env)%nat) beat_frames).
  assert (Hvalid : (length valid <= length beat_frames)%nat)
    by apply filter_length_le.
  destruct (length valid =? 0)%nat.
  { cbn [try_except]. intros H. injection H as <-. constructor. }
  destruct (chroma_stft w y sr) as [chroma| |]; cbn [bind try_except];
    [|intros H; injection H as <-; constructor|discriminate].
  destruct (util_sync w chroma valid) as [chroma_beats| |]; cbn [bind try_except];
    [|intros H; injection H as <-; constructor|discriminate].
  destruct (find_peaks_distance w _ time_signature) as [[|p0 peaks]| |];
    cbn [bind try_except];
    [discriminate| |intros H; injection H as <-; constructor|discriminate].
  set (first := if Z.of_nat p0 <? time_signature then Z.of_nat p0 else 0).
  assert (Hfirst : 0 <= first).
  { subst first. destruct (Z.of_nat p0 <? time_signature); lia. }
  destruct (downbeat_loop_returns time_signature (Z.of_nat (length valid)) Hts
              (Z.to_nat (Z.of_nat (length valid) - first)) first)
    as (loop & Hloop & Hbound); [lia|].
  rewrite Hloop. cbn [bind try_except]. intros H. injection H as <-.
  eapply Forall_impl; [|exact Hbound]. simpl. intros i Hi. lia.
Qed.

(** C9 (the code departs from the claim). When the onset and chroma
    computations succeed, some beat frame lies inside the onset envelope
    and peak-finding on the combined strength yields no peaks, the function
    falls out of the [if len(peaks) > 0] block, past the end of the [try]
    body, and returns Python's [None], not an empty index array.  Only a
    failure of the onset or chroma computation returns the empty array. *)
Theorem estimate_downbeats_librosa_no_peaks {sample : Type} (w : World sample)
    (y : list R) (sr : Z) (beat_frames : list nat) (time_signature : Z)
    (onset_env : list R) (chroma chroma_beats : list (list R)) :
  time_signature <= Z.of_nat (length beat_frames) ->
  onset_strength w y sr = Ok onset_env ->
  filter (fun f => (f <? length onset_env)%nat) beat_frames <> [] ->
  chroma_stft w y sr = Ok chroma ->
  util_sync w chroma (filter (fun f => (f <? length onset_env)%nat) beat_frames)
    = Ok chroma_beats ->
  find_peaks_distance w
    (combine_strengths
       (map (fun f => nth f onset_env 0%R)
            (filter (fun f => (f <? length onset_env)%nat) beat_frames))
       (np_sum_axis0 chroma_beats))
    time_signature = Ok [] ->
  estimate_downbeats_librosa w y sr beat_frames time_signature = Ok None.
Proof.
  intros Hlen Honset Hvalid Hchroma Hsync Hpeaks.
  unfold estimate_downbeats_librosa.
  rewrite (proj2 (Z.ltb_ge _ _)) by lia. rewrite Honset. cbn [bind].
  destruct (filter _ beat_frames) as [|f valid] eqn:E; [congruence|].
  cbn [length Nat.eqb]. rewrite Hchroma. cbn [bind].
  rewrite Hsync. cbn [bind]. rewrite Hpeaks. reflexivity.
Qed.

(** Four beat frames in 4/4, all inside the onset envelope, and a combined
    strength without a peak. *)
Lemma estimate_downbeats_librosa_no_peaks_witness :
  estimate_downbeats_librosa short_clip_world [0; 0; 0]%R 22050 [0; 1; 2; 3]%nat 4
  = Ok None.
Proof.
  apply (estimate_downbeats_librosa_no_peaks short_clip_world [0; 0; 0]%R 22050
           [0; 1; 2; 3]%nat 4 [1; 2; 3; 4; 5]%R
           [[1; 1; 1; 1]; [0; 0; 0; 0]]%R [[1; 1; 1; 1]; [0; 0; 0; 0]]%R);
    [simpl; lia|reflexivity|discriminate|reflexivity|reflexivity|reflexivity].
Defined.

(** ** Tempo converter *)

Lemma Qeq_bool_false (x y : Q) : ~ (x == y)%Q -> Qeq_bool x y = false.
Proof.
  intros H. destruct (Qeq_bool x y) eqn:E; [|reflexivity].
  apply Qeq_bool_iff in E. contradiction.
Qed.

Lemma Qdiv_pos_divisor (x y : Q) : (0 < x / y)%Q -> ~ (y == 0)%Q.
Proof.
  intros H E. rewrite E in H. unfold Qdiv in H.
  change (/ 0)%Q with 0%Q in H. rewrite Qmult_0_r in H.
  revert H. apply Qlt_irrefl.
Qed.

(** The loops of the chain finish once the fuel covers the ratio. *)
Lemma build_atempo_chain_finishes (speed_ratio : Q) :
  (0 < speed_ratio)%Q ->
  exists chain n,
    forall fuel, (n <= fuel)%nat -> build_atempo_chain fuel speed_ratio = Ok chain.
Proof.
  intros Hpos.
  destruct (pow2_bounds speed_ratio Hpos) as (n & Hup & Hdown).
  assert (Hrun : exists chain, build_atempo_chain n speed_ratio = Ok chain).
  { unfold build_atempo_chain.
    destruct (Qlt_le_dec 2 speed_ratio) as [Hbig|Hle2].
    - destruct (atempo_chain_up_spec n speed_ratio) as (c & Hc & _);
        [Lqa.lra|exact Hup|now exists c].
    - destruct (Qlt_le_dec speed_ratio (1 # 2)) as [Hsmall|Hge].
      + destruct (atempo_chain_down_spec n speed_ratio) as (c & Hc & _);
          [exact Hpos|Lqa.lra|exact Hdown|now exists c].
      + now exists [speed_ratio]. }
  destruct Hrun as (chain & Hrun). exists chain, n.
  intros fuel Hfuel. now apply (build_atempo_chain_fuel speed_ratio chain n fuel).
Qed.

(** After both commands have run, two failed strategies leave
    [best_method] unset and the input file is returned. *)
Lemma tempo_convert_ffmpeg_selection {sample : Type} (w : World sample)
    (fuel : nat) (input_file : string) (target_bpm original_bpm : Q)
    (target_sample_rate original_sr : Z) (chain : list Q) :
  ~ (original_bpm == 0)%Q ->
  build_atempo_chain fuel (target_bpm / original_bpm) = Ok chain ->
  torchaudio_info_sample_rate w input_file = Ok original_sr ->
  strategy_failed w (atempo_command input_file chain target_sample_rate) ->
  strategy_failed w (asetrate_command input_file original_sr
                       (target_bpm / original_bpm) target_sample_rate) ->
  tempo_convert_ffmpeg w fuel input_file target_bpm original_bpm target_sample_rate
  = Ok input_file.
Proof.
  intros Hbpm Hchain Hinfo (fa & Hra & Hfa) (fb & Hrb & Hfb).
  unfold tempo_convert_ffmpeg.
  rewrite (Qeq_bool_false _ _ Hbpm). cbn [bind].
  rewrite Hchain. cbn [bind]. rewrite Hra. cbn [bind].
  rewrite Hinfo. cbn [bind]. rewrite Hrb. cbn [bind].
  cbn [cmd_output atempo_command asetrate_command] in Hfa, Hfb.
  rewrite Hfa. cbn [bind]. rewrite Hfb. reflexivity.
Qed.

(** C6, as amended. When the speed ratio is positive, the sample rate of
    the input can be read, and both the atempo and the asetrate strategy
    fail to produce an output file (ffmpeg exits with a non-zero status,
    or its output file is missing), [tempo_convert_ffmpeg] returns the
    original input file. *)
Theorem tempo_convert_ffmpeg_both_fail {sample : Type} (w : World sample)
    (input_file : string) (target_bpm original_bpm : Q)
    (target_sample_rate original_sr : Z) :
  (0 < target_bpm / original_bpm)%Q ->
  torchaudio_info_sample_rate w input_file = Ok original_sr ->
  strategy_failed w (asetrate_command input_file original_sr
                       (target_bpm / original_bpm) target_sample_rate) ->
  exists chain n,
    (forall fuel, (n <= fuel)%nat ->
       build_atempo_chain fuel (target_bpm / original_bpm) = Ok chain) /\
    (strategy_failed w (atempo_command input_file chain target_sample_rate) ->
     forall fuel, (n <= fuel)%nat ->
       tempo_convert_ffmpeg w fuel input_file target_bpm original_bpm
                            target_sample_rate
       = Ok input_file).
Proof.
  intros Hratio Hinfo Hb.
  destruct (build_atempo_chain_finishes _ Hratio) as (chain & n & Hchain).
  exists chain, n. split; [exact Hchain|].
  intros Ha fuel Hfuel.
  apply (tempo_convert_ffmpeg_selection w fuel input_file target_bpm original_bpm
           target_sample_rate original_sr chain);
    [now apply (Qdiv_pos_divisor target_bpm)|now apply Hchain|assumption..].
Qed.

Lemma short_clip_ffmpeg_fails (cmd : ffmpeg_cmd) :
  strategy_failed short_clip_world cmd.
Proof. exists false. split; reflexivity. Qed.

Lemma tempo_convert_ffmpeg_both_fail_witness :
  exists n, forall fuel, (n <= fuel)%nat ->
    tempo_convert_ffmpeg short_clip_world fuel "loop.wav" 120 100 TARGET_SAMPLE_RATE
    = Ok "loop.wav"%string.
Proof.
  destruct (tempo_convert_ffmpeg_both_fail short_clip_world "loop.wav" 120 100
              TARGET_SAMPLE_RATE TARGET_SAMPLE_RATE)
    as (chain & n & _ & Hrun);
    [reflexivity|reflexivity|apply short_clip_ffmpeg_fails|].
  exists n. apply Hrun. apply short_clip_ffmpeg_fails.
Defined.

Example tempo_convert_ffmpeg_unreadable_input :
  tempo_convert_ffmpeg unreadable_world 1 "loop.wav" 120 100 TARGET_SAMPLE_RATE
  = Raise RuntimeError.
Proof. reflexivity. Qed.

Example tempo_convert_ffmpeg_zero_bpm :
  tempo_convert_ffmpeg short_clip_world 1 "loop.wav" 120 0 TARGET_SAMPLE_RATE
  = Raise ZeroDivisionError.
Proof. reflexivity. Qed.

(** C6, as stated, fails. On an input that torchaudio cannot read, ffmpeg
    exits with a non-zero status, neither output file exists, and the
    function raises the error of [torchaudio.info] instead of returning
    the input file. *)
Lemma tempo_convert_ffmpeg_can_raise :
  ~ (forall (w : World Z) (fuel : nat) (input_file : string)
            (target_bpm original_bpm : Q) (target_sample_rate : Z),
       os_path_exists w (output_atempo_of input_file) = false ->
       os_path_exists w (output_asetrate_of input_file) = false ->
       tempo_convert_ffmpeg w fuel input_file target_bpm original_bpm
                            target_sample_rate
       = Ok input_file).
Proof.
  intros Hclaim.
  specialize (Hclaim unreadable_world 1%nat "loop.wav"%string 120%Q 100%Q
                     TARGET_SAMPLE_RATE eq_refl eq_refl).
  discriminate Hclaim.
Qed.

(** ** Beat-aligned windower *)

Lemma ensure_exact_length_ok_length {A : Type} (wav out : list A) (t : Z) :
  0 <= t -> ensure_exact_length wav t = Ok out -> Z.of_nat (length out) = t.
Proof.
  intros Ht Hrun.
  destruct (Z.lt_trichotomy (Z.of_nat (length wav)) t) as [Hlt|[Heq|Hgt]].
  - destruct wav as [|a wav].
    + unfold ensure_exact_length in Hrun. simpl length in *.
      rewrite (proj2 (Z.eqb_neq _ _)) in Hrun by lia.
      rewrite (proj2 (Z.ltb_lt _ _)) in Hrun by lia.
      discriminate Hrun.
    + destruct (ensure_exact_length_returns (a :: wav) t Ht ltac:(discriminate))
        as (out' & Hrun' & Hlen).
      congruence.
  - rewrite ensure_exact_length_same in Hrun by exact Heq. congruence.
  - rewrite ensure_exact_length_longer in Hrun by lia.
    injection Hrun as <-. rewrite length_firstn. lia.
Qed.

Lemma ensure_exact_length_no_diverge {A : Type} (wav : list A) (t : Z) :
  ensure_exact_length wav t <> Diverge.
Proof.
  unfold ensure_exact_length, ceil_div, tensor_repeat.
  destruct (_ =? t); [discriminate|].
  destruct (_ <? t); [|discriminate].
  destruct (_ =? 0); [discriminate|]. cbn [bind].
  destruct (_ <? 0); discriminate.
Qed.

Lemma target_samples_of_nonneg (target_beats target_sample_rate : Z) :
  0 <= target_beats -> 0 <= target_sample_rate ->
  0 <= target_samples_of target_beats target_sample_rate.
Proof.
  intros Hb Hr. unfold target_samples_of, TARGET_BPM.
  apply Z.quot_pos; nia.
Qed.

Lemma target_samples_of_default (target_sample_rate : Z) :
  target_samples_of 32 target_sample_rate = TARGET_DURATION * target_sample_rate.
Proof.
  unfold target_samples_of, TARGET_BPM, TARGET_DURATION.
  replace (32 * 60 * target_sample_rate) with (16 * target_sample_rate * 120) by lia.
  apply Z.quot_mul. lia.
Qed.

Lemma detect_beats_and_downbeats_no_raise {sample : Type} (w : World sample)
    (audio_path : string) (target_sample_rate required_time_sig : Z) (e : exn) :
  detect_beats_and_downbeats w audio_path target_sample_rate required_time_sig
  <> Raise e.
Proof. apply try_except_no_raise. Qed.

(** A file whose time signature is not the required one yields no beat
    data, which is the first way into the fallback branch. *)
Lemma detect_beats_and_downbeats_mismatch {sample : Type} (w : World sample)
    (audio_path : string) (target_sample_rate required_time_sig detected : Z) :
  estimate_time_signature w audio_path = Ok detected ->
  detected <> required_time_sig ->
  detect_beats_and_downbeats w audio_path target_sample_rate required_time_sig
  = Ok no_detection.
Proof.
  intros Hts Hne. unfold detect_beats_and_downbeats.
  rewrite Hts. cbn [bind]. now rewrite (proj2 (Z.eqb_neq _ _) Hne).
Qed.

Lemma fallback_condition_true (det : Detection) (confidence_threshold : R) :
  fallback_case det confidence_threshold ->
  fallback_condition det confidence_threshold = Ok true.
Proof.
  unfold fallback_case, fallback_condition.
  intros [Hnone|[Hconf|[(bt & Hbt & Hlen)|Hdown]]].
  - now rewrite Hnone.
  - destruct (det_beat_times det); [|reflexivity].
    destruct (Rlt_dec _ _); [reflexivity|contradiction].
  - rewrite Hbt. destruct (Rlt_dec _ _); [reflexivity|].
    now rewrite (proj2 (Nat.ltb_lt _ _) Hlen).
  - destruct (det_beat_times det); [|reflexivity].
    destruct (Rlt_dec _ _); [reflexivity|].
    destruct (_ <? 4)%nat; [reflexivity|]. now rewrite Hdown.
Qed.

Lemma align_try_fallback {sample : Type} (w : World sample) (audio_path : string)
    (target_beats target_sample_rate : Z) (confidence_threshold : R)
    (wav : list sample) (det : Detection) :
  load_mono w audio_path target_sample_rate = Ok wav ->
  detect_beats_and_downbeats w audio_path target_sample_rate 4 = Ok det ->
  fallback_case det confidence_threshold ->
  align_try w audio_path target_beats target_sample_rate confidence_threshold =
  (processed_wav <-
     ensure_exact_length wav (target_samples_of target_beats target_sample_rate) ;;
   Ok (processed_wav,
       fallback_info det (target_samples_of target_beats target_sample_rate)
                     (Z.of_nat (length processed_wav))))%py.
Proof.
  intros Hload Hdet Hcase. unfold align_try.
  rewrite Hload. cbn [bind]. rewrite Hdet. cbn [bind].
  rewrite (fallback_condition_true _ _ Hcase). reflexivity.
Qed.

(** Rewriting with a stated outcome of [torchaudio.save]. *)
Ltac use_save H :=
  match type of H with
  | torchaudio_save_outcome _ _ _ = ?r =>
      match goal with
      | |- context [torchaudio_save_outcome ?w ?p ?t] =>
          replace (torchaudio_save_outcome w p t) with r by (symmetry; exact H)
      end
  end.

(** C8. When the clip loads and beat data is missing, or the confidence is
    below the threshold, or fewer than 4 beats were found, or the downbeat
    set is empty, the windower takes the fallback path: the buffer as
    loaded is forced to the target length with [ensure_exact_length], and,
    when [torchaudio.save] accepts the clip, it is saved and returned with
    [aligned = False] and no start sample.  The forcing succeeds for every
    non-empty buffer; where it raises (an empty buffer and a positive
    target) the windower reports failure and writes nothing.  Where the
    save raises, the [except] block takes over: the answer is the one of
    the block, and a [beat_info] it gives is marked unaligned too. *)
Theorem align_fallback_path {sample : Type} (w : World sample)
    (audio_path output_path : string) (target_beats target_sample_rate : Z)
    (confidence_threshold : R) (wav : list sample) (det : Detection) (d : disk) :
  load_mono w audio_path target_sample_rate = Ok wav ->
  detect_beats_and_downbeats w audio_path target_sample_rate 4 = Ok det ->
  (det_beat_times det = None \/
   (det_confidence det < confidence_threshold)%R \/
   (exists beat_times,
       det_beat_times det = Some beat_times /\ (length beat_times < 4)%nat) \/
   det_downbeat_indices det = Some []) ->
  (forall out,
     ensure_exact_length wav (target_samples_of target_beats target_sample_rate)
       = Ok out ->
     torchaudio_save_outcome w output_path [out] = Ok tt ->
     exists info,
       align_to_downbeat_and_normalize_beats w audio_path output_path target_beats
         target_sample_rate confidence_threshold d
       = (Ok {| ar_success := true; ar_processed_wav := Some out;
                ar_beat_info := Some info |},
          disk_write d output_path [out]) /\
       bi_aligned info = false /\
       bi_start_sample info = None /\
       bi_confidence info = det_confidence det /\
       bi_actual_samples info = Some (Z.of_nat (length out))) /\
  (forall out e,
     ensure_exact_length wav (target_samples_of target_beats target_sample_rate)
       = Ok out ->
     torchaudio_save_outcome w output_path [out] = Raise e ->
     align_to_downbeat_and_normalize_beats w audio_path output_path target_beats
       target_sample_rate confidence_threshold d
     = align_handler w audio_path output_path target_beats target_sample_rate d /\
     (forall r d' info,
        align_handler w audio_path output_path target_beats target_sample_rate d
        = (Ok r, d') ->
        ar_beat_info r = Some info ->
        bi_aligned info = false /\ bi_start_sample info = None)) /\
  (forall e,
     ensure_exact_length wav (target_samples_of target_beats target_sample_rate)
       = Raise e ->
     align_to_downbeat_and_normalize_beats w audio_path output_path target_beats
       target_sample_rate confidence_threshold d
     = (Ok align_failed, d)) /\
  (wav <> [] -> 0 <= target_beats -> 0 <= target_sample_rate ->
   exists out,
     ensure_exact_length wav (target_samples_of target_beats target_sample_rate)
       = Ok out /\
     Z.of_nat (length out) = target_samples_of target_beats target_sample_rate).
Proof.
  intros Hload Hdet Hcase.
  pose proof (align_try_fallback w audio_path target_beats target_sample_rate
                confidence_threshold wav det Hload Hdet Hcase) as Htry.
  split; [|split; [|split]].
  - intros out Hout Hsave.
    exists (fallback_info det (target_samples_of target_beats target_sample_rate)
                          (Z.of_nat (length out))).
    split; [|repeat split].
    unfold align_to_downbeat_and_normalize_beats.
    rewrite Htry, Hout. cbn [bind]. unfold save_clip, torchaudio_save.
    cbv beta. cbn [fst]. use_save Hsave. reflexivity.
  - intros out e Hout Hsave. split.
    + unfold align_to_downbeat_and_normalize_beats.
      rewrite Htry, Hout. cbn [bind]. unfold save_clip at 1, torchaudio_save.
      cbv beta. cbn [fst]. use_save Hsave. reflexivity.
    + intros r d' info Hrun Hinfo. unfold align_handler in Hrun.
      destruct (align_except _ _ _ _) as [saved| |] eqn:Eexc.
      * unfold save_clip, torchaudio_save, io_ret in Hrun.
        destruct (torchaudio_save_outcome w output_path [fst saved]);
          [|injection Hrun as <- _; discriminate Hinfo|discriminate Hrun].
        injection Hrun as <- _. cbn in Hinfo. injection Hinfo as <-.
        unfold align_except in Eexc.
        destruct (load_mono w audio_path target_sample_rate) as [buffer| |];
          cbn [bind] in Eexc; [|discriminate..].
        destruct (ensure_exact_length buffer _) as [clip| |];
          cbn [bind] in Eexc; [|discriminate..].
        injection Eexc as <-. split; reflexivity.
      * injection Hrun as <- _. discriminate Hinfo.
      * discriminate Hrun.
  - intros e He.
    unfold align_to_downbeat_and_normalize_beats.
    rewrite Htry, He. cbn [bind].
    unfold align_handler, align_except. rewrite Hload. cbn [bind].
    rewrite He. reflexivity.
  - intros Hne Hb Hr.
    apply ensure_exact_length_returns; [|intros _; exact Hne].
    now apply target_samples_of_nonneg.
Qed.

Lemma short_clip_load :
  load_mono short_clip_world "loop.wav" TARGET_SAMPLE_RATE = Ok [1; 2; 3].
Proof. reflexivity. Qed.

Lemma short_clip_detection :
  detect_beats_and_downbeats short_clip_world "loop.wav" TARGET_SAMPLE_RATE 4
  = Ok {| det_beat_times := Some []; det_downbeat_indices := Some [];
          det_tempo := Some 120%R; det_confidence := 0%R |}.
Proof. reflexivity. Qed.

(** The gaps 1, 1, 8 have mean 10/3 and standard deviation above 5/3:
    twice the coefficient of variation exceeds 1 and the clamp gives 0. *)
Lemma irregular_beats_confidence :
  calculate_beat_confidence [0; 1; 2; 10]%R = Ok 0%R.
Proof.
  destruct (calculate_beat_confidence_unfold [0; 1; 2; 10]%R)
    as (mean & std & Hmean & Hstd & Hrun); [simpl; lia|].
  rewrite Hrun. f_equal.
  change (np_diff [0; 1; 2; 10]%R) with [1 - 0; 2 - 1; 10 - 2]%R in Hmean, Hstd.
  rewrite np_mean_nonempty in Hmean by discriminate. injection Hmean as Em.
  assert (Hm : mean = (10 / 3)%R) by (rewrite <- Em; simpl; field).
  unfold np_std in Hstd. rewrite np_mean_nonempty in Hstd by discriminate.
  cbn [bind] in Hstd. rewrite np_mean_nonempty in Hstd by discriminate.
  cbn [bind] in Hstd. injection Hstd as Es.
  rewrite Em in Es. rewrite Hm in Es.
  assert (Hs : (5 / 3 <= std)%R).
  { rewrite <- Es.
    replace (5 / 3)%R with (sqrt ((5 / 3) * (5 / 3)))%R
      by (apply sqrt_square; lra).
    apply sqrt_le_1_alt. simpl. lra. }
  destruct (Req_dec_T mean 0); [reflexivity|].
  rewrite Hm. unfold Rmin, Rmax.
  destruct (Rle_dec 0 (1 - std / (10 / 3) * 2)) as [H|H];
    destruct (Rle_dec 1 _); lra.
Qed.

Lemma irregular_beats_load :
  load_mono irregular_beats_world "loop.wav" TARGET_SAMPLE_RATE = Ok [1; 2; 3].
Proof. reflexivity. Qed.

Lemma irregular_beats_detection :
  detect_beats_and_downbeats irregular_beats_world "loop.wav" TARGET_SAMPLE_RATE 4
  = Ok {| det_beat_times := Some [0; 1; 2; 10]%R;
          det_downbeat_indices := Some [0];
          det_tempo := Some 120%R; det_confidence := 0%R |}.
Proof.
  unfold detect_beats_and_downbeats.
  change (estimate_time_signature irregular_beats_world "loop.wav") with (@Ok Z 4).
  cbn [bind Z.eqb Pos.eqb negb].
  cbn [librosa_load irregular_beats_world bind beat_track frames_to_time].
  change (estimate_downbeats_librosa irregular_beats_world [0; 0; 0]%R 22050
            [0; 1; 2; 3]%nat 4) with (@Ok (option (list Z)) (Some [0])).
  cbn [bind]. rewrite irregular_beats_confidence. reflexivity.
Qed.

(** Four valid beats and a downbeat, but a confidence of 0, below the
    default threshold 0.3: the clip is not cut at the downbeat, it is
    looped to 32 beats at 120 BPM and marked unaligned.  And where the clip
    cannot be written, the [except] block fails on the same save: the
    windower reports failure and leaves nothing behind. *)
Lemma align_fallback_path_witness :
  (exists out info,
      align_to_downbeat_and_normalize_beats irregular_beats_world "loop.wav"
        "out.wav" 32 TARGET_SAMPLE_RATE 0.3%R empty_disk
      = (Ok {| ar_success := true; ar_processed_wav := Some out;
               ar_beat_info := Some info |},
         disk_write empty_disk "out.wav" [out]) /\
      bi_aligned info = false /\
      bi_start_sample info = None /\
      Z.of_nat (length out) = 705600) /\
  align_to_downbeat_and_normalize_beats read_only_world "loop.wav" "out.wav" 2 4
    0.3%R empty_disk
  = (Ok align_failed, empty_disk).
Proof.
  split.
  - destruct (align_fallback_path irregular_beats_world "loop.wav" "out.wav" 32
                TARGET_SAMPLE_RATE 0.3%R [1; 2; 3] _ empty_disk
                irregular_beats_load irregular_beats_detection)
      as (Hok & _ & _ & Hreturns).
    { right. left. cbn [det_confidence]. lra. }
    destruct Hreturns as (out & Hout & Hlen);
      [discriminate|lia|unfold TARGET_SAMPLE_RATE; lia|].
    destruct (Hok out Hout eq_refl) as (info & Hrun & Haligned & Hstart & _).
    exists out, info. split; [exact Hrun|]. split; [exact Haligned|].
    split; [exact Hstart|]. rewrite Hlen. reflexivity.
  - destruct (align_fallback_path read_only_world "loop.wav" "out.wav" 2 4
                0.3%R [1; 2; 3]
                {| det_beat_times := Some []; det_downbeat_indices := Some [];
                   det_tempo := Some 120%R; det_confidence := 0%R |}
                empty_disk eq_refl eq_refl)
      as (_ & Hfails & _).
    { right. right. left. exists []. split; [reflexivity|simpl; lia]. }
    destruct (Hfails [1; 2; 3; 1] OSError eq_refl eq_refl) as [Hrun _].
    rewrite Hrun. reflexivity.
Defined.

(** When [downbeat_indices] is Python's [None] and the other three tests
    pass, [len(None)] raises inside the [try] block. *)
Lemma fallback_condition_none_downbeats (det : Detection) (threshold : R)
    (beat_times : list R) :
  det_beat_times det = Some beat_times ->
  ~ (det_confidence det < threshold)%R ->
  (4 <= length beat_times)%nat ->
  det_downbeat_indices det = None ->
  fallback_condition det threshold = Raise TypeError.
Proof.
  intros Hbt Hconf Hlen Hdown. unfold fallback_condition.
  rewrite Hbt. destruct (Rlt_dec _ _); [contradiction|].
  rewrite (proj2 (Nat.ltb_ge _ _) Hlen). now rewrite Hdown.
Qed.

(** ** Length of the clips that are written *)

(** Inversion of a successful [bind]. *)
Lemma bind_ok {A B : Type} (m : result A) (k : A -> result B) (b : B) :
  bind m k = Ok b -> exists a, m = Ok a /\ k a = Ok b.
Proof. destruct m as [a| |]; cbn [bind]; intros H; [now exists a|discriminate..]. Qed.

(** Every clip the [try] block returns went through [ensure_exact_length]. *)
Lemma align_try_normalized {sample : Type} (w : World sample) (audio_path : string)
    (target_beats target_sample_rate : Z) (confidence_threshold : R)
    (clip : list sample) (info : BeatInfo) :
  align_try w audio_path target_beats target_sample_rate confidence_threshold
    = Ok (clip, info) ->
  exists buffer,
    ensure_exact_length buffer (target_samples_of target_beats target_sample_rate)
    = Ok clip.
Proof.
  unfold align_try. intros H.
  apply bind_ok in H. destruct H as (wav & _ & H).
  apply bind_ok in H. destruct H as (det & _ & H).
  apply bind_ok in H. destruct H as ([|] & _ & H).
  - apply bind_ok in H. destruct H as (p & Hp & H).
    injection H as <- _. now exists wav.
  - destruct (det_beat_times det) as [beat_times|]; [|discriminate].
    destruct (det_downbeat_indices det) as [downbeat_indices|]; [|discriminate].
    apply bind_ok in H. destruct H as (downbeat_samples & _ & H).
    apply bind_ok in H. destruct H as (found & _ & H).
    apply bind_ok in H. destruct H as ([segment aligned] & _ & H).
    apply bind_ok in H. destruct H as (p & Hp & H).
    injection H as <- _. now exists segment.
Qed.

Lemma align_except_normalized {sample : Type} (w : World sample) (audio_path : string)
    (target_beats target_sample_rate : Z) (clip : list sample) (info : BeatInfo) :
  align_except w audio_path target_beats target_sample_rate = Ok (clip, info) ->
  exists buffer,
    ensure_exact_length buffer (target_samples_of target_beats target_sample_rate)
    = Ok clip.
Proof.
  unfold align_except. intros H.
  apply bind_ok in H. destruct H as (wav & _ & H).
  apply bind_ok in H. destruct H as (p & Hp & H).
  injection H as <- _. now exists wav.
Qed.

Lemma disk_write_same {sample : Type} (d : @disk sample) (path : string)
    (t : tensor) :
  disk_write d path t path = Some t.
Proof. unfold disk_write. now rewrite String.eqb_refl. Qed.

(** A save that returns has written the file. *)
Lemma torchaudio_save_ok {sample : Type} (w : World sample) (path : string)
    (t : tensor) (d d' : disk) (u : unit) :
  torchaudio_save w path t d = (Ok u, d') -> d' = disk_write d path t.
Proof.
  unfold torchaudio_save. destruct (torchaudio_save_outcome w path t);
    intros H; [now injection H as _ <-|discriminate..].
Qed.

(** A run of the windower that returns has either failed, writing
    nothing, or saved the clip of one of its two blocks. *)
Lemma align_run_inversion {sample : Type} (w : World sample)
    (audio_path output_path : string) (target_beats target_sample_rate : Z)
    (confidence_threshold : R) (d d1 : disk) (r : AlignResult) :
  align_to_downbeat_and_normalize_beats w audio_path output_path target_beats
    target_sample_rate confidence_threshold d = (Ok r, d1) ->
  (r = align_failed /\ d1 = d) \/
  (exists clip info,
      r = align_ok (clip, info) /\
      d1 = disk_write d output_path [clip] /\
      torchaudio_save_outcome w output_path [clip] = Ok tt /\
      (align_try w audio_path target_beats target_sample_rate confidence_threshold
       = Ok (clip, info) \/
       align_except w audio_path target_beats target_sample_rate
       = Ok (clip, info))).
Proof.
  assert (Hhandler : forall d0 r0 d2,
    align_handler w audio_path output_path target_beats target_sample_rate d0
    = (Ok r0, d2) ->
    (r0 = align_failed /\ d2 = d0) \/
    (exists clip info,
        r0 = align_ok (clip, info) /\
        d2 = disk_write d0 output_path [clip] /\
        torchaudio_save_outcome w output_path [clip] = Ok tt /\
        align_except w audio_path target_beats target_sample_rate
        = Ok (clip, info))).
  { intros d0 r0 d2 H. unfold align_handler in H.
    destruct (align_except _ _ _ _) as [[clip info]| |].
    - unfold save_clip, torchaudio_save, io_ret in H. cbn [fst] in H.
      destruct (torchaudio_save_outcome w output_path [clip]) as [[]| |] eqn:Es.
      + injection H as <- <-. right. exists clip, info. auto.
      + injection H as <- <-. now left.
      + discriminate H.
    - injection H as <- <-. now left.
    - discriminate H. }
  intros Hrun. unfold align_to_downbeat_and_normalize_beats in Hrun.
  destruct (align_try _ _ _ _ _) as [[clip info]| |] eqn:Etry.
  - unfold save_clip at 1, torchaudio_save in Hrun. cbn [fst] in Hrun.
    destruct (torchaudio_save_outcome w output_path [clip]) as [[]| |] eqn:Es.
    + injection Hrun as <- <-. right. exists clip, info. auto.
    + destruct (Hhandler _ _ _ Hrun) as [H|(c & i & H1 & H2 & H3 & H4)];
        [now left|right].
      exists c, i. auto.
    + discriminate Hrun.
  - destruct (Hhandler _ _ _ Hrun) as [H|(c & i & H1 & H2 & H3 & H4)];
      [now left|right].
    exists c, i. auto.
  - discriminate Hrun.
Qed.

(** The windower alone: a successful run saves a clip of exactly
    [target_beats * 60 / TARGET_BPM * target_sample_rate] samples, on the
    aligned path, on the fallback path and in the exception handler. *)
Lemma align_success_length {sample : Type} (w : World sample)
    (audio_path output_path : string) (target_beats target_sample_rate : Z)
    (confidence_threshold : R) (d d1 : disk) (r : AlignResult) :
  0 <= target_beats -> 0 <= target_sample_rate ->
  align_to_downbeat_and_normalize_beats w audio_path output_path target_beats
    target_sample_rate confidence_threshold d = (Ok r, d1) ->
  ar_success r = true ->
  exists clip : list sample,
    ar_processed_wav r = Some clip /\
    Z.of_nat (length clip) = target_samples_of target_beats target_sample_rate /\
    d1 output_path = Some [clip].
Proof.
  intros Hb Hr Hrun Hsuccess.
  pose proof (target_samples_of_nonneg _ _ Hb Hr) as Hts.
  destruct (align_run_inversion _ _ _ _ _ _ _ _ _ Hrun)
    as [[-> _]|(clip & info & -> & -> & _ & Hblock)];
    [discriminate Hsuccess|].
  exists clip. split; [reflexivity|]. split; [|apply disk_write_same].
  destruct Hblock as [Etry|Eexc].
  - destruct (align_try_normalized _ _ _ _ _ _ _ Etry) as (buffer & Hbuf).
    now apply (ensure_exact_length_ok_length buffer).
  - destruct (align_except_normalized _ _ _ _ _ _ Eexc) as (buffer & Hbuf).
    now apply (ensure_exact_length_ok_length buffer).
Qed.

(** Inversion of a successful [io_bind]. *)
Lemma io_bind_ok {sample : Type} {A B : Type} (m : @io sample A)
    (k : A -> @io sample B) (d d' : disk) (b : B) :
  io_bind m k d = (Ok b, d') ->
  exists a d1, m d = (Ok a, d1) /\ k a d1 = (Ok b, d').
Proof.
  unfold io_bind. destruct (m d) as [[a| |] d1]; intros H;
    [now exists a, d1|discriminate..].
Qed.

(** One step of a successful run of the driver. *)
Tactic Notation "io_step" hyp(H) "as"
    simple_intropattern(a) simple_intropattern(d) simple_intropattern(E) :=
  apply io_bind_ok in H; destruct H as (a & d & E & H).

(** A run of the driver that reports [success] went through the windower,
    then through the 16-second normalisation, and saved the result last. *)
Lemma process_success_inversion {sample : Type}
    (w : World sample) (fuel : nat) (file_path processed_save_path : string)
    (metadata : option metadata_t) (target_sample_rate : Z) (target_bpm : Q)
    (preserve_bpm : bool) (target_beats : Z) (confidence_threshold : R)
    (required_time_sig : Z) (d d' : disk) (o : Outcome) :
  process_wav_with_beat_alignment w fuel file_path processed_save_path metadata
    target_sample_rate target_bpm preserve_bpm target_beats confidence_threshold
    required_time_sig d = (Ok o, d') ->
  out_status o = success ->
  exists working_file d0 d1 r (clip final : list sample),
    align_to_downbeat_and_normalize_beats w working_file processed_save_path
      target_beats target_sample_rate confidence_threshold d0 = (Ok r, d1) /\
    ar_success r = true /\
    ar_processed_wav r = Some clip /\
    ensure_exact_length clip (TARGET_DURATION * target_sample_rate) = Ok final /\
    d' processed_save_path = Some [final].
Proof.
  intros Hrun Hstatus.
  unfold process_wav_with_beat_alignment in Hrun.
  destruct (negb (os_path_exists w file_path)).
  { injection Hrun as <- _. discriminate Hstatus. }
  io_step Hrun as [detected|] d0 _.
  2:{ injection Hrun as <- _. discriminate Hstatus. }
  destruct (negb (detected =? required_time_sig)).
  { injection Hrun as <- _. discriminate Hstatus. }
  io_step Hrun as original_bpm d1 _.
  io_step Hrun as [working_file final_bpm] d2 _.
  io_step Hrun as r d3 Halign.
  io_step Hrun as [] d4 _.
  io_step Hrun as [] d5 _.
  io_step Hrun as [] d6 _.
  destruct (ar_success r) eqn:Hsuccess.
  2:{ injection Hrun as <- _. discriminate Hstatus. }
  io_step Hrun as final d7 Hfinal.
  unfold io_lift in Hfinal. injection Hfinal as Hfinal <-.
  destruct (ar_processed_wav r) as [clip|] eqn:Hclip; [|discriminate Hfinal].
  io_step Hrun as [] d8 Hsave.
  apply torchaudio_save_ok in Hsave. subst.
  io_step Hrun as [] d9 Hcheck.
  unfold io_lift in Hcheck. injection Hcheck as _ <-.
  unfold io_ret in Hrun. injection Hrun as _ <-.
  exists working_file, d2, d3, r, clip, final.
  repeat split; try assumption. apply disk_write_same.
Qed.

(** C1, as amended. Whenever the per-file driver reports [success], the
    windower has saved a clip of exactly
    [target_beats * 60 / TARGET_BPM * target_sample_rate] samples, and the
    driver has then forced that clip to [TARGET_DURATION * target_sample_rate]
    samples (16 seconds) and saved it over the windower's file: the audio
    left on disk has [TARGET_DURATION * target_sample_rate] samples, which
    is [target_beats * 60 / TARGET_BPM * target_sample_rate] when
    [target_beats] is 32. *)
Theorem process_wav_with_beat_alignment_output_length {sample : Type}
    (w : World sample) (fuel : nat) (file_path processed_save_path : string)
    (metadata : option metadata_t) (target_sample_rate : Z) (target_bpm : Q)
    (preserve_bpm : bool) (target_beats : Z) (confidence_threshold : R)
    (required_time_sig : Z) (d d' : disk) (o : Outcome) :
  0 <= target_beats -> 0 <= target_sample_rate ->
  process_wav_with_beat_alignment w fuel file_path processed_save_path metadata
    target_sample_rate target_bpm preserve_bpm target_beats confidence_threshold
    required_time_sig d = (Ok o, d') ->
  out_status o = success ->
  exists (clip final : list sample),
    (exists working_file d0 d1 r,
        align_to_downbeat_and_normalize_beats w working_file processed_save_path
          target_beats target_sample_rate confidence_threshold d0 = (Ok r, d1) /\
        ar_processed_wav r = Some clip /\
        d1 processed_save_path = Some [clip]) /\
    Z.of_nat (length clip) = target_samples_of target_beats target_sample_rate /\
    ensure_exact_length clip (TARGET_DURATION * target_sample_rate) = Ok final /\
    d' processed_save_path = Some [final] /\
    Z.of_nat (length final) = TARGET_DURATION * target_sample_rate /\
    (target_beats = 32 ->
     Z.of_nat (length final) = target_samples_of target_beats target_sample_rate).
Proof.
  intros Hb Hr Hrun Hstatus.
  destruct (process_success_inversion w fuel file_path processed_save_path
              metadata target_sample_rate target_bpm preserve_bpm target_beats
              confidence_threshold required_time_sig d d' o Hrun Hstatus)
    as (working_file & d0 & d1 & r & clip & final
        & Halign & Hsuccess & Hclip & Hfinal & Hdisk).
  destruct (align_success_length w working_file processed_save_path target_beats
              target_sample_rate confidence_threshold d0 d1 r Hb Hr Halign Hsuccess)
    as (clip' & Hclip' & Hlen & Hsaved).
  rewrite Hclip in Hclip'. injection Hclip' as <-.
  assert (Hfinal_len : Z.of_nat (length final) = TARGET_DURATION * target_sample_rate).
  { apply (ensure_exact_length_ok_length clip);
      [unfold TARGET_DURATION; lia|exact Hfinal]. }
  exists clip, final.
  split; [now exists working_file, d0, d1, r|].
  split; [exact Hlen|]. split; [exact Hfinal|].
  split; [exact Hdisk|]. split; [exact Hfinal_len|].
  intros ->. now rewrite target_samples_of_default.
Qed.

Lemma align_fallback_run {sample : Type} (w : World sample)
    (audio_path output_path : string) (target_beats target_sample_rate : Z)
    (confidence_threshold : R) (wav out : list sample) (det : Detection) (d : disk) :
  load_mono w audio_path target_sample_rate = Ok wav ->
  detect_beats_and_downbeats w audio_path target_sample_rate 4 = Ok det ->
  fallback_case det confidence_threshold ->
  ensure_exact_length wav (target_samples_of target_beats target_sample_rate)
    = Ok out ->
  torchaudio_save_outcome w output_path [out] = Ok tt ->
  align_to_downbeat_and_normalize_beats w audio_path output_path target_beats
    target_sample_rate confidence_threshold d
  = (Ok (align_ok (out, fallback_info det
                          (target_samples_of target_beats target_sample_rate)
                          (Z.of_nat (length out)))),
     disk_write d output_path [out]).
Proof.
  intros Hload Hdet Hcase Hout Hsave.
  unfold align_to_downbeat_and_normalize_beats.
  rewrite (align_try_fallback w audio_path target_beats target_sample_rate
             confidence_threshold wav det Hload Hdet Hcase).
  rewrite Hout. cbn [bind]. unfold save_clip, torchaudio_save.
  cbv beta. cbn [fst]. use_save Hsave. reflexivity.
Qed.

Lemma target_samples_of_44100 (target_beats : Z) :
  target_samples_of target_beats TARGET_SAMPLE_RATE = target_beats * 22050.
Proof.
  unfold target_samples_of, TARGET_SAMPLE_RATE, TARGET_BPM.
  replace (target_beats * 60 * 44100) with (target_beats * 22050 * 120) by lia.
  apply Z.quot_mul. lia.
Qed.

(** The short clip through the whole driver, for any positive beat count:
    the run succeeds and leaves one file. *)
Lemma short_clip_run (fuel : nat) (target_beats : Z) :
  0 < target_beats ->
  exists o d',
    process_wav_with_beat_alignment short_clip_world fuel "loop.wav" "out.wav" None
      TARGET_SAMPLE_RATE 120 false target_beats 0.3%R 4 empty_disk = (Ok o, d') /\
    out_status o = success.
Proof.
  intros Hb.
  destruct (ensure_exact_length_returns [1; 2; 3]
              (target_samples_of target_beats TARGET_SAMPLE_RATE))
    as (clip & Hclip & Hlen);
    [rewrite target_samples_of_44100; lia|discriminate|].
  destruct (ensure_exact_length_returns clip 705600) as (final & Hfinal & _);
    [lia| |].
  { intros _ ->. rewrite target_samples_of_44100 in Hlen. simpl in Hlen. lia. }
  unfold process_wav_with_beat_alignment.
  cbn -[align_to_downbeat_and_normalize_beats ensure_exact_length target_samples_of].
  unfold io_bind at 1.
  rewrite (align_fallback_run short_clip_world "loop.wav" "out.wav" target_beats
             TARGET_SAMPLE_RATE 0.3%R [1; 2; 3] clip _ empty_disk
             short_clip_load short_clip_detection);
    [|right; left; cbn [det_confidence]; lra|exact Hclip|reflexivity].
  cbn -[ensure_exact_length target_samples_of].
  unfold io_bind, io_lift. rewrite Hfinal.
  cbn -[ensure_exact_length target_samples_of].
  eexists. eexists. split; reflexivity.
Qed.

Lemma process_wav_with_beat_alignment_output_length_witness :
  exists final : list Z,
    snd (process_wav_with_beat_alignment short_clip_world 0 "loop.wav" "out.wav"
           None TARGET_SAMPLE_RATE 120 false 32 0.3%R 4 empty_disk) "out.wav"%string
    = Some [final] /\
    Z.of_nat (length final) = 705600 /\
    Z.of_nat (length final) = target_samples_of 32 TARGET_SAMPLE_RATE.
Proof.
  destruct (short_clip_run 0 32) as (o & d' & Hrun & Hstatus); [lia|].
  destruct (process_wav_with_beat_alignment_output_length short_clip_world 0
              "loop.wav" "out.wav" None TARGET_SAMPLE_RATE 120 false 32 0.3%R 4
              empty_disk d' o)
    as (clip & final & _ & _ & _ & Hdisk & Hlen & Hdefault);
    [lia|unfold TARGET_SAMPLE_RATE; lia|exact Hrun|exact Hstatus|].
  exists final. rewrite Hrun. split; [exact Hdisk|].
  split; [exact Hlen|]. now apply Hdefault.
Defined.

(** C1, as stated, fails. With [target_beats = 16] at 44100 Hz the driver
    reports success and leaves a file of 705600 samples, while
    [target_beats * 60 / TARGET_BPM * sample_rate] is 352800. *)
Lemma process_wav_with_beat_alignment_ignores_target_beats :
  ~ (forall (w : World Z) (fuel : nat) (file_path processed_save_path : string)
            (metadata : option metadata_t) (target_sample_rate : Z)
            (target_bpm : Q) (preserve_bpm : bool) (target_beats : Z)
            (confidence_threshold : R) (required_time_sig : Z)
            (d d' : disk) (o : Outcome) (final : list Z),
       process_wav_with_beat_alignment w fuel file_path processed_save_path
         metadata target_sample_rate target_bpm preserve_bpm target_beats
         confidence_threshold required_time_sig d = (Ok o, d') ->
       out_status o = success ->
       d' processed_save_path = Some [final] ->
       Z.of_nat (length final) = target_samples_of target_beats target_sample_rate).
Proof.
  intros Hclaim.
  destruct (short_clip_run 0 16) as (o & d' & Hrun & Hstatus); [lia|].
  destruct (process_success_inversion short_clip_world 0 "loop.wav" "out.wav"
              None TARGET_SAMPLE_RATE 120 false 16 0.3%R 4 empty_disk d' o
              Hrun Hstatus)
    as (_ & _ & _ & _ & clip & final & _ & _ & _ & Hfinal & Hdisk).
  apply ensure_exact_length_ok_length in Hfinal;
    [|unfold TARGET_DURATION, TARGET_SAMPLE_RATE; lia].
  specialize (Hclaim _ _ _ _ _ _ _ _ _ _ _ _ _ _ final Hrun Hstatus Hdisk).
  rewrite Hfinal in Hclaim. vm_compute in Hclaim. discriminate Hclaim.
Qed.

(** ** The windower past the fallback test *)

Example extract_segment_inside :
  extract_segment [1; 2; 3; 4; 5; 6; 7; 8] 2 4 = Ok ([3; 4; 5; 6], true).
Proof. reflexivity. Qed.

Example extract_segment_loops_the_tail :
  extract_segment [1; 2; 3; 4; 5] 3 4 = Ok ([4; 5; 4; 5], true).
Proof. reflexivity. Qed.

Example extract_segment_start_beyond_audio :
  extract_segment [1; 2; 3] 5 4 = Ok ([1; 2; 3], false).
Proof. reflexivity. Qed.

(** With 8 beats and downbeats at 0 and 4, a window of 6 beats starts at
    the first downbeat; a window of 9 beats finds no downbeat with enough
    beats after it. *)
Example find_start_first_fit :
  find_start [0; 10; 20; 30; 40; 50; 60; 70] 8 6 [0; 4] = Ok (Some 0).
Proof. reflexivity. Qed.

Example find_start_second_downbeat :
  find_start [0; 10; 20; 30; 40; 50; 60; 70] 8 4 [5; 4] = Ok (Some 40).
Proof. reflexivity. Qed.

Example find_start_none_fits :
  find_start [0; 10; 20; 30; 40; 50; 60; 70] 8 9 [0; 4] = Ok None.
Proof. reflexivity. Qed.

Example np_histogram_threes :
  np_histogram_1_8 [3; 3; 4; 3; 8] = [0; 0; 3; 1; 0; 0; 1]%nat /\
  np_argmax (np_histogram_1_8 [3; 3; 4; 3; 8]) = 2%nat.
Proof. split; reflexivity. Qed.

(** ** What becomes of a [None] downbeat array *)

Lemma regular_beats_confidence :
  calculate_beat_confidence [0; 1; 2; 3]%R = Ok 1%R.
Proof.
  destruct (calculate_beat_confidence_unfold [0; 1; 2; 3]%R)
    as (mean & std & Hmean & Hstd & Hrun); [simpl; lia|].
  rewrite Hrun. f_equal.
  change (np_diff [0; 1; 2; 3]%R) with [1 - 0; 2 - 1; 3 - 2]%R in Hmean, Hstd.
  rewrite np_mean_nonempty in Hmean by discriminate. injection Hmean as Em.
  assert (Hm : mean = 1%R) by (rewrite <- Em; simpl; field).
  unfold np_std in Hstd. rewrite np_mean_nonempty in Hstd by discriminate.
  cbn [bind] in Hstd. rewrite np_mean_nonempty in Hstd by discriminate.
  cbn [bind] in Hstd. injection Hstd as Es.
  rewrite Em, Hm in Es.
  assert (Hs : std = 0%R).
  { rewrite <- Es. transitivity (sqrt 0); [f_equal; simpl; field|apply sqrt_0]. }
  destruct (Req_dec_T mean 0); [lra|].
  rewrite Hm, Hs. unfold Rmin, Rmax.
  destruct (Rle_dec 0 (1 - 0 / 1 * 2)); destruct (Rle_dec 1 _); lra.
Qed.

Lemma regular_beats_detection :
  detect_beats_and_downbeats regular_beats_world "loop.wav" TARGET_SAMPLE_RATE 4
  = Ok {| det_beat_times := Some [0; 1; 2; 3]%R;
          det_downbeat_indices := None;
          det_tempo := Some 120%R; det_confidence := 1%R |}.
Proof.
  unfold detect_beats_and_downbeats.
  change (estimate_time_signature regular_beats_world "loop.wav") with (@Ok Z 4).
  cbn [bind Z.eqb Pos.eqb negb].
  cbn [librosa_load regular_beats_world bind beat_track frames_to_time].
  change (estimate_downbeats_librosa regular_beats_world [0; 0; 0]%R 22050
            [0; 1; 2; 3]%nat 4) with (@Ok (option (list Z)) None).
  cbn [bind]. rewrite regular_beats_confidence. reflexivity.
Qed.

(** Four regular beats with confidence 1 and no peak: the [None] that the
    downbeat estimator returns makes [len(downbeat_indices)] raise, and the
    [except] block of the windower takes over.  The clip is saved, but its
    [beat_info] is the handler's: confidence 0.0 and no beat count. *)
Lemma align_none_downbeats_uses_handler :
  align_try regular_beats_world "loop.wav" 32 TARGET_SAMPLE_RATE 0.3%R
    = Raise TypeError /\
  exists clip info,
    align_to_downbeat_and_normalize_beats regular_beats_world "loop.wav" "out.wav"
      32 TARGET_SAMPLE_RATE 0.3%R empty_disk
    = (Ok {| ar_success := true; ar_processed_wav := Some clip;
             ar_beat_info := Some info |},
       disk_write empty_disk "out.wav" [clip]) /\
    bi_aligned info = false /\
    bi_confidence info = 0%R /\
    bi_num_beats info = None.
Proof.
  assert (Htry : align_try regular_beats_world "loop.wav" 32 TARGET_SAMPLE_RATE
                   0.3%R = Raise TypeError).
  { unfold align_try.
    change (load_mono regular_beats_world "loop.wav" TARGET_SAMPLE_RATE)
      with (@Ok (list Z) [1; 2; 3]).
    cbn [bind]. rewrite regular_beats_detection. cbn [bind].
    rewrite (fallback_condition_none_downbeats _ _ [0; 1; 2; 3]%R);
      [reflexivity|reflexivity|cbn [det_confidence]; lra|simpl; lia|reflexivity]. }
  split; [exact Htry|].
  destruct (ensure_exact_length_returns [1; 2; 3]
              (target_samples_of 32 TARGET_SAMPLE_RATE))
    as (clip & Hclip & _); [rewrite target_samples_of_44100; lia|discriminate|].
  eexists clip, _. split.
  - unfold align_to_downbeat_and_normalize_beats. rewrite Htry.
    unfold align_handler, align_except.
    change (load_mono regular_beats_world "loop.wav" TARGET_SAMPLE_RATE)
      with (@Ok (list Z) [1; 2; 3]).
    cbn [bind]. rewrite Hclip. reflexivity.
  - repeat split.
Qed.

(** * Further properties of the preprocessing code *)

(** ** Length normaliser: failure, negative targets, composition *)

(** The sample formula of the normaliser, for every non-empty buffer and
    every non-negative target. *)
Lemma ensure_exact_length_samples {A : Type} (wav : list A) (t : Z) :
  wav <> [] -> 0 <= t ->
  exists out,
    ensure_exact_length wav t = Ok out /\
    length out = Z.to_nat t /\
    (forall i, (i < Z.to_nat t)%nat ->
       nth_error out i = nth_error wav (i mod length wav)).
Proof.
  intros Hne Ht.
  assert (Hpos : 0 < Z.of_nat (length wav)).
  { destruct wav; simpl length; [congruence|lia]. }
  destruct (Z.lt_trichotomy (Z.of_nat (length wav)) t) as [Hlt|[Heq|Hgt]].
  - eexists. split; [apply ensure_exact_length_shorter; lia|].
    pose proof (ceil_div_covers t (Z.of_nat (length wav)) Hpos) as Hc.
    pose proof (ceil_div_lower t (Z.of_nat (length wav)) Hpos ltac:(lia)) as Hl.
    split; [rewrite length_firstn, tile_length; nia|].
    intros i Hi. rewrite firstn_nth_error_lt by exact Hi.
    apply tile_nth_error; [exact Hne|nia].
  - exists wav. split; [now apply ensure_exact_length_same|].
    split; [lia|]. intros i Hi. rewrite Nat.mod_small by lia. reflexivity.
  - eexists. split; [apply ensure_exact_length_longer; lia|].
    split; [rewrite length_firstn; lia|].
    intros i Hi. rewrite firstn_nth_error_lt by exact Hi.
    rewrite Nat.mod_small by lia. reflexivity.
Qed.

(** X1. [ensure_exact_length] raises in exactly one situation: an empty
    buffer asked to fill a positive target, where the loop count divides by
    the zero length ([ZeroDivisionError]).  In particular the repeat count
    handed to [wav.repeat] is never negative. *)
Theorem ensure_exact_length_raises_iff {A : Type} (wav : list A) (t : Z) (e : exn) :
  ensure_exact_length wav t = Raise e <->
  (wav = [] /\ 0 < t /\ e = ZeroDivisionError).
Proof.
  split.
  - destruct wav as [|a wav].
    + unfold ensure_exact_length. simpl length. change (Z.of_nat 0) with 0.
      destruct (0 =? t) eqn:E0; [discriminate|].
      destruct (0 <? t) eqn:E1; [|discriminate].
      apply Z.ltb_lt in E1. cbn. intros H. injection H as <-. auto.
    + intros H. exfalso. destruct (Z.lt_ge_cases t 0) as [Hneg|Hnn].
      * unfold ensure_exact_length in H.
        rewrite (proj2 (Z.eqb_neq _ _)) in H by lia.
        rewrite (proj2 (Z.ltb_ge _ _)) in H by lia. discriminate.
      * destruct (ensure_exact_length_returns (a :: wav) t Hnn ltac:(discriminate))
          as (out & Hrun & _).
        congruence.
  - intros (-> & Ht & ->). unfold ensure_exact_length. simpl length.
    change (Z.of_nat 0) with 0.
    rewrite (proj2 (Z.eqb_neq _ _)) by lia.
    rewrite (proj2 (Z.ltb_lt _ _)) by lia.
    reflexivity.
Qed.

(** X2. A negative target is not refused: the slice [wav[:, :target]] then
    counts from the end, so the result is the buffer without its last
    [-target] samples (empty when it has no more than that), and its length
    is never the target. *)
Theorem ensure_exact_length_negative_target {A : Type} (wav : list A) (t : Z) :
  t < 0 ->
  ensure_exact_length wav t
    = Ok (firstn (length wav - Z.to_nat (- t)) wav) /\
  (forall out, ensure_exact_length wav t = Ok out ->
     Z.of_nat (length out) = Z.max 0 (Z.of_nat (length wav) + t)).
Proof.
  intros Ht.
  assert (E : ensure_exact_length wav t
              = Ok (firstn (length wav - Z.to_nat (- t)) wav)).
  { unfold ensure_exact_length.
    rewrite (proj2 (Z.eqb_neq _ _)) by lia.
    rewrite (proj2 (Z.ltb_ge _ _)) by lia.
    unfold py_slice, slice_index. rewrite (proj2 (Z.ltb_lt _ _)) by lia.
    simpl skipn. do 2 f_equal. lia. }
  split; [exact E|].
  intros out H. rewrite E in H. injection H as <-.
  rewrite length_firstn. lia.
Qed.

Lemma ensure_exact_length_negative_target_witness :
  ensure_exact_length [1; 2; 3; 4; 5] (-2) = Ok [1; 2; 3].
Proof.
  exact (proj1 (ensure_exact_length_negative_target [1; 2; 3; 4; 5] (-2)
                  ltac:(lia))).
Defined.

(** X3. Normalising to [a] samples and then to [b <= a] samples is the same
    as normalising to [b] samples at once.  This is what the per-file driver
    does to the windower's clip when [target_beats] gives at least 16
    seconds. *)
Theorem ensure_exact_length_compose {A : Type} (wav : list A) (a b : Z) :
  wav <> [] -> 0 <= b <= a ->
  bind (ensure_exact_length wav a) (fun mid => ensure_exact_length mid b)
  = ensure_exact_length wav b.
Proof.
  intros Hne [Hb Hba].
  destruct (ensure_exact_length_samples wav a Hne ltac:(lia))
    as (outa & Ea & Hla & Hsa).
  destruct (ensure_exact_length_samples wav b Hne Hb) as (outb & Eb & Hlb & Hsb).
  rewrite Ea, Eb. cbn [bind].
  assert (Hcut : firstn (Z.to_nat b) outa = outb).
  { apply nth_error_ext. intros i.
    destruct (Nat.lt_ge_cases i (Z.to_nat b)) as [Hi|Hi].
    - rewrite firstn_nth_error_lt by exact Hi.
      rewrite Hsa by lia. now rewrite Hsb.
    - rewrite (proj2 (nth_error_None _ _)) by (rewrite length_firstn; lia).
      symmetry. apply nth_error_None. lia. }
  destruct (Z.eq_dec a b) as [->|Hneq].
  - rewrite ensure_exact_length_same by lia.
    rewrite <- Hcut. rewrite firstn_all2 by lia. reflexivity.
  - rewrite ensure_exact_length_longer by lia. now rewrite Hcut.
Qed.

Lemma ensure_exact_length_compose_witness :
  bind (ensure_exact_length [1; 2; 3] 8) (fun mid => ensure_exact_length mid 5)
  = ensure_exact_length [1; 2; 3] 5.
Proof.
  apply (ensure_exact_length_compose [1; 2; 3] 8 5); [discriminate|lia].
Defined.

(** ** Duration-only processing *)

(** X4. The loop-or-trim step written inline in [process_wav] computes the
    same function as [ensure_exact_length], on every buffer and every
    target, failures included. *)
Theorem adjust_duration_ensure_exact_length {A : Type} (wav : list A) (t : Z) :
  adjust_duration wav t = ensure_exact_length wav t.
Proof.
  unfold adjust_duration, ensure_exact_length.
  destruct (Z.of_nat (length wav) =? t) eqn:E.
  - apply Z.eqb_eq in E. rewrite (proj2 (Z.ltb_ge _ _)) by lia.
    rewrite py_slice_prefix by lia. rewrite firstn_all2 by lia. reflexivity.
  - destruct (Z.of_nat (length wav) <? t); reflexivity.
Qed.

(** ** BPM lookup *)

(** X5. [detect_bpm] never raises, and every tempo it returns lies between
    30 and 300 BPM: it is the extractor's tempo, or the default 120 when the
    extractor fails or reports a tempo out of that range.  It only fails to
    return when the extractor does. *)
Theorem detect_bpm_range {sample : Type} (w : World sample) (file_path : string) :
  (detect_bpm w file_path = Diverge /\ rhythm_extractor w file_path = Diverge) \/
  (exists bpm,
      detect_bpm w file_path = Ok bpm /\
      (30 <= bpm)%Q /\ (bpm <= 300)%Q /\
      (bpm = 120%Q \/ rhythm_extractor w file_path = Ok bpm)).
Proof.
  unfold detect_bpm.
  destruct (rhythm_extractor w file_path) as [bpm|e|]; cbn [bind try_except].
  - right. destruct (Qle_bool 30 bpm) eqn:E1; cbn [andb].
    + destruct (Qle_bool bpm 300) eqn:E2.
      * exists bpm. apply Qle_bool_iff in E1, E2. auto.
      * exists 120%Q. repeat split; [discriminate|discriminate|now left].
    + exists 120%Q. repeat split; [discriminate|discriminate|now left].
  - right. exists 120%Q. repeat split; [discriminate|discriminate|now left].
  - left. split; reflexivity.
Qed.


Example get_file_bpm_malformed_metadata :
  get_file_bpm short_clip_world "dir/425998_loop.wav"
    (Some [("425998"%string, bpm_malformed TypeError)])
  = Raise TypeError.
Proof. reflexivity. Qed.

Example get_file_bpm_missing_bpm :
  get_file_bpm short_clip_world "dir/425998_loop.wav"
    (Some [("425998"%string, bpm_missing)])
  = Ok (Some 120%Q).
Proof. reflexivity. Qed.

(** ** File ids *)

Lemma list_ascii_of_string_app (s1 s2 : string) :
  list_ascii_of_string (s1 ++ s2)
  = list_ascii_of_string s1 ++ list_ascii_of_string s2.
Proof. induction s1 as [|c s1 IH]; simpl; [reflexivity|now rewrite IH]. Qed.

Lemma basename_scan_no_slash (l acc : list ascii) :
  existsb (Ascii.eqb "/"%char) l = false ->
  fold_left (fun acc c => if Ascii.eqb c "/"%char then [] else acc ++ [c]) l acc
  = acc ++ l.
Proof.
  revert acc. induction l as [|c l IH]; intros acc H; cbn [fold_left].
  - now rewrite app_nil_r.
  - cbn [existsb] in H. apply orb_false_elim in H. destruct H as [Hc Hl].
    rewrite Ascii.eqb_sym, Hc. rewrite IH by exact Hl.
    now rewrite <- app_assoc.
Qed.

(** [os.path.basename] keeps what follows the last slash. *)
Lemma basename_join (dir name : string) :
  existsb (Ascii.eqb "/"%char) (list_ascii_of_string name) = false ->
  basename (dir ++ "/" ++ name) = name /\ basename name = name.
Proof.
  intros H. unfold basename. split.
  - rewrite !list_ascii_of_string_app, !fold_left_app. simpl fold_left at 2.
    rewrite basename_scan_no_slash by exact H.
    apply string_of_list_ascii_of_string.
  - rewrite basename_scan_no_slash by exact H.
    apply string_of_list_ascii_of_string.
Qed.

Lemma before_underscore_prefix (id rest : string) :
  existsb (Ascii.eqb "_"%char) (list_ascii_of_string id) = false ->
  before_underscore (id ++ "_" ++ rest) = id.
Proof.
  induction id as [|c id IH]; intros H; [reflexivity|].
  cbn [list_ascii_of_string existsb] in H.
  apply orb_false_elim in H. destruct H as [Hc Hid].
  specialize (IH Hid). cbn [append before_underscore] in IH |- *.
  rewrite Ascii.eqb_sym, Hc. now rewrite IH.
Qed.

(** X7. The id of a file named [<id>_<rest>] in any directory is [<id>],
    as long as [<id>] holds no underscore and the file name no slash: this
    is the key under which [get_bpm_from_metadata] looks the file up. *)
Theorem get_file_id_from_filename_roundtrip (dir id rest : string) :
  existsb (Ascii.eqb "_"%char) (list_ascii_of_string id) = false ->
  existsb (Ascii.eqb "/"%char) (list_ascii_of_string (id ++ "_" ++ rest)) = false ->
  get_file_id_from_filename (dir ++ "/" ++ id ++ "_" ++ rest) = id /\
  get_file_id_from_filename (id ++ "_" ++ rest) = id.
Proof.
  intros Hid Hname. unfold get_file_id_from_filename.
  destruct (basename_join dir (id ++ "_" ++ rest) Hname) as [-> ->].
  split; now apply before_underscore_prefix.
Qed.

Lemma get_file_id_from_filename_roundtrip_witness :
  get_file_id_from_filename "FSL10K/audio/wav/425998_9497060.wav.wav" = "425998"%string.
Proof.
  exact (proj1 (get_file_id_from_filename_roundtrip
                  "FSL10K/audio/wav" "425998" "9497060.wav.wav"
                  eq_refl eq_refl)).
Defined.

(** ** Tempo converter: ratios that are not positive *)

Lemma atempo_chain_down_nonpositive (fuel : nat) :
  forall remaining : Q, (remaining <= 0)%Q ->
    atempo_chain_down fuel remaining = Diverge.
Proof.
  induction fuel as [|fuel IH]; intros r Hr; simpl.
  - destruct (Qlt_le_dec r 1) as [_|H]; [reflexivity|Lqa.lra].
  - destruct (Qlt_le_dec r 1) as [_|H]; [|Lqa.lra].
    rewrite IH; [reflexivity|].
    assert (Hmax : (Qmax (1 # 2) r == 1 # 2)%Q) by (apply Q.max_l; Lqa.lra).
    rewrite Hmax, Qdiv_half. Lqa.lra.
Qed.

(** X8. A speed ratio that is zero or negative (a target BPM of 0, or BPMs
    of opposite signs) sends the slow-down loop of the atempo chain into
    an endless doubling: the chain is never finished, whatever the number
    of iterations allowed, and [tempo_convert_ffmpeg] never reaches
    ffmpeg. *)
Theorem tempo_convert_ffmpeg_nonpositive_ratio {sample : Type} (w : World sample)
    (fuel : nat) (input_file : string) (target_bpm original_bpm : Q)
    (target_sample_rate : Z) :
  ~ (original_bpm == 0)%Q ->
  (target_bpm / original_bpm <= 0)%Q ->
  build_atempo_chain fuel (target_bpm / original_bpm) = Diverge /\
  tempo_convert_ffmpeg w fuel input_file target_bpm original_bpm target_sample_rate
  = Diverge.
Proof.
  intros Hbpm Hratio.
  assert (Hchain : build_atempo_chain fuel (target_bpm / original_bpm) = Diverge).
  { unfold build_atempo_chain.
    destruct (Qlt_le_dec 2 (target_bpm / original_bpm)) as [H|_]; [Lqa.lra|].
    destruct (Qlt_le_dec (target_bpm / original_bpm) (1 # 2)) as [_|H]; [|Lqa.lra].
    now apply atempo_chain_down_nonpositive. }
  split; [exact Hchain|].
  unfold tempo_convert_ffmpeg. rewrite (Qeq_bool_false _ _ Hbpm). cbn [bind].
  now rewrite Hchain.
Qed.

Lemma tempo_convert_ffmpeg_nonpositive_ratio_witness :
  build_atempo_chain 50 (0 / 100) = Diverge /\
  tempo_convert_ffmpeg short_clip_world 50 "loop.wav" 0 100 TARGET_SAMPLE_RATE
  = Diverge.
Proof.
  apply (tempo_convert_ffmpeg_nonpositive_ratio short_clip_world 50 "loop.wav" 0 100
           TARGET_SAMPLE_RATE); [discriminate|discriminate].
Defined.

(** ** Tempo converter: which file comes back *)

(** X9. Whatever ffmpeg and the tempo detector do, a file name returned by
    [tempo_convert_ffmpeg] is the input file or one of its two temporary
    outputs, and a temporary output is only returned when it exists. *)
Theorem tempo_convert_ffmpeg_result {sample : Type} (w : World sample)
    (fuel : nat) (input_file : string) (target_bpm original_bpm : Q)
    (target_sample_rate : Z) (best_file : string) :
  tempo_convert_ffmpeg w fuel input_file target_bpm original_bpm target_sample_rate
  = Ok best_file ->
  best_file = input_file \/
  (best_file = output_atempo_of input_file /\
   os_path_exists w (output_atempo_of input_file) = true) \/
  (best_file = output_asetrate_of input_file /\
   os_path_exists w (output_asetrate_of input_file) = true).
Proof.
  unfold tempo_convert_ffmpeg.
  destruct (Qeq_bool original_bpm 0); cbn [bind]; [discriminate|].
  destruct (build_atempo_chain fuel _) as [chain| |]; cbn [bind]; try discriminate.
  destruct (run_ffmpeg_command w _) as [sa| |]; cbn [bind]; try discriminate.
  destruct (torchaudio_info_sample_rate w input_file) as [osr| |]; cbn [bind];
    try discriminate.
  destruct (run_ffmpeg_command w _) as [sb| |]; cbn [bind]; try discriminate.
  destruct (os_path_exists w (output_atempo_of input_file)) eqn:Ea;
    destruct (os_path_exists w (output_asetrate_of input_file)) eqn:Eb;
    destruct sa, sb; cbn [andb bind];
    repeat match goal with
           | |- context [detect_bpm w ?p] =>
               destruct (detect_bpm w p) as [?bpm| |]; cbn [bind];
               try discriminate
           | |- context [improves ?e ?b] => destruct (improves e b)
           end;
    intros H; injection H as <-; auto.
Qed.

Lemma tempo_convert_ffmpeg_result_witness :
  "temp_atempo_loop.wav"%string = "loop.wav"%string \/
  ("temp_atempo_loop.wav"%string = output_atempo_of "loop.wav" /\
   os_path_exists converted_world (output_atempo_of "loop.wav") = true) \/
  ("temp_atempo_loop.wav"%string = output_asetrate_of "loop.wav" /\
   os_path_exists converted_world (output_asetrate_of "loop.wav") = true).
Proof.
  apply (tempo_convert_ffmpeg_result converted_world 1 "loop.wav" 120 100
           TARGET_SAMPLE_RATE).
  reflexivity.
Defined.

(** X10. When both strategies produce an output file, the one whose
    measured tempo is closer to the target is returned, and a tie goes to
    the atempo output. *)
Theorem tempo_convert_ffmpeg_closest {sample : Type} (w : World sample)
    (fuel : nat) (input_file : string) (target_bpm original_bpm : Q)
    (target_sample_rate original_sr : Z) (chain : list Q)
    (bpm_atempo bpm_asetrate : Q) :
  ~ (original_bpm == 0)%Q ->
  build_atempo_chain fuel (target_bpm / original_bpm) = Ok chain ->
  run_ffmpeg_command w (atempo_command input_file chain target_sample_rate)
  = Ok true ->
  torchaudio_info_sample_rate w input_file = Ok original_sr ->
  run_ffmpeg_command w (asetrate_command input_file original_sr
                          (target_bpm / original_bpm) target_sample_rate)
  = Ok true ->
  os_path_exists w (output_atempo_of input_file) = true ->
  os_path_exists w (output_asetrate_of input_file) = true ->
  detect_bpm w (output_atempo_of input_file) = Ok bpm_atempo ->
  detect_bpm w (output_asetrate_of input_file) = Ok bpm_asetrate ->
  tempo_convert_ffmpeg w fuel input_file target_bpm original_bpm target_sample_rate
  = Ok (if Qle_bool (Qabs (bpm_atempo - target_bpm))
                    (Qabs (bpm_asetrate - target_bpm))
        then output_atempo_of input_file
        else output_asetrate_of input_file).
Proof.
  intros Hbpm Hchain Hra Hinfo Hrb Hea Heb Hda Hdb.
  unfold tempo_convert_ffmpeg.
  rewrite (Qeq_bool_false _ _ Hbpm). cbn [bind].
  rewrite Hchain. cbn [bind]. rewrite Hra. cbn [bind].
  rewrite Hinfo. cbn [bind]. rewrite Hrb. cbn [bind].
  rewrite Hea, Heb. cbn [andb]. rewrite Hda. cbn [bind improves].
  rewrite Hdb. cbn [bind improves].
  destruct (Qle_bool _ _); reflexivity.
Qed.

Lemma tempo_convert_ffmpeg_closest_witness :
  tempo_convert_ffmpeg converted_world 1 "loop.wav" 120 100 TARGET_SAMPLE_RATE
  = Ok "temp_atempo_loop.wav"%string.
Proof.
  apply (tempo_convert_ffmpeg_closest converted_world 1 "loop.wav" 120 100
           TARGET_SAMPLE_RATE 22050 [(120 # 100)%Q] 119 125);
    [discriminate|reflexivity..].
Defined.

(** ** Duration-only processing: [process_wav] *)

(** Removing a temporary file never removes the processed file. *)
Lemma remove_temp_keeps {sample : Type} (w : World sample)
    (processed_save_path tf : string) (d : @disk sample) :
  exists d1,
    remove_temp w processed_save_path tf d = (Ok tt, d1) /\
    d1 processed_save_path = d processed_save_path /\
    (forall p, p <> tf -> d1 p = d p).
Proof.
  unfold remove_temp.
  destruct (_ && negb (String.eqb tf processed_save_path)) eqn:E.
  - apply andb_true_iff in E. destruct E as [_ E].
    apply negb_true_iff in E.
    exists (disk_remove d tf). split; [reflexivity|]. unfold disk_remove. split.
    + now rewrite String.eqb_sym, E.
    + intros p Hp. now rewrite (proj2 (String.eqb_neq p tf) Hp).
  - exists d. auto.
Qed.

Lemma adjust_duration_ok_length {A : Type} (wav out : list A) (t : Z) :
  0 <= t -> adjust_duration wav t = Ok out -> Z.of_nat (length out) = t.
Proof.
  intros Ht H. apply (ensure_exact_length_ok_length wav out t Ht).
  rewrite <- H. unfold adjust_duration, ensure_exact_length.
  destruct (Z.of_nat (length wav) =? t) eqn:E.
  - apply Z.eqb_eq in E. rewrite (proj2 (Z.ltb_ge _ _)) by lia.
    rewrite py_slice_prefix by lia. rewrite firstn_all2 by lia. reflexivity.
  - destruct (Z.of_nat (length wav) <? t); reflexivity.
Qed.

(** A run of [process_wav] on an existing file that returns has loaded a
    working file, mixed it down, adjusted its duration and saved it. *)
Lemma process_wav_saved {sample : Type} (w : World sample) (fuel : nat)
    (file_path processed_save_path : string) (metadata : option metadata_t)
    (target_duration target_sample_rate : Z) (target_bpm : Q) (preserve_bpm : bool)
    (d d' : disk) (path : option string) (bpm : option Q) :
  os_path_exists w file_path = true ->
  process_wav w fuel file_path processed_save_path metadata target_duration
    target_sample_rate target_bpm preserve_bpm d = (Ok (path, bpm), d') ->
  exists working_file loaded sr (wav : list sample),
    torchaudio_load w working_file = Ok (loaded, sr) /\
    adjust_duration
      (hd [] (if (1 <? length loaded)%nat then [mean_dim0 w loaded] else loaded))
      (target_duration * target_sample_rate) = Ok wav /\
    path = Some processed_save_path /\
    d' processed_save_path = Some [wav].
Proof.
  intros Hex Hrun. unfold process_wav in Hrun. rewrite Hex in Hrun.
  cbn [negb] in Hrun.
  io_step Hrun as original_bpm d1 _.
  io_step Hrun as convert d2 _.
  io_step Hrun as [working_file final_bpm] d3 _.
  io_step Hrun as [loaded sr] d4 Hload.
  unfold io_lift in Hload. injection Hload as Hload <-.
  io_step Hrun as wav d5 Hadjust.
  unfold io_lift in Hadjust. injection Hadjust as Hadjust <-.
  io_step Hrun as [] d6 Hsave.
  apply torchaudio_save_ok in Hsave. subst.
  io_step Hrun as [] d7 Hr1. io_step Hrun as [] d8 Hr2.
  io_step Hrun as [] d9 Hr3.
  unfold io_ret in Hrun. injection Hrun as <- _ <-.
  exists working_file, loaded, sr, wav.
  split; [exact Hload|]. split; [exact Hadjust|]. split; [reflexivity|].
  destruct (remove_temp_keeps w processed_save_path (output_atempo_of file_path)
              (disk_write d3 processed_save_path [wav])) as (e1 & E1 & K1 & _).
  rewrite E1 in Hr1. injection Hr1 as <-.
  destruct (remove_temp_keeps w processed_save_path (output_asetrate_of file_path)
              e1) as (e2 & E2 & K2 & _).
  rewrite E2 in Hr2. injection Hr2 as <-.
  destruct (remove_temp_keeps w processed_save_path
              ("temp_" ++ basename file_path)%string e2) as (e3 & E3 & K3 & _).
  rewrite E3 in Hr3. injection Hr3 as <-.
  rewrite K3, K2, K1. apply disk_write_same.
Qed.

(** X11. [process_wav] returns [(None, None)], touching nothing, exactly
    when the input file does not exist.  Otherwise a run that returns gives
    back the save path, and the file it has left there holds one channel of
    exactly [target_duration * target_sample_rate] samples; the clean-up of
    the temporary files does not remove it. *)
Theorem process_wav_output {sample : Type} (w : World sample) (fuel : nat)
    (file_path processed_save_path : string) (metadata : option metadata_t)
    (target_duration target_sample_rate : Z) (target_bpm : Q) (preserve_bpm : bool)
    (d d' : disk) (path : option string) (bpm : option Q) :
  0 <= target_duration * target_sample_rate ->
  process_wav w fuel file_path processed_save_path metadata target_duration
    target_sample_rate target_bpm preserve_bpm d = (Ok (path, bpm), d') ->
  (os_path_exists w file_path = false /\ path = None /\ bpm = None /\ d' = d) \/
  (os_path_exists w file_path = true /\ path = Some processed_save_path /\
   exists wav : list sample,
     d' processed_save_path = Some [wav] /\
     Z.of_nat (length wav) = target_duration * target_sample_rate).
Proof.
  intros Ht Hrun.
  destruct (os_path_exists w file_path) eqn:Hex.
  - right. split; [reflexivity|].
    destruct (process_wav_saved _ _ _ _ _ _ _ _ _ _ _ _ _ Hex Hrun)
      as (working_file & loaded & sr & wav & _ & Hadjust & Hpath & Hdisk).
    split; [exact Hpath|]. exists wav. split; [exact Hdisk|].
    exact (adjust_duration_ok_length _ _ _ Ht Hadjust).
  - left. unfold process_wav in Hrun. rewrite Hex in Hrun.
    injection Hrun as <- <- <-. auto.
Qed.

Lemma process_wav_output_witness :
  exists wav : list Z,
    snd (process_wav converted_world 1 "loop.wav" "out.wav" None 2 4 120 false
           empty_disk) "out.wav"%string = Some [wav] /\
    Z.of_nat (length wav) = 2 * 4.
Proof.
  destruct (process_wav_output converted_world 1 "loop.wav" "out.wav" None 2 4
              120 false empty_disk
              (snd (process_wav converted_world 1 "loop.wav" "out.wav" None 2 4
                      120 false empty_disk))
              (Some "out.wav"%string) (Some 120%Q))
    as [(Hex & _)|(_ & _ & wav & Hdisk & Hlen)];
    [lia|reflexivity|discriminate Hex|].
  exists wav. split; [exact Hdisk|exact Hlen].
Defined.

(** X12. [process_wav] has no guard against a BPM of zero: when the
    metadata gives 0 for an existing file and the tempo is to be converted,
    the speed ratio divides by zero and the call raises, before anything is
    written. *)
Theorem process_wav_zero_bpm {sample : Type} (w : World sample) (fuel : nat)
    (file_path processed_save_path : string) (metadata : metadata_t)
    (target_duration target_sample_rate : Z) (target_bpm : Q) (d : disk) :
  os_path_exists w file_path = true ->
  get_bpm_from_metadata file_path metadata = Ok (Some 0%Q) ->
  (1 < Qabs (0 - target_bpm))%Q ->
  process_wav w fuel file_path processed_save_path (Some metadata) target_duration
    target_sample_rate target_bpm false d
  = (Raise ZeroDivisionError, d).
Proof.
  intros Hex Hm Hfar. unfold process_wav. rewrite Hex. cbn [negb].
  assert (Hbpm : get_file_bpm w file_path (Some metadata) = Ok (Some 0%Q)).
  { unfold get_file_bpm. destruct metadata as [|entry m]; [discriminate Hm|].
    now rewrite Hm. }
  rewrite Hbpm. unfold io_bind at 1. unfold io_lift at 1.
  unfold bpm_differs.
  assert (Hle : Qle_bool (Qabs (0 - target_bpm)) 1 = false).
  { destruct (Qle_bool (Qabs (0 - target_bpm)) 1) eqn:E; [|reflexivity].
    apply Qle_bool_iff in E. Lqa.lra. }
  rewrite Hle. reflexivity.
Qed.

Lemma process_wav_zero_bpm_witness :
  process_wav short_clip_world 1 "loop.wav" "out.wav"
    (Some [("loop.wav"%string, bpm_number 0)]) 16 TARGET_SAMPLE_RATE 120 false empty_disk
  = (Raise ZeroDivisionError, empty_disk).
Proof.
  apply (process_wav_zero_bpm short_clip_world 1 "loop.wav" "out.wav"
           [("loop.wav"%string, bpm_number 0)] 16 TARGET_SAMPLE_RATE 120 empty_disk);
    reflexivity.
Defined.

(** X13. With [align_beats=False] the per-file driver reports [failed] only
    for a missing input file.  For an existing file every run of
    [process_wav] that returns is reported as [success], with the save path,
    no info, and a saved clip of [target_duration * target_sample_rate]
    samples: the test on the returned pair can never fail. *)
Theorem process_wav_without_alignment_outcome {sample : Type} (w : World sample)
    (fuel : nat) (file_path processed_save_path : string)
    (metadata : option metadata_t) (target_duration target_sample_rate : Z)
    (target_bpm : Q) (preserve_bpm : bool) (d d' : disk) (o : Outcome) :
  0 <= target_duration * target_sample_rate ->
  process_wav_without_alignment w fuel file_path processed_save_path metadata
    target_duration target_sample_rate target_bpm preserve_bpm d = (Ok o, d') ->
  (os_path_exists w file_path = false /\ o = outcome_failed /\ d' = d) \/
  (os_path_exists w file_path = true /\
   out_status o = success /\ out_path o = Some processed_save_path /\
   out_info o = None /\
   exists wav : list sample,
     d' processed_save_path = Some [wav] /\
     Z.of_nat (length wav) = target_duration * target_sample_rate).
Proof.
  intros Ht Hrun. unfold process_wav_without_alignment in Hrun.
  destruct (os_path_exists w file_path) eqn:Hex; cbn [negb] in Hrun.
  - right. split; [reflexivity|].
    io_step Hrun as [path bpm] d1 Hpw.
    unfold io_ret in Hrun. injection Hrun as <- <-.
    destruct (process_wav_saved _ _ _ _ _ _ _ _ _ _ _ _ _ Hex Hpw)
      as (working_file & loaded & sr & wav & _ & Hadjust & Hpath & Hdisk).
    cbn [out_status out_path out_info].
    split; [reflexivity|]. split; [exact Hpath|]. split; [reflexivity|].
    exists wav. split; [exact Hdisk|].
    exact (adjust_duration_ok_length _ _ _ Ht Hadjust).
  - left. injection Hrun as <- <-. auto.
Qed.

Lemma process_wav_without_alignment_outcome_witness :
  exists wav : list Z,
    snd (process_wav_without_alignment converted_world 1 "loop.wav" "out.wav"
           None 2 4 120 false empty_disk) "out.wav"%string = Some [wav] /\
    Z.of_nat (length wav) = 2 * 4.
Proof.
  destruct (process_wav_without_alignment_outcome converted_world 1 "loop.wav"
              "out.wav" None 2 4 120 false empty_disk
              (snd (process_wav_without_alignment converted_world 1 "loop.wav"
                      "out.wav" None 2 4 120 false empty_disk))
              {| out_path := Some "out.wav"%string; out_final_bpm := Some 120%Q;
                 out_info := None; out_status := success |})
    as [(Hex & _)|(_ & _ & _ & _ & wav & Hdisk & Hlen)];
    [lia|reflexivity|discriminate Hex|].
  exists wav. split; [exact Hdisk|exact Hlen].
Defined.

(** ** Files touched *)

Lemma only_touches_ret {sample A : Type} (touched : list string) (a : A) :
  only_touches touched (@io_ret sample A a).
Proof. intros d p _. reflexivity. Qed.

Lemma only_touches_lift {sample A : Type} (touched : list string) (r : result A) :
  only_touches touched (@io_lift sample A r).
Proof. intros d p _. reflexivity. Qed.

Lemma only_touches_bind {sample A B : Type} (touched : list string)
    (m : @io sample A) (k : A -> @io sample B) :
  only_touches touched m -> (forall a, only_touches touched (k a)) ->
  only_touches touched (io_bind m k).
Proof.
  intros Hm Hk d p Hp. unfold io_bind. specialize (Hm d p Hp).
  destruct (m d) as [[a| |] d1]; cbn [snd] in *; [|exact Hm..].
  rewrite (Hk a d1 p Hp). exact Hm.
Qed.

Lemma only_touches_save {sample : Type} (w : World sample)
    (touched : list string) (path : string) (t : @tensor sample) :
  In path touched -> only_touches touched (torchaudio_save w path t).
Proof.
  intros Hin d p Hp. unfold torchaudio_save.
  destruct (torchaudio_save_outcome w path t); cbn [snd]; [|reflexivity..].
  unfold disk_write. destruct (String.eqb p path) eqn:E; [|reflexivity].
  apply String.eqb_eq in E. subst p. contradiction.
Qed.

Lemma only_touches_remove {sample : Type} (w : World sample) (touched : list string)
    (processed_save_path tf : string) :
  In tf touched -> only_touches touched (remove_temp w processed_save_path tf).
Proof.
  intros Hin d p Hp.
  destruct (remove_temp_keeps w processed_save_path tf d) as (d1 & E & _ & K).
  rewrite E. cbn [snd]. apply K. intros ->. contradiction.
Qed.

Lemma only_touches_save_clip {sample : Type} (w : World sample)
    (touched : list string) (output_path : string)
    (saved : @audio sample * BeatInfo) (on_error : io AlignResult) :
  In output_path touched -> only_touches touched on_error ->
  only_touches touched (save_clip w output_path saved on_error).
Proof.
  intros Hin Hon d p Hp. unfold save_clip.
  pose proof (only_touches_save w touched output_path [fst saved] Hin d p Hp)
    as Hsave.
  destruct (torchaudio_save w output_path [fst saved] d) as [[u|e|] d'];
    cbn [snd] in *; [exact Hsave| |exact Hsave].
  rewrite (Hon d' p Hp). exact Hsave.
Qed.

Lemma only_touches_handler {sample : Type} (w : World sample)
    (touched : list string) (audio_path output_path : string)
    (target_beats target_sample_rate : Z) :
  In output_path touched ->
  only_touches touched
    (align_handler w audio_path output_path target_beats target_sample_rate).
Proof.
  intros Hin d p Hp. unfold align_handler.
  destruct (align_except _ _ _ _) as [saved| |]; [|reflexivity..].
  exact (only_touches_save_clip w touched output_path saved _ Hin
           (only_touches_ret touched align_failed) d p Hp).
Qed.

Lemma only_touches_align {sample : Type} (w : World sample) (touched : list string)
    (audio_path output_path : string) (target_beats target_sample_rate : Z)
    (confidence_threshold : R) :
  In output_path touched ->
  only_touches touched
    (align_to_downbeat_and_normalize_beats w audio_path output_path target_beats
       target_sample_rate confidence_threshold).
Proof.
  intros Hin d p Hp. unfold align_to_downbeat_and_normalize_beats.
  destruct (align_try _ _ _ _ _) as [saved| |]; [| |reflexivity].
  - exact (only_touches_save_clip w touched output_path saved _ Hin
             (only_touches_handler w touched audio_path output_path target_beats
                target_sample_rate Hin) d p Hp).
  - exact (only_touches_handler w touched audio_path output_path target_beats
             target_sample_rate Hin d p Hp).
Qed.

Ltac frame_step :=
  first
    [ apply only_touches_ret
    | apply only_touches_lift
    | apply only_touches_save; simpl; tauto
    | apply only_touches_remove; simpl; tauto
    | apply only_touches_align; simpl; tauto
    | apply only_touches_bind; [|intros ?]
    | match goal with
      | |- only_touches _ (match ?x with _ => _ end) => destruct x
      end ].

(** X14. Whatever happens, exception included, [process_wav] leaves every
    file alone except the processed file, the two outputs of the tempo
    converter and its own temporary copy of the input. *)
Theorem process_wav_only_touches {sample : Type} (w : World sample) (fuel : nat)
    (file_path processed_save_path : string) (metadata : option metadata_t)
    (target_duration target_sample_rate : Z) (target_bpm : Q) (preserve_bpm : bool) :
  only_touches
    [processed_save_path; output_atempo_of file_path; output_asetrate_of file_path;
     ("temp_" ++ basename file_path)%string]
    (process_wav w fuel file_path processed_save_path metadata target_duration
       target_sample_rate target_bpm preserve_bpm).
Proof. unfold process_wav. repeat frame_step. Qed.

Lemma process_wav_only_touches_witness :
  snd (process_wav converted_world 1 "loop.wav" "out.wav" None 2 4 120 false
         (disk_write empty_disk "other.wav" [[7]])) "other.wav"%string
  = Some [[7]].
Proof.
  apply (process_wav_only_touches converted_world 1 "loop.wav" "out.wav" None 2 4
           120 false (disk_write empty_disk "other.wav" [[7]]) "other.wav"%string).
  simpl. intros [H|[H|[H|[H|[]]]]]; discriminate H.
Defined.

(** X15. The same holds for the beat-alignment driver, whose temporary copy
    is [temp_before_alignment_<name>]: the windower, the clean-up and the
    final save touch no other file, whatever the outcome. *)
Theorem process_wav_with_beat_alignment_only_touches {sample : Type}
    (w : World sample) (fuel : nat) (file_path processed_save_path : string)
    (metadata : option metadata_t) (target_sample_rate : Z) (target_bpm : Q)
    (preserve_bpm : bool) (target_beats : Z) (confidence_threshold : R)
    (required_time_sig : Z) :
  only_touches
    [processed_save_path; output_atempo_of file_path; output_asetrate_of file_path;
     ("temp_before_alignment_" ++ basename file_path)%string]
    (process_wav_with_beat_alignment w fuel file_path processed_save_path metadata
       target_sample_rate target_bpm preserve_bpm target_beats confidence_threshold
       required_time_sig).
Proof. unfold process_wav_with_beat_alignment. repeat frame_step. Qed.

Lemma process_wav_with_beat_alignment_only_touches_witness :
  snd (process_wav_with_beat_alignment short_clip_world 0 "loop.wav" "out.wav"
         None TARGET_SAMPLE_RATE 120 false 32 0.3%R 4
         (disk_write empty_disk "other.wav" [[7]])) "other.wav"%string
  = Some [[7]].
Proof.
  apply (process_wav_with_beat_alignment_only_touches short_clip_world 0 "loop.wav"
           "out.wav" None TARGET_SAMPLE_RATE 120 false 32 0.3%R 4
           (disk_write empty_disk "other.wav" [[7]]) "other.wav"%string).
  simpl. intros [H|[H|[H|[H|[]]]]]; discriminate H.
Defined.

(** ** Beat-aligned windower: what it reports *)

Lemma calculate_beat_confidence_bounds (beat_times : list R) (c : R) :
  calculate_beat_confidence beat_times = Ok c -> (0 <= c <= 1)%R.
Proof.
  destruct (Nat.lt_ge_cases (length beat_times) 3) as [Hfew|Hmany].
  - rewrite calculate_beat_confidence_few by exact Hfew.
    intros H. injection H as <-. lra.
  - destruct (calculate_beat_confidence_unfold beat_times Hmany)
      as (mean & std & _ & _ & ->).
    intros H. injection H as <-.
    destruct (Req_dec_T mean 0); [lra|apply clamp_range].
Qed.

(** What the tracker returns: nothing at all, or beat times with the
    confidence computed from them. *)
Lemma detect_beats_and_downbeats_inversion {sample : Type} (w : World sample)
    (audio_path : string) (target_sample_rate required_time_sig : Z)
    (det : Detection) :
  detect_beats_and_downbeats w audio_path target_sample_rate required_time_sig
  = Ok det ->
  det = no_detection \/
  exists beat_times,
    det_beat_times det = Some beat_times /\
    calculate_beat_confidence beat_times = Ok (det_confidence det).
Proof.
  unfold detect_beats_and_downbeats.
  destruct (estimate_time_signature w audio_path) as [ts| |];
    cbn [bind try_except]; [|intros H; injection H as <-; now left|discriminate].
  destruct (negb (ts =? required_time_sig));
    [cbn [try_except]; intros H; injection H as <-; now left|].
  destruct (librosa_load w audio_path _) as [[y sr]| |];
    cbn [bind try_except]; [|intros H; injection H as <-; now left|discriminate].
  destruct (beat_track w y sr) as [[tempo beat_frames]| |];
    cbn [bind try_except]; [|intros H; injection H as <-; now left|discriminate].
  destruct (estimate_downbeats_librosa w y sr beat_frames ts) as [downbeats| |];
    cbn [bind try_except]; [|intros H; injection H as <-; now left|discriminate].
  destruct (calculate_beat_confidence _) as [c| |] eqn:Ec;
    cbn [bind try_except]; [|intros H; injection H as <-; now left|discriminate].
  intros H. injection H as <-. right. eexists. split; [reflexivity|exact Ec].
Qed.

Lemma detect_beats_and_downbeats_confidence {sample : Type} (w : World sample)
    (audio_path : string) (target_sample_rate required_time_sig : Z)
    (det : Detection) :
  detect_beats_and_downbeats w audio_path target_sample_rate required_time_sig
  = Ok det ->
  (0 <= det_confidence det <= 1)%R.
Proof.
  intros H.
  destruct (detect_beats_and_downbeats_inversion _ _ _ _ _ H)
    as [->|(beat_times & _ & Hc)].
  - cbn [no_detection det_confidence]. lra.
  - exact (calculate_beat_confidence_bounds _ _ Hc).
Qed.

Lemma fallback_condition_false (det : Detection) (confidence_threshold : R) :
  fallback_condition det confidence_threshold = Ok false ->
  exists beat_times downbeat_indices,
    det_beat_times det = Some beat_times /\
    det_downbeat_indices det = Some downbeat_indices /\
    ~ (det_confidence det < confidence_threshold)%R /\
    (4 <= length beat_times)%nat /\ (1 <= length downbeat_indices)%nat.
Proof.
  unfold fallback_condition.
  destruct (det_beat_times det) as [beat_times|]; [|discriminate].
  destruct (Rlt_dec _ _) as [|Hconf]; [discriminate|].
  destruct (length beat_times <? 4)%nat eqn:Hlen; [discriminate|].
  destruct (det_downbeat_indices det) as [downbeat_indices|]; [|discriminate].
  intros H. injection H as H. apply Nat.eqb_neq in H. apply Nat.ltb_ge in Hlen.
  exists beat_times, downbeat_indices. repeat split; try assumption. lia.
Qed.


Lemma align_try_info {sample : Type} (w : World sample) (audio_path : string)
    (target_beats target_sample_rate : Z) (confidence_threshold : R)
    (clip : list sample) (info : BeatInfo) :
  align_try w audio_path target_beats target_sample_rate confidence_threshold
    = Ok (clip, info) ->
  info_sound info (Z.of_nat (length clip))
             (target_samples_of target_beats target_sample_rate)
             confidence_threshold.
Proof.
  unfold align_try. intros H.
  apply bind_ok in H. destruct H as (wav & _ & H).
  apply bind_ok in H. destruct H as (det & Hdet & H).
  pose proof (detect_beats_and_downbeats_confidence _ _ _ _ _ Hdet) as Hconf.
  apply bind_ok in H. destruct H as ([|] & Hfb & H).
  - apply bind_ok in H. destruct H as (p & _ & H).
    injection H as <- <-. unfold info_sound. cbn.
    repeat split; try apply Hconf; discriminate.
  - destruct (fallback_condition_false _ _ Hfb)
      as (beat_times & downbeat_indices & Hbt & Hdi & Hthr & Hn & Hk).
    rewrite Hbt, Hdi in H.
    apply bind_ok in H. destruct H as (downbeat_samples & _ & H).
    apply bind_ok in H. destruct H as (found & _ & H).
    apply bind_ok in H. destruct H as ([segment aligned] & _ & H).
    apply bind_ok in H. destruct H as (p & _ & H).
    injection H as <- <-. unfold info_sound. cbn.
    repeat split; try apply Hconf; try assumption; eauto.
Qed.

Lemma align_except_info {sample : Type} (w : World sample) (audio_path : string)
    (target_beats target_sample_rate : Z) (confidence_threshold : R)
    (clip : list sample) (info : BeatInfo) :
  align_except w audio_path target_beats target_sample_rate = Ok (clip, info) ->
  info_sound info (Z.of_nat (length clip))
             (target_samples_of target_beats target_sample_rate)
             confidence_threshold.
Proof.
  unfold align_except. intros H.
  apply bind_ok in H. destruct H as (wav & _ & H).
  apply bind_ok in H. destruct H as (p & _ & H).
  injection H as <- <-. unfold info_sound. cbn.
  repeat split; try lra; discriminate.
Qed.

(** X16. The windower never raises.  When it reports failure it has written
    nothing; when it reports success it has written the returned clip to
    [output_path], and its [beat_info] is sound: the target and actual
    sample counts are the target length and the length of the clip, the
    confidence lies in [0, 1], and [aligned] is only set for a confidence
    at or above the threshold, at least four beats and at least one
    downbeat, together with a start sample. *)
Theorem align_to_downbeat_and_normalize_beats_outcome {sample : Type}
    (w : World sample) (audio_path output_path : string)
    (target_beats target_sample_rate : Z) (confidence_threshold : R) (d : disk) :
  (forall e,
      fst (align_to_downbeat_and_normalize_beats w audio_path output_path
             target_beats target_sample_rate confidence_threshold d) <> Raise e) /\
  (forall r d',
      align_to_downbeat_and_normalize_beats w audio_path output_path target_beats
        target_sample_rate confidence_threshold d = (Ok r, d') ->
      (r = align_failed /\ d' = d) \/
      (exists clip info,
          r = align_ok (clip, info) /\
          d' = disk_write d output_path [clip] /\
          info_sound info (Z.of_nat (length clip))
                     (target_samples_of target_beats target_sample_rate)
                     confidence_threshold)).
Proof.
  split.
  - assert (Hhandler : forall e d0,
      fst (align_handler w audio_path output_path target_beats target_sample_rate
             d0) <> Raise e).
    { intros e d0. unfold align_handler.
      destruct (align_except _ _ _ _) as [saved| |]; [|discriminate..].
      unfold save_clip, torchaudio_save, io_ret.
      destruct (torchaudio_save_outcome w output_path [fst saved]); discriminate. }
    intros e. unfold align_to_downbeat_and_normalize_beats.
    destruct (align_try _ _ _ _ _) as [saved| |];
      [|apply Hhandler|discriminate].
    unfold save_clip at 1, torchaudio_save.
    destruct (torchaudio_save_outcome w output_path [fst saved]);
      [discriminate|apply Hhandler|discriminate].
  - intros r d' Hrun.
    destruct (align_run_inversion _ _ _ _ _ _ _ _ _ Hrun)
      as [[-> ->]|(clip & info & -> & -> & _ & Hblock)]; [now left|right].
    exists clip, info. split; [reflexivity|]. split; [reflexivity|].
    destruct Hblock as [Etry|Eexc].
    + exact (align_try_info _ _ _ _ _ _ _ Etry).
    + exact (align_except_info _ _ _ _ _ _ _ Eexc).
Qed.

(** ** Time signature: what the estimator can answer *)

(** X17. [estimate_time_signature] never raises: each of its answers is 3,
    4 or 6 beats per bar, or the sentinel 0 of its exception handler, which
    is what a file that cannot be loaded gets. *)
Theorem estimate_time_signature_outcome {sample : Type} (w : World sample)
    (audio_path : string) :
  (forall e, estimate_time_signature w audio_path <> Raise e) /\
  (forall v, estimate_time_signature w audio_path = Ok v -> In v [0; 3; 4; 6]) /\
  (forall e, librosa_load w audio_path None = Raise e ->
             estimate_time_signature w audio_path = Ok 0).
Proof.
  split; [intros e; apply estimate_time_signature_no_raise|].
  split; [intros v; apply estimate_time_signature_values|].
  intros e. apply estimate_time_signature_load_fails.
Qed.

(** X18. Because the estimator swallows its own errors, the driver's
    [failed] answer for a time-signature error is never given: an existing
    file that cannot be decoded is reported as [skipped_time_sig], with a
    detected time signature of 0, and nothing is written. *)
Theorem process_wav_with_beat_alignment_undecodable {sample : Type}
    (w : World sample) (fuel : nat) (file_path processed_save_path : string)
    (metadata : option metadata_t) (target_sample_rate : Z) (target_bpm : Q)
    (preserve_bpm : bool) (target_beats : Z) (confidence_threshold : R)
    (required_time_sig : Z) (d : disk) (e : exn) :
  os_path_exists w file_path = true ->
  librosa_load w file_path None = Raise e ->
  required_time_sig <> 0 ->
  process_wav_with_beat_alignment w fuel file_path processed_save_path metadata
    target_sample_rate target_bpm preserve_bpm target_beats confidence_threshold
    required_time_sig d
  = (Ok {| out_path := None; out_final_bpm := None;
           out_info := Some (time_signature_mismatch 0 required_time_sig);
           out_status := skipped_time_sig |}, d).
Proof.
  intros Hex Hload Hreq. unfold process_wav_with_beat_alignment.
  rewrite Hex. cbn [negb].
  rewrite (estimate_time_signature_load_fails w file_path e Hload).
  cbn [bind try_except]. unfold io_bind at 1. unfold io_lift at 1.
  rewrite (proj2 (Z.eqb_neq 0 required_time_sig)) by lia.
  reflexivity.
Qed.

Lemma process_wav_with_beat_alignment_undecodable_witness :
  process_wav_with_beat_alignment unreadable_world 0 "loop.wav" "out.wav" None
    TARGET_SAMPLE_RATE 120 false 32 0.3%R 4 empty_disk
  = (Ok {| out_path := None; out_final_bpm := None;
           out_info := Some (time_signature_mismatch 0 4);
           out_status := skipped_time_sig |}, empty_disk).
Proof.
  apply (process_wav_with_beat_alignment_undecodable unreadable_world 0 "loop.wav"
           "out.wav" None TARGET_SAMPLE_RATE 120 false 32 0.3%R 4 empty_disk
           RuntimeError); [reflexivity|reflexivity|lia].
Defined.

(** ** Downbeat estimators *)

Lemma arange_from_length (count : nat) (start step : Z) :
  length (arange_from count start step) = count.
Proof.
  revert start. induction count as [|k IH]; intros start; simpl;
    [reflexivity|now rewrite IH].
Qed.

Lemma arange_from_In (count : nat) (start step x : Z) :
  In x (arange_from count start step) <->
  exists k, (k < count)%nat /\ x = start + Z.of_nat k * step.
Proof.
  revert start. induction count as [|c IH]; intros start; simpl.
  - split; [tauto|]. intros (k & Hk & _). lia.
  - rewrite IH. split.
    + intros [<-|(k & Hk & ->)]; [exists 0%nat; split; lia|].
      exists (S k). split; lia.
    + intros ([|k] & Hk & ->); [left; lia|].
      right. exists k. split; lia.
Qed.

(** The stride loop builds the arithmetic progression from [pos]. *)
Lemma downbeat_loop_arange (time_signature n : Z) (fuel : nat) :
  forall pos indices,
    downbeat_loop fuel pos time_signature n = Ok indices ->
    indices = arange_from (length indices) pos time_signature.
Proof.
  induction fuel as [|fuel IH]; intros pos indices; simpl.
  - destruct (pos <? n); [discriminate|]. intros H. now injection H as <-.
  - destruct (pos <? n); [|intros H; now injection H as <-].
    intros H. apply bind_ok in H. destruct H as (rest & Hrest & H).
    injection H as <-. simpl. f_equal. now apply IH.
Qed.

(** X19. For a time signature of at least 1, [estimate_downbeats_simple]
    returns the indices below the number of beats that are multiples of the
    time signature, in increasing order.  Its special case for fewer beats
    than a bar holds gives the same answer as the general rule. *)
Theorem estimate_downbeats_simple_spec {A : Type} (beat_times_or_frames : list A)
    (time_signature : Z) :
  1 <= time_signature ->
  exists indices,
    estimate_downbeats_simple beat_times_or_frames time_signature = Ok indices /\
    indices = arange_from (length indices) 0 time_signature /\
    (forall x, In x indices <->
               0 <= x < Z.of_nat (length beat_times_or_frames) /\
               x mod time_signature = 0).
Proof.
  intros Hts. unfold estimate_downbeats_simple.
  set (n := Z.of_nat (length beat_times_or_frames)).
  assert (Hn : 0 <= n) by (subst n; lia).
  destruct (n <? time_signature) eqn:Efew.
  - apply Z.ltb_lt in Efew.
    destruct (0 <? length beat_times_or_frames)%nat eqn:E0.
    + apply Nat.ltb_lt in E0. exists [0]. split; [reflexivity|].
      split; [reflexivity|]. intros x. simpl. split.
      * intros [<-|[]]. split; [subst n; lia|apply Z.mod_0_l; lia].
      * intros [Hx Hmod]. left. rewrite Z.mod_small in Hmod by lia. lia.
    + apply Nat.ltb_ge in E0. exists []. split; [reflexivity|].
      split; [reflexivity|]. intros x. simpl. split; [tauto|].
      intros [Hx _]. subst n. lia.
  - apply Z.ltb_ge in Efew. unfold np_arange0.
    rewrite (proj2 (Z.eqb_neq _ _)) by lia.
    set (count := Z.to_nat (- ((- n) / time_signature))).
    exists (arange_from count 0 time_signature).
    split; [reflexivity|]. split; [now rewrite arange_from_length|].
    pose proof (Z.div_mod (- n) time_signature ltac:(lia)) as Hdiv.
    pose proof (Z.mod_pos_bound (- n) time_signature ltac:(lia)) as Hrem.
    assert (Hc : 0 <= - ((- n) / time_signature)).
    { assert ((- n) / time_signature <= 0) by (apply Z.div_le_upper_bound; lia).
      lia. }
    intros x. rewrite arange_from_In. split.
    + intros (k & Hk & ->). rewrite Z.add_0_l. split.
      * subst count. nia.
      * apply Z.mod_mul. lia.
    + intros [Hx Hmod].
      apply Z.mod_divide in Hmod; [|lia]. destruct Hmod as (q & ->).
      exists (Z.to_nat q). split; [subst count; nia|]. nia.
Qed.

Lemma estimate_downbeats_simple_spec_witness :
  exists indices,
    estimate_downbeats_simple [10; 20; 30; 40; 50; 60; 70; 80; 90] 4 = Ok indices /\
    indices = arange_from (length indices) 0 4 /\
    (forall x, In x indices <->
               0 <= x < Z.of_nat (length [10; 20; 30; 40; 50; 60; 70; 80; 90]) /\
               x mod 4 = 0).
Proof.
  apply (estimate_downbeats_simple_spec [10; 20; 30; 40; 50; 60; 70; 80; 90] 4).
  lia.
Defined.

(** X20. For a time signature of at least 1, every index array returned by
    [estimate_downbeats_librosa] is a grid: it starts at an index below the
    time signature, advances by the time signature, and stays inside the
    beat array. *)
Theorem estimate_downbeats_librosa_grid {sample : Type} (w : World sample)
    (y : list R) (sr : Z) (beat_frames : list nat) (time_signature : Z)
    (indices : list Z) :
  1 <= time_signature ->
  estimate_downbeats_librosa w y sr beat_frames time_signature = Ok (Some indices) ->
  exists first,
    0 <= first < time_signature /\
    indices = arange_from (length indices) first time_signature /\
    Forall (fun i => 0 <= i < Z.of_nat (length beat_frames)) indices.
Proof.
  intros Hts Hrun.
  pose proof (estimate_downbeats_librosa_in_range w y sr beat_frames time_signature
                indices Hts Hrun) as Hrange.
  assert (Hempty : exists first,
             0 <= first < time_signature /\
             @nil Z = arange_from (length (@nil Z)) first time_signature)
    by (exists 0; split; [lia|reflexivity]).
  revert Hrun. unfold estimate_downbeats_librosa.
  destruct (Z.of_nat (length beat_frames) <? time_signature).
  { cbn [try_except]. intros H. injection H as <-.
    exists 0. split; [lia|]. split; [|exact Hrange].
    destruct (0 <? length beat_frames)%nat; reflexivity. }
  destruct (onset_strength w y sr) as [onset_env| |]; cbn [bind try_except];
    [|intros H; injection H as <-;
      destruct Hempty as (f & Hf & E); exists f; auto|discriminate].
  destruct (length (filter _ beat_frames) =? 0)%nat.
  { cbn [try_except]. intros H. injection H as <-.
    destruct Hempty as (f & Hf & E); exists f; auto. }
  destruct (chroma_stft w y sr) as [chroma| |]; cbn [bind try_except];
    [|intros H; injection H as <-;
      destruct Hempty as (f & Hf & E); exists f; auto|discriminate].
  destruct (util_sync w chroma _) as [chroma_beats| |]; cbn [bind try_except];
    [|intros H; injection H as <-;
      destruct Hempty as (f & Hf & E); exists f; auto|discriminate].
  destruct (find_peaks_distance w _ time_signature) as [[|p0 peaks]| |];
    cbn [bind try_except];
    [discriminate|
     |intros H; injection H as <-;
      destruct Hempty as (f & Hf & E); exists f; auto|discriminate].
  set (first := if Z.of_nat p0 <? time_signature then Z.of_nat p0 else 0).
  assert (Hfirst : 0 <= first < time_signature).
  { subst first. destruct (Z.of_nat p0 <? time_signature) eqn:E;
      [apply Z.ltb_lt in E|]; lia. }
  destruct (downbeat_loop _ first time_signature _) as [loop| |] eqn:Hloop;
    cbn [bind try_except];
    [|intros H; injection H as <-;
      destruct Hempty as (f & Hf & E); exists f; auto|discriminate].
  intros H. injection H as <-. exists first. split; [exact Hfirst|].
  split; [|exact Hrange]. exact (downbeat_loop_arange _ _ _ _ _ Hloop).
Qed.

Lemma estimate_downbeats_librosa_grid_witness :
  exists first,
    0 <= first < 4 /\
    [0] = arange_from (length [0]) first 4 /\
    Forall (fun i => 0 <= i < Z.of_nat (length [0; 1; 2; 3]%nat)) [0].
Proof.
  apply (estimate_downbeats_librosa_grid irregular_beats_world [0; 0; 0]%R 22050
           [0; 1; 2; 3]%nat 4 [0]); [lia|reflexivity].
Defined.

(** ** Beat-aligned windower: the aligned cut *)

Lemma py_slice_from {A : Type} (l : list A) (s : Z) :
  0 <= s <= Z.of_nat (length l) ->
  py_slice l (Some s) None = skipn (Z.to_nat s) l.
Proof.
  intros Hs. unfold py_slice, slice_index.
  rewrite (proj2 (Z.ltb_ge _ _)) by lia. rewrite Z.min_l by lia.
  apply firstn_all2. rewrite length_skipn. lia.
Qed.

Lemma py_slice_between {A : Type} (l : list A) (s e : Z) :
  0 <= s <= e -> e <= Z.of_nat (length l) ->
  py_slice l (Some s) (Some e) = firstn (Z.to_nat (e - s)) (skipn (Z.to_nat s) l).
Proof.
  intros Hs He. unfold py_slice, slice_index.
  rewrite !(proj2 (Z.ltb_ge _ _)) by lia. rewrite !Z.min_l by lia. reflexivity.
Qed.

(** X21. When the chosen start sample lies inside the audio, the clip the
    windower saves is the audio from the start sample on, looped from the
    start sample (not from the beginning of the file) when it runs out:
    sample [i] of the clip is sample [start + i mod (length - start)] of the
    audio, the clip has exactly the target length, and it is marked
    aligned. *)
Theorem extract_segment_aligned_cut {sample : Type} (wav : list sample)
    (start_sample target_samples : Z) :
  0 <= start_sample < Z.of_nat (length wav) ->
  0 < target_samples ->
  exists segment out,
    extract_segment wav start_sample target_samples = Ok (segment, true) /\
    ensure_exact_length segment target_samples = Ok out /\
    length out = Z.to_nat target_samples /\
    (forall i, (i < Z.to_nat target_samples)%nat ->
       nth_error out i
       = nth_error wav (Z.to_nat start_sample
                        + i mod (length wav - Z.to_nat start_sample))).
Proof.
  intros Hs Ht.
  set (s := Z.to_nat start_sample).
  set (tail := skipn s wav).
  assert (Htail : length tail = (length wav - s)%nat) by apply length_skipn.
  assert (Hnth : forall j, nth_error tail j = nth_error wav (s + j))
    by (intros j; apply nth_error_skipn).
  assert (Hne : tail <> []).
  { intros E. rewrite E in Htail. simpl in Htail. subst s. lia. }
  unfold extract_segment.
  rewrite (proj2 (Z.leb_gt _ _)) by lia.
  destruct (start_sample + target_samples <=? Z.of_nat (length wav)) eqn:Eend.
  - apply Z.leb_le in Eend.
    rewrite py_slice_between by lia.
    replace (start_sample + target_samples - start_sample) with target_samples
      by lia.
    fold s. fold tail.
    exists (firstn (Z.to_nat target_samples) tail),
           (firstn (Z.to_nat target_samples) tail).
    assert (Hlen : length (firstn (Z.to_nat target_samples) tail)
                   = Z.to_nat target_samples).
    { rewrite length_firstn, Htail. subst s. lia. }
    split; [reflexivity|].
    split; [apply ensure_exact_length_same; rewrite Hlen; lia|].
    split; [exact Hlen|].
    intros i Hi. rewrite firstn_nth_error_lt by exact Hi.
    rewrite Hnth. rewrite Nat.mod_small by (subst s; lia). reflexivity.
  - apply Z.leb_gt in Eend.
    rewrite (proj2 (Z.ltb_lt _ _)) by lia.
    unfold np_ceil_div. rewrite (proj2 (Z.eqb_neq _ _)) by lia.
    cbn [bind]. unfold tensor_repeat.
    set (avail := Z.of_nat (length wav) - start_sample).
    assert (Havail : 0 < avail) by (subst avail; lia).
    pose proof (ceil_div_lower target_samples avail Havail Ht) as Hlow.
    pose proof (ceil_div_covers target_samples avail Havail) as Hcov.
    rewrite (proj2 (Z.ltb_ge _ _)) by lia. cbn [bind].
    rewrite py_slice_from by lia. fold s. fold tail.
    set (loops := Z.to_nat (- ((- target_samples) / avail))).
    assert (Hlong : (Z.to_nat target_samples <= loops * length tail)%nat).
    { rewrite Htail. subst loops avail s. nia. }
    assert (Hseg : tile loops tail <> []).
    { intros E. pose proof (tile_length loops tail) as Hl.
      rewrite E in Hl. simpl in Hl. lia. }
    destruct (ensure_exact_length_samples (tile loops tail) target_samples Hseg
                ltac:(lia)) as (out & Hout & Hlen & Hsamples).
    exists (tile loops tail), out.
    split; [reflexivity|]. split; [exact Hout|]. split; [exact Hlen|].
    intros i Hi. rewrite Hsamples by exact Hi.
    rewrite tile_length. rewrite Nat.mod_small by lia.
    rewrite tile_nth_error by (try exact Hne; lia).
    rewrite Hnth, Htail. reflexivity.
Qed.

Lemma extract_segment_aligned_cut_witness :
  exists segment out,
    extract_segment [10; 20; 30; 40; 50] 3 5 = Ok (segment, true) /\
    ensure_exact_length segment 5 = Ok out /\
    length out = Z.to_nat 5 /\
    (forall i, (i < Z.to_nat 5)%nat ->
       nth_error out i
       = nth_error [10; 20; 30; 40; 50]
           (Z.to_nat 3 + i mod (length [10; 20; 30; 40; 50] - Z.to_nat 3))).
Proof.
  apply (extract_segment_aligned_cut [10; 20; 30; 40; 50] 3 5); simpl; lia.
Defined.

(** X22. On downbeat indices that point into the beat array, the scan for
    the start sample is a first-fit search: it answers the sample of the
    first downbeat that still has [target_beats] beats after it, and
    nothing when no downbeat has. *)
Theorem find_start_is_first_fit (beat_samples : list Z)
    (num_beats target_beats : Z) (downbeat_indices : list Z) :
  Forall (fun i => 0 <= i < Z.of_nat (length beat_samples)) downbeat_indices ->
  find_start beat_samples num_beats target_beats downbeat_indices
  = Ok (option_map (fun i => nth (Z.to_nat i) beat_samples 0)
          (find (fun i => target_beats <=? num_beats - i) downbeat_indices)).
Proof.
  induction 1 as [|i rest Hi Hrest IH]; [reflexivity|].
  cbn [find_start find]. unfold np_index.
  rewrite (proj2 (Z.ltb_ge i _)) by lia.
  rewrite (proj2 (Z.leb_gt _ i)) by lia.
  rewrite (proj2 (Z.ltb_ge i 0)) by lia. cbn [orb bind].
  destruct (target_beats <=? num_beats - i); [reflexivity|exact IH].
Qed.

Lemma find_start_is_first_fit_witness :
  find_start [0; 22050; 44100; 66150; 88200; 110250] 6 4 [3; 1]
  = Ok (Some 22050).
Proof.
  apply (find_start_is_first_fit [0; 22050; 44100; 66150; 88200; 110250] 6 4 [3; 1]).
  repeat constructor; simpl; lia.
Defined.

(** ** Beat confidence: invariance *)

Lemma np_diff_affine (k c : R) (l : list R) :
  np_diff (map (fun t => k * t + c)%R l) = map (Rmult k) (np_diff l).
Proof.
  induction l as [|a l IH]; [reflexivity|].
  destruct l as [|b l]; [reflexivity|].
  change (np_diff (map (fun t => k * t + c) (a :: b :: l))%R)
    with ((k * b + c - (k * a + c))%R
          :: np_diff (map (fun t => k * t + c)%R (b :: l))).
  rewrite IH.
  change (np_diff (a :: b :: l)) with ((b - a)%R :: np_diff (b :: l)).
  cbn [map]. f_equal. ring.
Qed.

Lemma np_sum_scale (k : R) (l : list R) :
  np_sum (map (Rmult k) l) = (k * np_sum l)%R.
Proof.
  unfold np_sum. induction l as [|a l IH]; simpl; [ring|].
  rewrite IH. ring.
Qed.

Lemma np_mean_scale (k : R) (l : list R) (m : R) :
  np_mean l = Ok m -> np_mean (map (Rmult k) l) = Ok (k * m)%R.
Proof.
  unfold np_mean, float_div. rewrite length_map, np_sum_scale.
  destruct (Req_dec_T _ 0); [discriminate|].
  intros H. injection H as <-. f_equal. field. assumption.
Qed.

Lemma np_std_scale (k : R) (l : list R) (s : R) :
  (0 <= k)%R -> np_std l = Ok s -> np_std (map (Rmult k) l) = Ok (k * s)%R.
Proof.
  intros Hk. unfold np_std. intros H.
  apply bind_ok in H. destruct H as (m & Hm & H).
  apply bind_ok in H. destruct H as (v & Hv & H). injection H as <-.
  rewrite (np_mean_scale k l m Hm). cbn [bind].
  rewrite map_map.
  rewrite (map_ext _ (fun x => (k * k) * ((x - m) * (x - m)))%R)
    by (intros x; ring).
  rewrite <- (map_map (fun x => (x - m) * (x - m))%R (Rmult (k * k))).
  rewrite (np_mean_scale (k * k) _ v Hv). cbn [bind]. f_equal.
  rewrite sqrt_mult_alt by nra. now rewrite sqrt_square.
Qed.

(** X23. The confidence depends on the rhythm only, not on where the beats
    lie in time nor on the tempo: moving every beat by the same offset and
    stretching time by a positive factor leave it unchanged. *)
Theorem calculate_beat_confidence_affine (k c : R) (beat_times : list R) :
  (0 < k)%R ->
  calculate_beat_confidence (map (fun t => k * t + c)%R beat_times)
  = calculate_beat_confidence beat_times.
Proof.
  intros Hk. unfold calculate_beat_confidence.
  rewrite np_diff_affine, !length_map.
  destruct (length beat_times <? 3)%nat; [reflexivity|].
  destruct (length (np_diff beat_times) =? 0)%nat eqn:E; [reflexivity|].
  apply Nat.eqb_neq in E.
  assert (Hne : np_diff beat_times <> []) by (intros H; now rewrite H in E).
  destruct (np_std_nonempty _ Hne) as (s & Hs & _).
  pose proof (np_mean_nonempty _ Hne) as Hm.
  rewrite (np_mean_scale k _ _ Hm), (np_std_scale k _ _ ltac:(lra) Hs), Hm, Hs.
  cbn [bind]. set (m := (np_sum _ / _)%R).
  destruct (Req_dec_T m 0) as [E0|E0].
  - destruct (Req_dec_T (k * m) 0) as [_|N]; [reflexivity|].
    exfalso. apply N. rewrite E0. ring.
  - destruct (Req_dec_T (k * m) 0) as [Z0|_]; [exfalso; nra|].
    unfold float_div.
    destruct (Req_dec_T (k * m) 0) as [Z0|_]; [exfalso; nra|].
    destruct (Req_dec_T m 0) as [Z0|_]; [contradiction|].
    cbn [bind]. do 3 f_equal. field. split; lra.
Qed.

Lemma calculate_beat_confidence_affine_witness :
  calculate_beat_confidence (map (fun t => 2 * t + 5)%R [0; 1; 2; 10]%R)
  = calculate_beat_confidence [0; 1; 2; 10]%R.
Proof. apply (calculate_beat_confidence_affine 2 5 [0; 1; 2; 10]%R). lra. Defined.

(** ** Beat confidence: evenly spaced beats *)

Lemma np_sum_repeat (x : R) (n : nat) :
  np_sum (repeat x n) = (INR n * x)%R.
Proof.
  unfold np_sum. induction n as [|n IH]; [simpl; ring|].
  cbn [repeat fold_right]. rewrite IH, S_INR. ring.
Qed.

Lemma np_mean_repeat (x : R) (n : nat) :
  n <> 0%nat -> np_mean (repeat x n) = Ok x.
Proof.
  intros Hn. unfold np_mean, float_div. rewrite repeat_length, np_sum_repeat.
  pose proof (not_0_INR n Hn) as HINR.
  destruct (Req_dec_T (INR n) 0); [contradiction|]. f_equal. now field.
Qed.

(** X24. Three or more beats whose successive gaps are all the same
    non-zero value get the confidence 1. *)
Theorem calculate_beat_confidence_even (beat_times : list R) (gap : R) :
  (3 <= length beat_times)%nat ->
  gap <> 0%R ->
  Forall (eq gap) (np_diff beat_times) ->
  calculate_beat_confidence beat_times = Ok 1%R.
Proof.
  intros Hlen Hgap Heven.
  destruct (calculate_beat_confidence_unfold beat_times Hlen)
    as (mean & std & Hmean & Hstd & ->).
  apply Forall_eq_repeat in Heven.
  assert (Hn : length (np_diff beat_times) <> 0%nat)
    by (rewrite np_diff_length; lia).
  rewrite Heven in Hmean, Hstd.
  rewrite np_mean_repeat in Hmean by exact Hn. injection Hmean as <-.
  unfold np_std in Hstd. rewrite np_mean_repeat in Hstd by exact Hn.
  cbn [bind] in Hstd. rewrite map_repeat in Hstd.
  rewrite np_mean_repeat in Hstd by exact Hn. cbn [bind] in Hstd.
  injection Hstd as <-.
  replace ((gap - gap) * (gap - gap))%R with 0%R by ring. rewrite sqrt_0.
  destruct (Req_dec_T gap 0); [contradiction|]. f_equal.
  replace (1 - 0 / gap * 2)%R with 1%R by (field; assumption).
  unfold Rmin, Rmax. destruct (Rle_dec 0 1); [|lra].
  destruct (Rle_dec 1 1); lra.
Qed.

Lemma calculate_beat_confidence_even_witness :
  calculate_beat_confidence [0; 1; 2; 3]%R = Ok 1%R.
Proof.
  apply (calculate_beat_confidence_even [0; 1; 2; 3]%R 1%R);
    [simpl; lia|lra|repeat constructor; lra].
Defined.

(** ** BPM filter *)

Lemma filter_loop_spec {sample : Type} (w : World sample) (input_dir : string)
    (metadata : option metadata_t) (min_bpm max_bpm : Q) (max_files : option Z) :
  forall (files acc out : list string),
    (forall k, files_limit max_files = Some k -> (length acc < k)%nat) ->
    filter_loop w input_dir metadata min_bpm max_bpm max_files files acc = Ok out ->
    out = acc ++
          match files_limit max_files with
          | Some k =>
              firstn (k - length acc)
                     (filter (bpm_in_range w input_dir metadata min_bpm max_bpm) files)
          | None => filter (bpm_in_range w input_dir metadata min_bpm max_bpm) files
          end.
Proof.
  induction files as [|f rest IH]; intros acc out Hinv Hrun.
  - cbn [filter_loop] in Hrun. injection Hrun as <-. cbn [filter].
    destruct (files_limit max_files); [rewrite firstn_nil|]; now rewrite app_nil_r.
  - cbn [filter_loop] in Hrun. cbn [filter].
    assert (HP : bpm_in_range w input_dir metadata min_bpm max_bpm f
                 = match get_file_bpm w (os_path_join input_dir f) metadata with
                   | Ok (Some bpm) => Qle_bool min_bpm bpm && Qle_bool bpm max_bpm
                   | _ => false
                   end) by reflexivity.
    destruct (get_file_bpm w (os_path_join input_dir f) metadata)
      as [[bpm|]| |]; cbn [bind] in Hrun; [| |discriminate..]; rewrite HP.
    + destruct (Qle_bool min_bpm bpm && Qle_bool bpm max_bpm).
      * destruct (reached_max max_files (acc ++ [f])) eqn:Hmax.
        -- injection Hrun as <-. unfold reached_max in Hmax.
           destruct max_files as [m|]; [|discriminate]. cbn [files_limit option_map].
           apply Z.leb_le in Hmax. rewrite length_app in Hmax. simpl in Hmax.
           specialize (Hinv _ eq_refl).
           replace (Z.to_nat (Z.max 1 m) - length acc)%nat with 1%nat by lia.
           reflexivity.
        -- assert (Hinv' : forall k, files_limit max_files = Some k ->
                                     (length (acc ++ [f]) < k)%nat).
           { intros k Hk. unfold reached_max in Hmax.
             destruct max_files as [m|]; [|discriminate Hk].
             cbn [files_limit option_map] in Hk. injection Hk as <-.
             apply Z.leb_gt in Hmax. rewrite length_app in *. simpl in *. lia. }
           rewrite (IH _ _ Hinv' Hrun).
           rewrite <- app_assoc. f_equal.
           destruct (files_limit max_files) as [k|] eqn:Hk; [|reflexivity].
           specialize (Hinv' _ eq_refl). rewrite length_app in *.
           simpl length in *.
           replace (k - length acc)%nat with (S (k - (length acc + 1)))%nat by lia.
           reflexivity.
      * exact (IH _ _ Hinv Hrun).
    + exact (IH _ _ Hinv Hrun).
Qed.

Lemma firstn_incl {A : Type} (k : nat) (l : list A) (x : A) :
  In x (firstn k l) -> In x l.
Proof.
  intros H. rewrite <- (firstn_skipn k l). apply in_or_app. now left.
Qed.

(** X25. [filter_files_by_bpm] returns, in listing order, the WAV names of
    the listing whose BPM is known and within the bounds, cut after
    [max_files] names when a maximum is given.  Because the loop only stops
    after taking a name, one name is returned even for a maximum of zero or
    less. *)
Theorem filter_files_by_bpm_spec {sample : Type} (w : World sample)
    (listing : list string) (input_dir : string) (metadata : option metadata_t)
    (min_bpm max_bpm : Q) (max_files : option Z) (out : list string) :
  filter_files_by_bpm w listing input_dir metadata min_bpm max_bpm max_files
  = Ok out ->
  let matching :=
    filter (bpm_in_range w input_dir metadata min_bpm max_bpm)
           (filter is_wav_name listing) in
  out = match files_limit max_files with
        | Some k => firstn k matching
        | None => matching
        end /\
  Forall (fun f => In f listing /\ is_wav_name f = true /\
                   bpm_in_range w input_dir metadata min_bpm max_bpm f = true) out /\
  (forall m, max_files = Some m -> Z.of_nat (length out) <= Z.max 1 m).
Proof.
  intros Hrun matching. unfold filter_files_by_bpm in Hrun.
  apply filter_loop_spec in Hrun.
  2:{ intros k Hk. destruct max_files as [m|]; [|discriminate Hk].
      cbn [files_limit option_map] in Hk. injection Hk as <-. simpl. lia. }
  cbn [app length] in Hrun. fold matching in Hrun.
  assert (Hout : out = match files_limit max_files with
                       | Some k => firstn k matching
                       | None => matching
                       end).
  { rewrite Hrun. destruct (files_limit max_files); [|reflexivity].
    now rewrite Nat.sub_0_r. }
  split; [exact Hout|]. split.
  - apply Forall_forall. intros f Hf.
    assert (Hin : In f matching).
    { rewrite Hout in Hf. destruct (files_limit max_files);
        [now apply firstn_incl in Hf|exact Hf]. }
    unfold matching in Hin. apply filter_In in Hin. destruct Hin as [Hin Hbpm].
    apply filter_In in Hin. destruct Hin as [Hin Hwav]. auto.
  - intros m ->. rewrite Hout. cbn [files_limit option_map].
    rewrite length_firstn. lia.
Qed.

Lemma filter_files_by_bpm_spec_witness :
  ["a.wav"; "B.WAV"]%string
  = firstn 2 (filter (bpm_in_range converted_world "dir" None 90 110)
                (filter is_wav_name
                   ["a.wav"; "notes.txt"; "fast.wav"; "B.WAV"; "c.wav"]%string)).
Proof.
  exact (proj1 (filter_files_by_bpm_spec converted_world
                  ["a.wav"; "notes.txt"; "fast.wav"; "B.WAV"; "c.wav"]%string
                  "dir" None 90 110 (Some 2) ["a.wav"; "B.WAV"]%string eq_refl)).
Defined.

(** ** Beat-aligned windower: only four-four clips are aligned *)

Lemma waltz_time_signature : estimate_time_signature waltz_world "loop.wav" = Ok 3.
Proof.
  unfold estimate_time_signature.
  cbn [librosa_load onset_strength beat_track_onset waltz_world bind].
  change (length [0; 1; 2; 3; 4; 5; 6; 7; 8]%nat <? 8)%nat with false.
  cbv beta iota. unfold clip_index. cbn [bind].
  rewrite np_mean_nonempty by discriminate. reflexivity.
Qed.

(** X26. The windower always asks the tracker for four-four time, whatever
    time signature the driver was told to require.  So for a clip whose
    estimated time signature is not 4 it never reports an aligned cut: every
    [beat_info] it returns has [aligned = False], no start sample and a
    confidence of 0. *)
Theorem align_to_downbeat_requires_four_four {sample : Type} (w : World sample)
    (audio_path output_path : string) (target_beats target_sample_rate : Z)
    (confidence_threshold : R) (d d' : disk) (time_signature : Z)
    (r : AlignResult) (info : BeatInfo) :
  estimate_time_signature w audio_path = Ok time_signature ->
  time_signature <> 4 ->
  align_to_downbeat_and_normalize_beats w audio_path output_path target_beats
    target_sample_rate confidence_threshold d = (Ok r, d') ->
  ar_beat_info r = Some info ->
  bi_aligned info = false /\ bi_start_sample info = None /\
  bi_confidence info = 0%R.
Proof.
  intros Hts Hne Hrun Hinfo.
  pose proof (detect_beats_and_downbeats_mismatch w audio_path target_sample_rate
                4 time_signature Hts Hne) as Hdet.
  destruct (align_run_inversion _ _ _ _ _ _ _ _ _ Hrun)
    as [[-> _]|(clip & i & -> & _ & _ & Hblock)]; [discriminate Hinfo|].
  cbn in Hinfo. injection Hinfo as <-.
  destruct Hblock as [Etry|Eexc].
  - unfold align_try in Etry.
    apply bind_ok in Etry. destruct Etry as (wav & _ & Etry).
    rewrite Hdet in Etry. cbn [bind fallback_condition no_detection det_beat_times]
      in Etry.
    apply bind_ok in Etry. destruct Etry as (p & _ & Etry).
    injection Etry as _ <-. cbn. auto.
  - unfold align_except in Eexc.
    apply bind_ok in Eexc. destruct Eexc as (wav & _ & Eexc).
    apply bind_ok in Eexc. destruct Eexc as (p & _ & Eexc).
    injection Eexc as _ <-. cbn. auto.
Qed.

Lemma align_to_downbeat_requires_four_four_witness :
  bi_aligned (fallback_info no_detection (target_samples_of 2 4) 4) = false /\
  bi_start_sample (fallback_info no_detection (target_samples_of 2 4) 4) = None /\
  bi_confidence (fallback_info no_detection (target_samples_of 2 4) 4) = 0%R.
Proof.
  apply (align_to_downbeat_requires_four_four waltz_world "loop.wav" "out.wav" 2 4
           0.3%R empty_disk (disk_write empty_disk "out.wav" [[1; 2; 3; 1]]) 3
           (align_ok ([1; 2; 3; 1],
                      fallback_info no_detection (target_samples_of 2 4) 4)));
    [exact waltz_time_signature|lia| |reflexivity].
  apply (align_fallback_run waltz_world "loop.wav" "out.wav" 2 4 0.3%R [1; 2; 3]
           [1; 2; 3; 1] no_detection empty_disk);
    [reflexivity
    |exact (detect_beats_and_downbeats_mismatch waltz_world "loop.wav" 4 4 3
              waltz_time_signature ltac:(lia))
    |now left|reflexivity|reflexivity].
Defined.

(** ** Beat and downbeat tracker: what it returns *)

(** X27. [detect_beats_and_downbeats] never raises.  It returns beat data
    only for a clip whose estimated time signature is the required one, and
    then the confidence is the one computed from the returned beat times;
    in every other case, errors included, it returns no data at all with a
    confidence of 0.  The confidence always lies in [0, 1]. *)
Theorem detect_beats_and_downbeats_outcome {sample : Type} (w : World sample)
    (audio_path : string) (target_sample_rate required_time_sig : Z) :
  (forall e,
      detect_beats_and_downbeats w audio_path target_sample_rate required_time_sig
      <> Raise e) /\
  (forall det,
      detect_beats_and_downbeats w audio_path target_sample_rate required_time_sig
      = Ok det ->
      (0 <= det_confidence det <= 1)%R /\
      (det = no_detection \/
       exists beat_times tempo,
         estimate_time_signature w audio_path = Ok required_time_sig /\
         det_beat_times det = Some beat_times /\
         det_tempo det = Some tempo /\
         calculate_beat_confidence beat_times = Ok (det_confidence det))).
Proof.
  split; [intros e; apply detect_beats_and_downbeats_no_raise|].
  intros det Hdet.
  split; [exact (detect_beats_and_downbeats_confidence _ _ _ _ _ Hdet)|].
  revert Hdet. unfold detect_beats_and_downbeats.
  destruct (estimate_time_signature w audio_path) as [ts| |];
    cbn [bind try_except]; [|intros H; injection H as <-; now left|discriminate].
  destruct (ts =? required_time_sig) eqn:Ets; cbn [negb];
    [|cbn [try_except]; intros H; injection H as <-; now left].
  apply Z.eqb_eq in Ets. subst ts.
  destruct (librosa_load w audio_path _) as [[y sr]| |];
    cbn [bind try_except]; [|intros H; injection H as <-; now left|discriminate].
  destruct (beat_track w y sr) as [[tempo beat_frames]| |];
    cbn [bind try_except]; [|intros H; injection H as <-; now left|discriminate].
  destruct (estimate_downbeats_librosa w y sr beat_frames _) as [downbeats| |];
    cbn [bind try_except]; [|intros H; injection H as <-; now left|discriminate].
  destruct (calculate_beat_confidence _) as [c| |] eqn:Ec;
    cbn [bind try_except]; [|intros H; injection H as <-; now left|discriminate].
  intros H. injection H as <-. right.
  exists (frames_to_time w beat_frames sr), tempo. cbn. auto.
Qed.

(** ** Per-file driver: what it reports *)

(** X28. Each answer of the beat-alignment driver has one of three shapes.
    [failed] comes with no path, no BPM and no info.  [skipped_time_sig]
    comes with the detected and the required time signature, which differ,
    and nothing has been written.  [success] comes with the save path, the
    windower's [beat_info] and a final BPM that is not zero and is either
    the target BPM or the BPM found for the input file. *)
Theorem process_wav_with_beat_alignment_outcome {sample : Type}
    (w : World sample) (fuel : nat) (file_path processed_save_path : string)
    (metadata : option metadata_t) (target_sample_rate : Z) (target_bpm : Q)
    (preserve_bpm : bool) (target_beats : Z) (confidence_threshold : R)
    (required_time_sig : Z) (d d' : disk) (o : Outcome) :
  process_wav_with_beat_alignment w fuel file_path processed_save_path metadata
    target_sample_rate target_bpm preserve_bpm target_beats confidence_threshold
    required_time_sig d = (Ok o, d') ->
  match out_status o with
  | failed => o = outcome_failed
  | skipped_time_sig =>
      d' = d /\ out_path o = None /\ out_final_bpm o = None /\
      exists detected,
        out_info o = Some (time_signature_mismatch detected required_time_sig) /\
        estimate_time_signature w file_path = Ok detected /\
        detected <> required_time_sig
  | success =>
      out_path o = Some processed_save_path /\
      exists bpm info,
        out_final_bpm o = Some bpm /\ ~ (bpm == 0)%Q /\
        (bpm = target_bpm \/ get_file_bpm w file_path metadata = Ok (Some bpm)) /\
        out_info o = Some (beat_alignment info)
  end.
Proof.
  intros Hrun. unfold process_wav_with_beat_alignment in Hrun.
  destruct (negb (os_path_exists w file_path)).
  { injection Hrun as <- _. reflexivity. }
  io_step Hrun as [detected|] d0 Hts.
  2:{ injection Hrun as <- _. reflexivity. }
  unfold io_lift in Hts. injection Hts as Hts <-.
  assert (Hdetected : estimate_time_signature w file_path = Ok detected).
  { destruct (estimate_time_signature w file_path) as [v| |];
      cbn [bind try_except] in Hts; [congruence|discriminate..]. }
  destruct (detected =? required_time_sig) eqn:Ereq; cbn [negb] in Hrun.
  2:{ injection Hrun as <- <-. cbn. apply Z.eqb_neq in Ereq.
      repeat split. exists detected. auto. }
  io_step Hrun as original_bpm d1 Hbpm.
  unfold io_lift in Hbpm. injection Hbpm as Hbpm <-.
  io_step Hrun as [working_file final_bpm] d2 Hwork.
  assert (Hfinal : final_bpm = target_bpm \/
                   get_file_bpm w file_path metadata = Ok (Some final_bpm)).
  { unfold needs_conversion, bpm_or in Hwork.
    destruct original_bpm as [bpm|].
    - destruct (negb preserve_bpm && negb (Qeq_bool bpm 0)
                && negb (Qle_bool (Qabs (bpm - target_bpm)) 1)).
      + io_step Hwork as f d3 _. injection Hwork as _ <- _. now left.
      + io_step Hwork as sr d3 _.
        destruct (Qeq_bool bpm 0);
          destruct (negb (sr =? target_sample_rate)).
        * io_step Hwork as [wav sr'] d4 _. io_step Hwork as [] d5 _.
          injection Hwork as _ <- _. now left.
        * injection Hwork as _ <- _. now left.
        * io_step Hwork as [wav sr'] d4 _. io_step Hwork as [] d5 _.
          injection Hwork as _ <- _. now right.
        * injection Hwork as _ <- _. now right.
    - io_step Hwork as sr d3 _.
      destruct (negb (sr =? target_sample_rate)).
      + io_step Hwork as [wav sr'] d4 _. io_step Hwork as [] d5 _.
        injection Hwork as _ <- _. now left.
      + injection Hwork as _ <- _. now left. }
  io_step Hrun as r d3 Halign.
  io_step Hrun as [] d4 _. io_step Hrun as [] d5 _. io_step Hrun as [] d6 _.
  destruct (ar_success r) eqn:Hsuccess.
  2:{ injection Hrun as <- _. reflexivity. }
  io_step Hrun as final d7 _. io_step Hrun as [] d8 _.
  io_step Hrun as [] d9 Hcheck.
  unfold io_ret in Hrun. injection Hrun as <- _. cbn.
  split; [reflexivity|].
  assert (Hinfo : exists info,
             ar_beat_info r = Some info /\ bi_actual_samples info <> None).
  { destruct (align_run_inversion _ _ _ _ _ _ _ _ _ Halign)
      as [[-> _]|(clip & i & -> & _ & _ & Hblock)]; [discriminate Hsuccess|].
    exists i. split; [reflexivity|]. destruct Hblock as [Etry|Eexc].
    - destruct (align_try_info _ _ _ _ _ _ _ Etry) as (_ & -> & _). discriminate.
    - destruct (align_except_info _ _ _ _ confidence_threshold _ _ Eexc)
        as (_ & -> & _).
      discriminate. }
  destruct Hinfo as (info & Hinfo & Hactual).
  exists final_bpm, info. rewrite Hinfo in *. cbn.
  split; [reflexivity|]. split; [|split; [exact Hfinal|reflexivity]].
  unfold io_lift in Hcheck.
  destruct (bi_actual_samples info); [|congruence].
  destruct (Qeq_bool final_bpm 0) eqn:E0; [discriminate Hcheck|].
  intros Hzero. apply Qeq_bool_iff in Hzero. congruence.
Qed.

Lemma process_wav_with_beat_alignment_outcome_witness :
  exists o,
    fst (process_wav_with_beat_alignment short_clip_world 0 "loop.wav" "out.wav"
           None TARGET_SAMPLE_RATE 120 false 32 0.3%R 4 empty_disk) = Ok o /\
    out_path o = Some "out.wav"%string /\
    exists bpm info,
      out_final_bpm o = Some bpm /\ ~ (bpm == 0)%Q /\
      (bpm = 120%Q \/ get_file_bpm short_clip_world "loop.wav" None = Ok (Some bpm)) /\
      out_info o = Some (beat_alignment info).
Proof.
  destruct (short_clip_run 0 32) as (o & d' & Hrun & Hstatus); [lia|].
  pose proof (process_wav_with_beat_alignment_outcome short_clip_world 0 "loop.wav"
                "out.wav" None TARGET_SAMPLE_RATE 120 false 32 0.3%R 4 empty_disk
                d' o Hrun) as H.
  rewrite Hstatus in H. exists o. rewrite Hrun. split; [reflexivity|exact H].
Defined.

(** ** Listing filter *)

Lemma ascii_lower_not_W (c : ascii) : ascii_lower c <> "W"%char.
Proof.
  destruct c as [[] [] [] [] [] [] [] []]; vm_compute; discriminate.
Qed.

Lemma get_str_lower (s : string) :
  forall i, String.get i (str_lower s) = option_map ascii_lower (String.get i s).
Proof.
  induction s as [|c s IH]; intros [|i]; cbn [str_lower String.get option_map];
    try reflexivity.
  apply IH.
Qed.

(** X29. In the listing filter the name is lower-cased before its suffix is
    tested, so the second suffix, [.WAV], can never match: a name is kept
    exactly when its lower-cased form ends in [.wav]. *)
Theorem is_wav_name_lowercase_suffix (f : string) :
  str_endswith (str_lower f) ".WAV" = false /\
  is_wav_name f = str_endswith (str_lower f) ".wav".
Proof.
  assert (H : str_endswith (str_lower f) ".WAV" = false).
  { unfold str_endswith.
    destruct (String.length ".WAV" <=? String.length (str_lower f))%nat eqn:Hlen;
      [|reflexivity].
    cbn [andb]. apply Nat.leb_le in Hlen.
    destruct (String.eqb _ ".WAV") eqn:E; [|reflexivity].
    apply String.eqb_eq in E. exfalso.
    pose proof (substring_correct1 (str_lower f)
                  (String.length (str_lower f) - String.length ".WAV")
                  (String.length ".WAV") 1 ltac:(simpl; lia)) as Hget.
    rewrite E in Hget. rewrite get_str_lower in Hget.
    destruct (String.get _ f) as [c|]; [|discriminate Hget].
    cbn in Hget. injection Hget as Hget.
    exact (ascii_lower_not_W c (eq_sym Hget)). }
  split; [exact H|]. unfold is_wav_name. rewrite H. apply orb_false_r.
Qed.
